(** * vpo_tableros: the tabular pipeline of the reporting dashboards

    A shallow embedding of the data pipeline of [pages/ingreso_st.py] and
    [pages/poblacion_st.py]: column normalisation, the preparation of the
    sheets, the territorial join, the filters and their chain, the grouped
    aggregations with derived ratios and the frames of the charts.
    The Streamlit widgets, the charts and the reading of the workbooks are
    not modelled: every function below starts from frames already read.

    Modelling conventions.
    - A pandas [DataFrame] is column-major, as pandas stores it: an ordered
      list of labelled columns, each a list of cells.  Access by label
      takes the first column of that label (the pages use distinct labels).
    - A frame passed to a function is passed by reference; where the code
      writes into its argument the model threads a store of frames.
    - Python [str] values are byte strings (UTF-8); [upper] and [strip] act
      on the ASCII letters and the ASCII white space.
    - A float is an exact rational or one of the IEEE special values
      (+inf, -inf, nan): rounding is abstracted, division by zero and the
      propagation of the special values are as IEEE 754 has them.  The text
      of a finite float ([repr]) is a parameter, [float_str].
    - An exception raised by pandas is a value, [Raise]. *)

From Stdlib Require Import Ascii QArith Qround Qabs.
From Stdlib Require String.
From stdpp Require Import base decidable option list sorting strings pretty.

Open Scope Z_scope.

(* ===================================================================== *)
(** ** Python strings *)
(* ===================================================================== *)

Module Str.

(** [str.isspace] on one ASCII character: TAB, LF, VT, FF, CR, the four
    separators FS, GS, RS, US, and the blank. *)
Definition is_space (a : ascii) : bool :=
  let n := N_of_ascii a in
  ((9 <=? n) && (n <=? 13) || (28 <=? n) && (n <=? 32))%N.

Definition upper_char (a : ascii) : ascii :=
  let n := N_of_ascii a in
  if ((97 <=? n) && (n <=? 122))%N then ascii_of_N (n - 32) else a.

Fixpoint map (f : ascii -> ascii) (s : string) : string :=
  match s with
  | EmptyString => EmptyString
  | String a s' => String (f a) (map f s')
  end.

(** [s.upper()] *)
Definition upper (s : string) : string := map upper_char s.

Definition is_empty (s : string) : bool :=
  match s with EmptyString => true | _ => false end.

Fixpoint lstrip (s : string) : string :=
  match s with
  | EmptyString => EmptyString
  | String a s' => if is_space a then lstrip s' else s
  end.

Fixpoint rstrip (s : string) : string :=
  match s with
  | EmptyString => EmptyString
  | String a s' =>
      let r := rstrip s' in
      if is_space a && is_empty r then EmptyString else String a r
  end.

(** [s.strip()] *)
Definition strip (s : string) : string := rstrip (lstrip s).

(** [s.replace(x, y)] for one-character [x] and [y]. *)
Definition replace_char (x y : ascii) (s : string) : string :=
  map (fun a => if Ascii.eqb a x then y else a) s.

(** [s.replace(x, "")] for a one-character [x]. *)
Fixpoint remove_char (x : ascii) (s : string) : string :=
  match s with
  | EmptyString => EmptyString
  | String a s' =>
      if Ascii.eqb a x then remove_char x s' else String a (remove_char x s')
  end.

Fixpoint zeros (n : nat) : string :=
  match n with
  | O => EmptyString
  | S n' => String "0" (zeros n')
  end.

(** [s.zfill(width)], which [Series.str.zfill] applies to every value:
    pads with '0' on the left up to [width]; a leading sign stays in front
    of the padding; a string at least [width] long is returned as it is. *)
Definition zfill (width : nat) (s : string) : string :=
  let pad := zeros (width - String.length s) in
  match s with
  | String a s' =>
      if Ascii.eqb a "+" || Ascii.eqb a "-" then String a (pad +:+ s')
      else pad +:+ s
  | EmptyString => pad
  end.

(** [x in s] for strings: [x] occurs as a contiguous substring. *)
Fixpoint contains (x s : string) : bool :=
  String.prefix x s
  || match s with
     | EmptyString => false
     | String _ s' => contains x s'
     end.

End Str.

(* ===================================================================== *)
(** ** Numbers *)
(* ===================================================================== *)

(** The values of a float64 column. *)
Inductive num : Type :=
| Fin (q : Q)
| PInf
| NInf
| NaN.

Module Num.

Definition zero : num := Fin 0.
Definition of_Z (z : Z) : num := Fin (inject_Z z).

Definition isnan (x : num) : bool :=
  match x with NaN => true | _ => false end.

Definition isinf (x : num) : bool :=
  match x with PInf | NInf => true | _ => false end.

(** [x == 0] *)
Definition eq0 (x : num) : bool :=
  match x with Fin q => Qeq_bool q 0 | _ => false end.

(** [x != 0]; true for nan, as in Python. *)
Definition ne0 (x : num) : bool := negb (eq0 x).

Definition sgn (q : Q) : comparison := (q ?= 0)%Q.

Definition neg (x : num) : num :=
  match x with
  | Fin q => Fin (- q)
  | PInf => NInf
  | NInf => PInf
  | NaN => NaN
  end.

Definition add (x y : num) : num :=
  match x, y with
  | NaN, _ | _, NaN => NaN
  | PInf, NInf | NInf, PInf => NaN
  | PInf, _ | _, PInf => PInf
  | NInf, _ | _, NInf => NInf
  | Fin a, Fin b => Fin (a + b)
  end.

Definition sub (x y : num) : num := add x (neg y).

Definition inf_of (c : comparison) : num :=
  match c with Gt => PInf | Lt => NInf | Eq => NaN end.

Definition mul (x y : num) : num :=
  match x, y with
  | NaN, _ | _, NaN => NaN
  | Fin a, Fin b => Fin (a * b)
  | Fin a, PInf | PInf, Fin a => inf_of (sgn a)
  | Fin a, NInf | NInf, Fin a => inf_of (CompOpp (sgn a))
  | PInf, PInf | NInf, NInf => PInf
  | PInf, NInf | NInf, PInf => NInf
  end.

(** True division of floats as numpy performs it: no exception, a
    non-zero finite value over zero is an infinity, 0/0 is nan. *)
Definition div (x y : num) : num :=
  match x, y with
  | NaN, _ | _, NaN => NaN
  | Fin a, Fin b =>
      if Qeq_bool b 0 then inf_of (sgn a) else Fin (a / b)
  | Fin _, (PInf | NInf) => Fin 0
  | PInf, Fin b => match sgn b with Lt => NInf | _ => PInf end
  | NInf, Fin b => match sgn b with Lt => PInf | _ => NInf end
  | (PInf | NInf), (PInf | NInf) => NaN
  end.

(** [Series.sum()] and the "sum" aggregation: nan entries are skipped
    (skipna), the empty sum is 0. *)
Definition sum (l : list num) : num :=
  fold_left add (List.filter (fun x => negb (isnan x)) l) zero.

(** [s.replace([np.inf, -np.inf], 0)] on one value *)
Definition replace_inf (x : num) : num :=
  if isinf x then Fin 0 else x.

(** [s.fillna(0)] on one value *)
Definition fillna0 (x : num) : num :=
  if isnan x then Fin 0 else x.

(** [s.replace([np.inf, -np.inf, np.nan], 0)] on one value *)
Definition replace_inf_nan (x : num) : num :=
  if isinf x || isnan x then Fin 0 else x.

(** Order of two values that are not nan. *)
Definition leb (x y : num) : bool :=
  match x, y with
  | NInf, _ | _, PInf => true
  | Fin a, Fin b => Qle_bool a b
  | _, _ => false
  end.

End Num.


(* ===================================================================== *)
(** ** Number formatting: [fmt_money] and [fmt_pct] *)
(* ===================================================================== *)

Module Fmt.

(** Rounding to the nearest integer, ties to even, as the [f] format
    rounds the value it prints. *)
Definition round_half_even (q : Q) : Z :=
  let f := Qfloor q in
  match (q - inject_Z f ?= 1 # 2)%Q with
  | Lt => f
  | Gt => f + 1
  | Eq => if Z.even f then f else f + 1
  end.

(** The [,] option: a comma before every group of three digits, counted
    from the right.  [l] holds the digits from the right, [k] is the number
    of digits still to place before the next comma. *)
Fixpoint group_go (l : list ascii) (k : nat) : list ascii :=
  match l with
  | [] => []
  | a :: l' =>
      match k with
      | O => ","%char :: a :: group_go l' 2
      | S k' => a :: group_go l' k'
      end
  end.

Definition thousands (n : N) : string :=
  String.string_of_list_ascii
    (rev (group_go (rev (String.list_ascii_of_string (pretty n))) 3)).

Definition two_digits (n : N) : string :=
  if (n <? 10)%N then "0" +:+ pretty n else pretty n.

Definition sign_of (q : Q) : string :=
  match (q ?= 0)%Q with Lt => "-" | _ => "" end.

(** [f"{v:,.0f}"] *)
Definition money (v : num) : string :=
  match v with
  | Fin q => sign_of q +:+ thousands (Z.to_N (round_half_even (Qabs q)))
  | PInf => "inf"
  | NInf => "-inf"
  | NaN => "nan"
  end.

(** [f"{v:,.2f}%"] *)
Definition pct (v : num) : string :=
  match v with
  | Fin q =>
      let c := Z.to_N (round_half_even (Qabs q * 100)) in
      sign_of q +:+ thousands (c / 100) +:+ "." +:+ two_digits (c mod 100)
      +:+ "%"
  | PInf => "inf%"
  | NInf => "-inf%"
  | NaN => "nan%"
  end.

End Fmt.

(** [fmt_money(v)]: the value with a thousands separator and no decimals. *)
Definition fmt_money (v : num) : string := Fmt.money v.

(** [fmt_pct(v)]: the value as a percentage with two decimals. *)
Definition fmt_pct (v : num) : string := Fmt.pct v.

(* ===================================================================== *)
(** ** Cells, exceptions and data frames *)
(* ===================================================================== *)

(** The value of one cell: a [str], an integer, a float, or [None]. *)
Inductive cell : Type :=
| CStr (s : string)
| CInt (z : Z)
| CFloat (x : num)
| CNone.

Global Instance Q_eq_dec : EqDecision Q.
Proof. solve_decision. Defined.

Global Instance num_eq_dec : EqDecision num.
Proof. solve_decision. Defined.

Global Instance cell_eq_dec : EqDecision cell.
Proof. solve_decision. Defined.

(** [pd.isna] on one cell *)
Definition isna (c : cell) : bool :=
  match c with
  | CNone | CFloat NaN => true
  | _ => false
  end.

(** [c == s] for a string [s] *)
Definition cell_is (s : string) (c : cell) : bool :=
  bool_decide (c = CStr s).

(** The exceptions the modelled code can raise. *)
Inductive exn : Type :=
| KeyError (c : string)
| TypeError.

Inductive py (A : Type) : Type :=
| Ret (a : A)
| Raise (e : exn).

Arguments Ret {A} a.
Arguments Raise {A} e.

Global Instance py_ret : MRet py := fun A a => Ret a.

Global Instance py_bind : MBind py := fun A B k m =>
  match m with
  | Ret a => k a
  | Raise e => Raise e
  end.

(** A data frame: its columns in order, each with its label and values. *)
Abbreviation Series := (list cell).
Abbreviation DataFrame := (list (string * list cell)).

Module DF.

(** [df.columns] *)
Definition columns (df : DataFrame) : list string := map fst df.

(** [c in df.columns] *)
Definition has (c : string) (df : DataFrame) : bool :=
  bool_decide (c ∈ columns df).

(** Number of rows. *)
Definition nrows (df : DataFrame) : nat :=
  match df with
  | [] => O
  | (_, v) :: _ => length v
  end.

(** [df.empty]: no column or no row. *)
Definition empty (df : DataFrame) : bool := Nat.eqb (nrows df) 0.

(** [df[c]] read: the values of the column, or [KeyError]. *)
Definition get (c : string) (df : DataFrame) : py Series :=
  match List.find (fun p => String.eqb (fst p) c) df with
  | Some p => Ret (snd p)
  | None => Raise (KeyError c)
  end.

(** [df[c] = v] and [df.loc[:, c] = v]: replaces the column of that label,
    or appends a new last column. *)
Definition set (c : string) (v : Series) (df : DataFrame) : DataFrame :=
  if has c df
  then map (fun p => if String.eqb (fst p) c then (c, v) else p) df
  else df ++ [(c, v)].

(** [df.drop(columns=cs, errors="ignore")] *)
Definition drop (cs : list string) (df : DataFrame) : DataFrame :=
  List.filter (fun p => negb (bool_decide (fst p ∈ cs))) df.

(** [df[cs]] for a list of labels *)
Fixpoint select (cs : list string) (df : DataFrame) : py DataFrame :=
  match cs with
  | [] => Ret []
  | c :: cs' =>
      v ← get c df;
      rest ← select cs' df;
      Ret ((c, v) :: rest)
  end.

(** Boolean indexing of one column. *)
Fixpoint mask_filter {A : Type} (mask : list bool) (v : list A) : list A :=
  match mask, v with
  | b :: m, x :: v' =>
      if b then x :: mask_filter m v' else mask_filter m v'
  | _, _ => []
  end.

(** [df[mask]] *)
Definition filter_rows (mask : list bool) (df : DataFrame) : DataFrame :=
  map (fun p => (fst p, mask_filter mask (snd p))) df.

(** [df.rename(columns=f)] *)
Definition rename (f : string -> string) (df : DataFrame) : DataFrame :=
  map (fun p => (f (fst p), snd p)) df.

(** [s.fillna(x)] *)
Definition fillna (x : cell) (v : Series) : Series :=
  map (fun c => if isna c then x else c) v.

(** [s.nunique()]: the number of distinct values that are not null. *)
Fixpoint distinct (seen : list cell) (v : Series) : list cell :=
  match v with
  | [] => []
  | c :: v' =>
      if isna c || bool_decide (c ∈ seen) then distinct seen v'
      else c :: distinct (c :: seen) v'
  end.

Definition nunique (v : Series) : nat := length (distinct [] v).

End DF.

(** [str(c)] and [s.astype(str)] on one cell.  The text of a finite float
    is Python's [repr], which the embedding takes as the parameter
    [float_str]; integers print in decimal, the special floats and [None]
    by their names. *)
Definition astype_str (float_str : Q -> string) (c : cell) : string :=
  match c with
  | CStr s => s
  | CInt z => pretty z
  | CFloat (Fin q) => float_str q
  | CFloat PInf => "inf"
  | CFloat NInf => "-inf"
  | CFloat NaN => "nan"
  | CNone => "None"
  end.

(** The numeric reading of a cell of an amount column; a null cell reads as
    nan, text has none. *)
Definition num_of_cell (c : cell) : py num :=
  match c with
  | CInt z => Ret (Num.of_Z z)
  | CFloat x => Ret x
  | CNone => Ret NaN
  | CStr _ => Raise TypeError
  end.

Fixpoint to_nums (v : Series) : py (list num) :=
  match v with
  | [] => Ret []
  | c :: v' =>
      x ← num_of_cell c;
      xs ← to_nums v';
      Ret (x :: xs)
  end.

(** [df[c]] read as numbers. *)
Definition numeric (c : string) (df : DataFrame) : py (list num) :=
  v ← DF.get c df;
  to_nums v.

(* ===================================================================== *)
(** ** Sorting, grouping and joining *)
(* ===================================================================== *)

Module Sort.

Fixpoint insert_by {A : Type} (le : A -> A -> bool) (x : A) (l : list A)
  : list A :=
  match l with
  | [] => [x]
  | y :: l' => if le x y then x :: l else y :: insert_by le x l'
  end.

(** [sort_values]: rows in ascending order of [le].  pandas does not fix
    the order of rows that compare equal (its default sort is not stable);
    the model keeps them in their relative order, and no property below
    depends on it. *)
Definition sort_by {A : Type} (le : A -> A -> bool) (l : list A) : list A :=
  foldr (insert_by le) [] l.

End Sort.

Module GroupBy.

(** Order of the group labels: numbers by value and before text, text in
    the order of Python strings. *)
Definition key_leb (a b : cell) : bool :=
  match a, b with
  | CStr s, CStr t => String.leb s t
  | CStr _, _ => false
  | _, CStr _ => true
  | CInt x, CInt y => (x <=? y)%Z
  | CInt x, CFloat y => Num.leb (Num.of_Z x) y
  | CFloat x, CInt y => Num.leb x (Num.of_Z y)
  | CFloat x, CFloat y => Num.leb x y
  | _, _ => true
  end.

(** The labels of [df.groupby(c)]: the distinct values of the key column
    that are not null, in ascending order. *)
Definition keys (ks : Series) : list cell :=
  Sort.sort_by key_leb (DF.distinct [] ks).

(** The values of [v] on the rows whose key is [k]. *)
Definition members {A : Type} (ks : Series) (v : list A) (k : cell) : list A :=
  DF.mask_filter (map (fun c => bool_decide (c = k)) ks) v.

(** The "sum" aggregation of column [v] for the group [k]. *)
Definition sum (ks : Series) (v : list num) (k : cell) : num :=
  Num.sum (members ks v k).

End GroupBy.

Module Join.

Inductive how : Type := Left | Inner.

(** Positions of the rows of the right key column that equal [k], counted
    from [j]. *)
Fixpoint matches_from (j : nat) (k : cell) (rk : Series) : list nat :=
  match rk with
  | [] => []
  | c :: rk' =>
      if bool_decide (c = k) then j :: matches_from (S j) k rk'
      else matches_from (S j) k rk'
  end.

(** The rows of the result, in the order of the left keys: each is a left
    position with a matching right position, or (left join only) a left
    position without a partner. *)
Fixpoint plan_from (h : how) (i : nat) (lk rk : Series)
  : list (nat * option nat) :=
  match lk with
  | [] => []
  | k :: lk' =>
      match matches_from 0 k rk with
      | [] => match h with Left => [(i, None)] | Inner => [] end
      | js => map (fun j => (i, Some j)) js
      end ++ plan_from h (S i) lk' rk
  end.

Definition gather_left (plan : list (nat * option nat)) (v : Series) : Series :=
  map (fun p => default CNone (v !! fst p)) plan.

(** A left row without a partner gets nan in the columns of the right. *)
Definition gather_right (plan : list (nat * option nat)) (v : Series) : Series :=
  map (fun p => match snd p with
                | Some j => default CNone (v !! j)
                | None => CFloat NaN
                end) plan.

(** [left.merge(right, how=h, on=key)]: the columns of the left, then the
    columns of the right without the key; a label that both sides carry
    gets the suffix [_x] or [_y]. *)
Definition merge (h : how) (key : string) (left right : DataFrame)
  : py DataFrame :=
  lk ← DF.get key left;
  rk ← DF.get key right;
  let plan := plan_from h 0 lk rk in
  let shared (c : string) : bool :=
    negb (String.eqb c key) && DF.has c left && DF.has c right in
  Ret (map (fun p => (if shared (fst p) then fst p +:+ "_x" else fst p,
                      gather_left plan (snd p))) left
       ++ map (fun p => (if shared (fst p) then fst p +:+ "_y" else fst p,
                         gather_right plan (snd p)))
              (List.filter (fun p => negb (String.eqb (fst p) key)) right)).

(** The mask of [drop_duplicates(subset=[key])]: a row is kept when its key
    has not occurred above it. *)
Fixpoint first_seen (seen : list cell) (ks : Series) : list bool :=
  match ks with
  | [] => []
  | k :: ks' =>
      negb (bool_decide (k ∈ seen)) :: first_seen (k :: seen) ks'
  end.

Definition drop_duplicates (key : string) (df : DataFrame) : py DataFrame :=
  ks ← DF.get key df;
  Ret (DF.filter_rows (first_seen [] ks) df).

End Join.

(* ===================================================================== *)
(** ** pages/ingreso_st.py *)
(* ===================================================================== *)

Module Ingreso.

(** The new label of one column: [strip], [upper], blanks to underscores. *)
Definition normalize_name (c : string) : string :=
  Str.replace_char " " "_" (Str.upper (Str.strip c)).

(** [normalize_columns(df)]: a copy of [df] with normalised labels, and
    [%_EJECUCION] renamed to [PORCENTAJE_EJECUCION]. *)
Definition normalize_columns (df : DataFrame) : DataFrame :=
  let df := DF.rename normalize_name df in
  if DF.has "%_EJECUCION" df
  then DF.rename (fun c => if String.eqb c "%_EJECUCION"
                           then "PORCENTAJE_EJECUCION" else c) df
  else df.

(** One row of the numeric (export) table of an aggregation: the group
    label, the two sums, [Diferencia] and [% Ejecución]. *)
Record fila : Type := Fila {
  clave : cell;
  presupuesto : num;
  ejecutado : num;
  diferencia : num;
  pct_ejecucion : num
}.

(** One row of the formatted (display) table. *)
Record fila_display : Type := FilaDisplay {
  d_clave : cell;
  d_presupuesto : string;
  d_ejecutado : string;
  d_diferencia : string;
  d_pct_ejecucion : string
}.

Definition display (r : fila) : fila_display :=
  {| d_clave := clave r;
     d_presupuesto := fmt_money (presupuesto r);
     d_ejecutado := fmt_money (ejecutado r);
     d_diferencia := fmt_money (diferencia r);
     d_pct_ejecucion := fmt_pct (pct_ejecucion r) |}.

(** The ratio of a group row:
    [(e / p).replace([np.inf, -np.inf], 0).fillna(0) * 100]. *)
Definition ratio_grupo (e p : num) : num :=
  Num.mul (Num.fillna0 (Num.replace_inf (Num.div e p))) (Fin 100).

(** The ratio of the total row:
    [(e / p) * 100 if p != 0 else 0]. *)
Definition ratio_total (e p : num) : num :=
  if Num.ne0 p then Num.mul (Num.div e p) (Fin 100) else Fin 0.

(** The rows of [df.groupby(key).agg(sum, sum).reset_index()] with the two
    derived columns. *)
Definition agrupar (ks : Series) (p e : list num) : list fila :=
  map (fun k =>
         let gp := GroupBy.sum ks p k in
         let ge := GroupBy.sum ks e k in
         {| clave := k; presupuesto := gp; ejecutado := ge;
            diferencia := Num.sub ge gp;
            pct_ejecucion := ratio_grupo ge gp |})
      (GroupBy.keys ks).

(** The guard of both aggregations: no distinct value, or only "N/A". *)
Definition sin_grupos (ks : Series) : bool :=
  Nat.eqb (DF.nunique ks) 0 || forallb (cell_is "N/A") ks.

Definition fila_total (df_group : list fila) : fila :=
  let total_presupuesto := Num.sum (map presupuesto df_group) in
  let total_ejecutado := Num.sum (map ejecutado df_group) in
  {| clave := CStr "TOTAL";
     presupuesto := total_presupuesto;
     ejecutado := total_ejecutado;
     diferencia := Num.sub total_ejecutado total_presupuesto;
     pct_ejecucion := ratio_total total_ejecutado total_presupuesto |}.

(** [create_componente_table(df)]: [(df_display, df_export)], or [None]. *)
Definition create_componente_table (df : DataFrame)
  : py (option (list fila_display * list fila)) :=
  match DF.get "CONCEPTO" df with
  | Raise _ => Ret None
  | Ret ks =>
      if sin_grupos ks then Ret None
      else
        p ← numeric "PRESUPUESTO" df;
        e ← numeric "EJECUTADO" df;
        let df_group := agrupar ks p e in
        let df_export := df_group ++ [fila_total df_group] in
        Ret (Some (map display df_export, df_export))
  end.

(** [meses_orden] of [create_kpi_table]. *)
Definition meses_orden : list (string * nat) :=
  [("ENE", 1); ("FEB", 2); ("MAR", 3); ("ABR", 4); ("MAY", 5); ("JUN", 6);
   ("JUL", 7); ("AGO", 8); ("SEP", 9); ("OCT", 10); ("NOV", 11); ("DIC", 12)]%nat.

(** [d.get(s)] for a dictionary written as its list of items. *)
Definition dict_get {V : Type} (d : list (string * V)) (s : string) : option V :=
  snd <$> List.find (fun p => String.eqb (fst p) s) d.

Section WithFloatStr.

Variable float_str : Q -> string.

(** [MES_ORDER] of one row: [str(mes).upper()] looked up in [meses_orden]. *)
Definition mes_order (r : fila) : option nat :=
  dict_get meses_orden (Str.upper (astype_str float_str (clave r))).

Definition mes_order_leb (a b : fila) : bool :=
  match mes_order a, mes_order b with
  | Some x, Some y => Nat.leb x y
  | Some _, None => true
  | None, Some _ => false
  | None, None => true
  end.

(** The display rows of the month table: rows without [MES_ORDER] dropped
    ([dropna]), the others in ascending [MES_ORDER] ([sort_values]). *)
Definition ordenar_por_mes (rows : list fila) : list fila :=
  Sort.sort_by mes_order_leb
    (List.filter (fun r => bool_decide (is_Some (mes_order r))) rows).

(** [create_kpi_table(df, group_col)]: [(df_display, df_export)], or
    [None]. *)
Definition create_kpi_table (df : DataFrame) (group_col : string)
  : py (option (list fila_display * list fila)) :=
  match DF.get group_col df with
  | Raise _ => Ret None
  | Ret ks0 =>
      if sin_grupos ks0 then Ret None
      else
        let df_sel :=
          DF.filter_rows (map (fun c => negb (cell_is "N/A" c)) ks0) df in
        ks ← DF.get group_col df_sel;
        p ← numeric "TOTAL_PRESUPUESTO" df_sel;
        e ← numeric "TOTAL_EJECUTADO" df_sel;
        let df_group := agrupar ks p e in
        if Nat.eqb (length df_group) 0 then Ret None
        else
          let df_export := df_group in
          let df_display :=
            if String.eqb group_col "MES" && DF.has "FECHA" df
            then ordenar_por_mes df_export
            else df_export in
          Ret (Some (map display df_display, df_export))
  end.

(** [aplicar_filtro_select(df, col, valor_seleccionado)].  Python passes
    the frame by reference: [h] is the store of the frames the page holds
    and [df] the reference passed.  The result is the store after the call
    with the reference returned: [df] itself when the filter does not
    apply; otherwise column [col] of [df] is overwritten in place
    ([df.loc[:, col] = ...], which takes the new values whatever the
    column held before) and the selected rows are a new frame. *)
Definition aplicar_filtro_select (h : list DataFrame) (df : nat)
    (col : string) (valor_seleccionado : cell)
  : option (list DataFrame * nat) :=
  d ← h !! df;
  if negb (DF.has col d) || bool_decide (valor_seleccionado = CStr "Todos")
  then Some (h, df)
  else
    let valor_seleccionado_str :=
      Str.strip (Str.upper (astype_str float_str valor_seleccionado)) in
    match DF.get col d with
    | Raise _ => None
    | Ret v =>
        let v' :=
          map (fun c => CStr (Str.strip (Str.upper (astype_str float_str c))))
              v in
        let d' := DF.set col v' d in
        let h' := <[df := d']> h in
        let mask := map (cell_is valor_seleccionado_str) v' in
        Some (h' ++ [DF.filter_rows mask d'], length h')
    end.

(** [geo_candidates] of [mostrar_ingreso]. *)
Definition geo_candidates : list string :=
  ["REGIÓN"; "MUNICIPIO"; "REGIONAL"; "ZONAL"; "PROVINCIA";
   "DEPARTAMENTO"; "CATEGORIA_DEPARTAMENTO"; "CATEGORIA_MUNICIPIO";
   "DESCRIPCIÓN_ZONA"; "SUBREGIÓN"; "DESCRIPCION_ZONA"].

(** The column of [df_geo] that holds the code: the first whose label is
    [DANE] after [strip] and [upper], else the first column. *)
Definition dane_col_geo (df_geo : DataFrame) : option string :=
  match List.find (fun c => String.eqb (Str.upper (Str.strip c)) "DANE")
                  (DF.columns df_geo) with
  | Some c => Some c
  | None =>
      if negb (DF.has "DANE" df_geo) then head (DF.columns df_geo) else None
  end.

(** The join key of one code: [str(c).zfill(5)]. *)
Definition dane_str (c : cell) : string :=
  Str.zfill 5 (astype_str float_str c).

(** A label of [df_geo] is a geography attribute when one candidate occurs
    in it, underscores apart. *)
Definition es_geo (col : string) : bool :=
  existsb (fun candidate =>
             Str.contains (Str.remove_char "_" candidate)
                          (Str.remove_char "_" col))
          geo_candidates.

(** [list(dict.fromkeys(l))]: the first occurrence of every element. *)
Fixpoint fromkeys (seen l : list string) : list string :=
  match l with
  | [] => []
  | c :: l' =>
      if bool_decide (c ∈ seen) then fromkeys seen l'
      else c :: fromkeys (c :: seen) l'
  end.

Definition geo_cols_present (df_geo : DataFrame) : list string :=
  fromkeys [] (List.filter es_geo (DF.columns df_geo)).

(** [df[c] = df[c].fillna("N/A")] when [c] is a column of [df]. *)
Definition fill_na (df : DataFrame) (c : string) : DataFrame :=
  if DF.has c df then
    match DF.get c df with
    | Ret v => DF.set c (DF.fillna (CStr "N/A") v) df
    | Raise _ => df
    end
  else df.

(** The territorial join of [mostrar_ingreso] ("Merge con geo"): the new
    value of [df_poblacion].  An exception inside the [try] block leaves
    [df_poblacion] as the statements before it made it; the helper column
    [DANE_STR] is dropped in every case. *)
Definition merge_con_geo (df_poblacion df_geo : DataFrame) : py DataFrame :=
  if DF.empty df_geo then Ret df_poblacion
  else
    dane ← DF.get "DANE" df_poblacion;
    let df_poblacion :=
      DF.set "DANE_STR" (map (fun c => CStr (dane_str c)) dane) df_poblacion in
    match dane_col_geo df_geo with
    | None => Raise (KeyError "None")
    | Some col =>
        dane_geo ← DF.get col df_geo;
        let df_geo :=
          DF.set "DANE_STR" (map (fun c => CStr (dane_str c)) dane_geo)
                 df_geo in
        let cols := geo_cols_present df_geo in
        let df_poblacion :=
          match (sel ← DF.select ("DANE_STR" :: cols) df_geo;
                 Join.drop_duplicates "DANE_STR" sel) with
          | Raise _ => df_poblacion
          | Ret df_geo_unique =>
              let df_poblacion :=
                DF.drop (List.filter (fun c => DF.has c df_poblacion) cols)
                        df_poblacion in
              match Join.merge Join.Left "DANE_STR" df_poblacion
                               df_geo_unique with
              | Raise _ => df_poblacion
              | Ret merged => foldl fill_na merged cols
              end
          end in
        Ret (DF.drop ["DANE_STR"] df_poblacion)
    end.

End WithFloatStr.

(** *** The indicators of the KPIs tab *)









(** *** Preparation of the loaded sheets *)

(** [expected_cols] of [mostrar_ingreso]. *)
Definition expected_cols : list string :=
  ["ANO"; "MES"; "REGIMEN"; "DANE";
   "TOTAL_PRESUPUESTO"; "TOTAL_EJECUTADO";
   "PRESUPUESTO_UPC_LMA"; "EJECUTADO_UPC_LMA";
   "PRESUPUESTO_PYP"; "EJECUTADO_PYP";
   "PRESUPUESTO_PROVISION"; "EJECUTADO_PROVISION"].

(** [any(k in col for k in ["TOTAL", "PRESUPUESTO", "EJECUTADO"])] *)
Definition es_monto (col : string) : bool :=
  existsb (fun k => Str.contains k col) ["TOTAL"; "PRESUPUESTO"; "EJECUTADO"].

(** [df[col] = x] for a scalar [x]: the value on every row. *)
Definition set_scalar (col : string) (x : cell) (df : DataFrame) : DataFrame :=
  DF.set col (replicate (DF.nrows df) x) df.

(** The loop over [expected_cols]: a missing column is added, with 0 when
    its label names an amount and with "N/A" otherwise. *)
Definition completar_con (cols : list string) (df : DataFrame) : DataFrame :=
  fold_left
    (fun df col =>
       if DF.has col df then df
       else set_scalar col (if es_monto col then CInt 0 else CStr "N/A") df)
    cols df.

Definition completar (df_poblacion : DataFrame) : DataFrame :=
  completar_con expected_cols df_poblacion.

Section WithParse.

(** The number that [pd.to_numeric] reads in a text, if it reads one: an
    integer or a float. *)
Variable parse_number : string -> option cell.

(** [pd.to_numeric(.., errors="coerce")] on one cell: numbers stay, a text
    is parsed, and what is not a number becomes nan. *)
Definition coerce (c : cell) : cell :=
  match c with
  | CInt z => CInt z
  | CFloat x => CFloat x
  | CNone => CFloat NaN
  | CStr s =>
      match parse_number s with
      | Some (CInt z) => CInt z
      | Some (CFloat x) => CFloat x
      | _ => CFloat NaN
      end
  end.

Definition is_int (c : cell) : bool :=
  match c with CInt _ => true | _ => false end.

Definition to_float (c : cell) : cell :=
  match c with CInt z => CFloat (Num.of_Z z) | _ => c end.

(** [pd.to_numeric(v, errors="coerce")]: a column of integers when every
    value is one, else a column of floats. *)
Definition to_numeric (v : Series) : Series :=
  let xs := map coerce v in
  if forallb is_int xs then xs else map to_float xs.

(** [pd.to_numeric(v, errors="coerce").fillna(0)] *)
Definition a_numerico (v : Series) : Series :=
  DF.fillna (CFloat (Fin 0)) (to_numeric v).

(** [df[c] = pd.to_numeric(df.get(c, pd.Series([0])), errors="coerce")
    .fillna(0)]: the new values of column [c].  The default of [get] has
    one row; placed in the frame, the other rows are null. *)
Definition columna_numerica (c : string) (df : DataFrame) : Series :=
  match DF.get c df with
  | Ret v => a_numerico v
  | Raise _ =>
      match DF.nrows df with
      | O => []
      | S O => [CInt 0]
      | S n => CFloat (Fin 0) :: replicate n (CFloat NaN)
      end
  end.

(** The loop over [monto_cols]: every column whose label names an amount
    is made numeric, its nulls replaced by 0. *)
Definition montos_con (cols : list string) (df : DataFrame) : DataFrame :=
  fold_left (fun df c => DF.set c (columna_numerica c df) df) cols df.

Definition monto_cols (df : DataFrame) : list string :=
  List.filter es_monto (DF.columns df).

Definition montos (df_poblacion : DataFrame) : DataFrame :=
  montos_con (monto_cols df_poblacion) df_poblacion.


Variable float_str : Q -> string.





End WithParse.

(** *** The options of the select boxes and the chain of filters *)

Definition es_texto (c : cell) : bool :=
  match c with CStr _ => true | _ => false end.

(** [sorted(l)] for a list of labels without nulls: text with text and
    numbers with numbers are ordered; a text and a number cannot be
    compared. *)
Definition py_sorted (l : list cell) : py (list cell) :=
  if forallb es_texto l || forallb (fun c => negb (es_texto c)) l
  then Ret (Sort.sort_by GroupBy.key_leb l)
  else Raise TypeError.

(** [[x for x in s.dropna().unique() if x != "N/A"]] *)
Definition valores (v : Series) : list cell :=
  List.filter (fun c => negb (cell_is "N/A" c)) (DF.distinct [] v).

(** [get_select_options(df, col)] *)
Definition get_select_options (df : DataFrame) (col : string)
  : py (list cell) :=
  if negb (DF.has col df) then Ret [CStr "Todos"]
  else
    let v := match DF.get col df with Ret v => v | Raise _ => [] end in
    opts ← py_sorted (valores v);
    Ret (CStr "Todos" :: opts).

(** The selections of the page. *)
Record seleccion : Type := Seleccion {
  selected_ano : cell;
  selected_mes : cell;
  selected_regimen : cell;
  sel_region : cell;
  sel_depto : cell;
  sel_mun : cell;
  sel_regional : cell;
  sel_zonal : cell;
  sel_provincia : cell;
  sel_cat_depto : cell;
  sel_cat_mun : cell;
  sel_desc_zona : cell;
  sel_subregion : cell
}.

Definition geo_filters (s : seleccion) : list (string * cell) :=
  [("REGIÓN", sel_region s); ("DEPARTAMENTO", sel_depto s);
   ("MUNICIPIO", sel_mun s); ("REGIONAL", sel_regional s);
   ("ZONAL", sel_zonal s); ("PROVINCIA", sel_provincia s);
   ("CATEGORIA_DEPARTAMENTO", sel_cat_depto s);
   ("CATEGORIA_MUNICIPIO", sel_cat_mun s);
   ("DESCRIPCIÓN_ZONA", sel_desc_zona s); ("SUBREGIÓN", sel_subregion s)].

(** [df.copy()]: a new frame of the store with the content of [df]. *)
Definition copy (h : list DataFrame) (df : nat)
  : option (list DataFrame * nat) :=
  d ← h !! df;
  Some (h ++ [d], length h).

Section Filtros.

Variable float_str : Q -> string.

(** The filter on the components, which is applied only
    [if not df.empty and col in df.columns]. *)
Definition filtro_componentes (h : list DataFrame) (df : nat) (col : string)
    (valor : cell) : option (list DataFrame * nat) :=
  d ← h !! df;
  if negb (DF.empty d) && DF.has col d
  then aplicar_filtro_select float_str h df col valor
  else Some (h, df).

(** The loop over [geo_filters], on the two frames it filters. *)
Fixpoint filtros_geo (fs : list (string * cell)) (h : list DataFrame)
    (df_filtrado df_filtrado_for_trend : nat)
  : option (list DataFrame * (nat * nat)) :=
  match fs with
  | [] => Some (h, (df_filtrado, df_filtrado_for_trend))
  | (col, sel_val) :: fs' =>
      r1 ← aplicar_filtro_select float_str h df_filtrado col sel_val;
      r2 ← aplicar_filtro_select float_str r1.1 df_filtrado_for_trend
             col sel_val;
      filtros_geo fs' r2.1 r1.2 r2.2
  end.

(** "APLICAR FILTROS" of [mostrar_ingreso]: from the store [h] with the
    two prepared sheets, the store afterwards and the references
    [df_filtrado_kpis], [df_filtrado_for_trend] and
    [df_filtrado_componentes]. *)
Definition aplicar_filtros (h : list DataFrame)
    (df_poblacion df_componentes : nat) (s : seleccion)
  : option (list DataFrame * (nat * nat * nat)) :=
  full ← copy h df_poblacion;
  comp ← copy full.1 df_componentes;
  trend ← copy comp.1 df_poblacion;
  let selected_ano_str := CStr (astype_str float_str (selected_ano s)) in
  full ← aplicar_filtro_select float_str trend.1 full.2 "ANO"
           selected_ano_str;
  trend ← aplicar_filtro_select float_str full.1 trend.2 "ANO"
            selected_ano_str;
  comp ← filtro_componentes trend.1 comp.2 "ANO" selected_ano_str;
  filtrado ← aplicar_filtro_select float_str comp.1 full.2 "MES"
               (selected_mes s);
  comp ← filtro_componentes filtrado.1 comp.2 "MES" (selected_mes s);
  filtrado ← aplicar_filtro_select float_str comp.1 filtrado.2 "REGIMEN"
               (selected_regimen s);
  trend ← aplicar_filtro_select float_str filtrado.1 trend.2 "REGIMEN"
            (selected_regimen s);
  comp ← filtro_componentes trend.1 comp.2 "REGIMEN" (selected_regimen s);
  geo ← filtros_geo (geo_filters s) comp.1 filtrado.2 trend.2;
  Some (geo.1, (geo.2.1, geo.2.2, comp.2)).

End Filtros.

(** *** The monthly chart *)

(** [x > 0] *)
Definition positivo (x : num) : bool :=
  match x with
  | Fin q => negb (Qle_bool q 0)
  | PInf => true
  | _ => false
  end.

(** [f"{x:,.1f}%"] *)
Definition fmt_pct1 (v : num) : string :=
  match v with
  | Fin q =>
      let c := Z.to_N (Fmt.round_half_even (Qabs q * 10)) in
      Fmt.sign_of q +:+ Fmt.thousands (c / 10)%N +:+ "."
      +:+ pretty (c mod 10)%N +:+ "%"
  | PInf => "inf%"
  | NInf => "-inf%"
  | NaN => "nan%"
  end.

(** [mapeo_meses] of the chart. *)
Definition mapeo_meses : list (string * nat) :=
  [("ENE", 1); ("FEB", 2); ("MAR", 3); ("ABR", 4); ("MAY", 5); ("JUN", 6);
   ("JUL", 7); ("AGO", 8); ("SEP", 9); ("OCT", 10); ("NOV", 11); ("DIC", 12)]%nat.

(** One month of the chart: the two bars, the ratio and its label. *)
Record barra : Type := Barra {
  b_mes : cell;
  b_presupuesto : num;
  b_ejecutado : num;
  b_porcentaje : num;
  b_pct_label : string
}.

Section Grafico.

Variable float_str : Q -> string.

(** [MES_ORDER] of one month:
    [str(mes).upper().strip()] looked up in [mapeo_meses]. *)
Definition mes_order_chart (r : barra) : option nat :=
  dict_get mapeo_meses
    (Str.strip (Str.upper (astype_str float_str (b_mes r)))).

Definition mes_order_chart_leb (x y : barra) : bool :=
  match mes_order_chart x, mes_order_chart y with
  | Some i, Some j => Nat.leb i j
  | Some _, None => true
  | None, Some _ => false
  | None, None => true
  end.

(** [df_chart] of the "Gráficos" tab: the sums by month of the trend
    frame, the ratio and its label, the months with a positive budget
    only, and of these the months that [mapeo_meses] knows, in its
    order. *)
Definition df_chart (df_filtrado_for_trend : DataFrame) : py (list barra) :=
  ks ← DF.get "MES" df_filtrado_for_trend;
  p ← numeric "TOTAL_PRESUPUESTO" df_filtrado_for_trend;
  e ← numeric "TOTAL_EJECUTADO" df_filtrado_for_trend;
  let rows :=
    map (fun k =>
           let gp := GroupBy.sum ks p k in
           let ge := GroupBy.sum ks e k in
           let pct := Num.mul (Num.div ge gp) (Fin 100) in
           {| b_mes := k; b_presupuesto := gp; b_ejecutado := ge;
              b_porcentaje := pct;
              b_pct_label :=
                if negb (Num.isnan pct) && positivo pct then fmt_pct1 pct
                else "" |})
        (GroupBy.keys ks) in
  let rows := List.filter (fun r => positivo (b_presupuesto r)) rows in
  Ret (if Nat.eqb (length rows) 0 then rows
       else Sort.sort_by mes_order_chart_leb
              (List.filter (fun r => bool_decide (is_Some (mes_order_chart r)))
                           rows)).

End Grafico.

End Ingreso.

(* ===================================================================== *)
(** ** pages/poblacion_st.py *)
(* ===================================================================== *)

Module Poblacion.

Definition MONTH_ORDER : list (string * nat) :=
  [("ENERO", 1); ("FEBRERO", 2); ("MARZO", 3); ("ABRIL", 4);
   ("MAYO", 5); ("JUNIO", 6); ("JULIO", 7); ("AGOSTO", 8);
   ("SEPTIEMBRE", 9); ("OCTUBRE", 10); ("NOVIEMBRE", 11);
   ("DICIEMBRE", 12)]%nat.

Definition REQUIRED_COLS_DASHBOARD : list (string * string) :=
  [("POBLACION_PAIS", "POBLACION PAIS");
   ("POBLACION_INTEGRAL", "POBLACION INTEGRAL")].

Definition cols_to_clean : list string :=
  ["REGIÓN"; "REGIONAL"; "SUBREGIÓN"; "DEPARTAMENTO"; "MUNICIPIO";
   "REGIMEN"; "MES"; "ZONAL"].

(** One row of a summary: the group label, the three sums,
    [% PARTICIPACION PAIS] and [% EJECUCIÓN]. *)
Record resumen : Type := Resumen {
  grupo : cell;
  PRESUPUESTO : num;
  POBLACION_BDUA : num;
  POBLACION_PAIS : num;
  participacion_pais : num;
  ejecucion : num
}.

(** [np.where(p != 0, (b / p) * 100, 0)] on one row. *)
Definition razon_inversion (b p : num) : num :=
  if Num.ne0 p then Num.mul (Num.div b p) (Fin 100) else Fin 0.

(** [(np.divide(b, t) * 100).replace([np.inf, -np.inf, np.nan], 0)] on one
    row. *)
Definition razon_participacion (b t : num) : num :=
  Num.replace_inf_nan (Num.mul (Num.div b t) (Fin 100)).

(** [df.groupby(key).agg({PRESUPUESTO, POBLACION_BDUA, POBLACION PAIS: sum})
    .reset_index()] with the two derived columns; the empty frame when
    [key] is not a column of [df]. *)
Definition resumir (key : string) (df : DataFrame) : py (list resumen) :=
  match DF.get key df with
  | Raise _ => Ret []
  | Ret ks =>
      p ← numeric "PRESUPUESTO" df;
      b ← numeric "POBLACION_BDUA" df;
      t ← numeric "POBLACION PAIS" df;
      Ret (map (fun k =>
                  let gp := GroupBy.sum ks p k in
                  let gb := GroupBy.sum ks b k in
                  let gt := GroupBy.sum ks t k in
                  {| grupo := k; PRESUPUESTO := gp; POBLACION_BDUA := gb;
                     POBLACION_PAIS := gt;
                     participacion_pais := razon_participacion gb gt;
                     ejecucion := razon_inversion gb gp |})
               (GroupBy.keys ks))
  end.

(** [df_regional_viz]: by [REGIONAL], in descending order of
    [% PARTICIPACION PAIS]. *)
Definition df_regional_viz (df_filtered : DataFrame) : py (list resumen) :=
  rows ← resumir "REGIONAL" df_filtered;
  Ret (Sort.sort_by
         (fun a b => Num.leb (participacion_pais b) (participacion_pais a))
         rows).

(** [MES_ORDEN] of one row: [MONTH_ORDER] at the label, nan when the label
    is not a key of it. *)
Definition mes_orden (r : resumen) : option nat :=
  match grupo r with
  | CStr s => Ingreso.dict_get MONTH_ORDER s
  | _ => None
  end.

(** Ascending order of [MES_ORDEN], nan last. *)
Definition mes_orden_leb (a b : resumen) : bool :=
  match mes_orden a, mes_orden b with
  | Some x, Some y => Nat.leb x y
  | Some _, None => true
  | None, Some _ => false
  | None, None => true
  end.

(** [df_mes_viz]: by [MES], in ascending order of [MES_ORDEN]. *)
Definition df_mes_viz (df_chart_data_all_months : DataFrame)
  : py (list resumen) :=
  rows ← resumir "MES" df_chart_data_all_months;
  Ret (Sort.sort_by mes_orden_leb rows).

(** [df_regimen_table_viz]: by [REGIMEN], in ascending order of
    [REGIMEN]. *)
Definition df_regimen_table_viz (df_filtered : DataFrame)
  : py (list resumen) :=
  rows ← resumir "REGIMEN" df_filtered;
  Ret (Sort.sort_by (fun a b => GroupBy.key_leb (grupo a) (grupo b)) rows).

Section WithFloatStr.

Variable float_str : Q -> string.

(** The cleaning of one categorical column:
    [df[c] = df[c].astype(str).str.upper().fillna("SIN INFORMACIÓN")]. *)
Definition clean (df : DataFrame) (col : string) : DataFrame :=
  let limpiar (c : string) : DataFrame :=
    match DF.get c df with
    | Ret v =>
        DF.set c (DF.fillna (CStr "SIN INFORMACIÓN")
                    (map (fun x => CStr (Str.upper (astype_str float_str x))) v))
               df
    | Raise _ => df
    end in
  if DF.has (Str.upper col) df then limpiar (Str.upper col)
  else if DF.has col df then limpiar col
  else df.

Definition astype_str_col (c : string) (df : DataFrame) : DataFrame :=
  match DF.get c df with
  | Ret v => DF.set c (map (fun x => CStr (astype_str float_str x)) v) df
  | Raise _ => df
  end.

(** [load_data()] after the two sheets are read: [None] stands for the
    error paths, which report the exception and return [None]. *)
Definition load_data (df_poblacion df_territorialidad : DataFrame)
  : option DataFrame :=
  let merged : py DataFrame :=
    dane ← DF.get "DANE" df_poblacion;
    let df_poblacion :=
      DF.set "DANE" (map (fun c => CStr (astype_str float_str c)) dane)
             df_poblacion in
    dane_t ← DF.get "DANE" df_territorialidad;
    let df_territorialidad :=
      DF.set "DANE" (map (fun c => CStr (astype_str float_str c)) dane_t)
             df_territorialidad in
    df_merged ← Join.merge Join.Inner "DANE" df_poblacion df_territorialidad;
    let df_merged :=
      DF.rename (fun c => default c (Ingreso.dict_get REQUIRED_COLS_DASHBOARD c))
                df_merged in
    let df_merged := foldl clean df_merged cols_to_clean in
    let df_merged := DF.rename Str.upper df_merged in
    let df_merged :=
      if DF.has "ANO" df_merged then astype_str_col "ANO" df_merged
      else df_merged in
    let df_merged :=
      if DF.has "MES" df_merged then astype_str_col "MES" df_merged
      else df_merged in
    Ret df_merged in
  match merged with
  | Ret df => Some df
  | Raise _ => None
  end.

End WithFloatStr.

(** *** The filters of the page *)

(** One comparison of [df[col] == sel]: a null on either side compares
    unequal. *)
Definition cell_eq (sel c : cell) : bool :=
  negb (isna sel) && negb (isna c) && bool_decide (c = sel).

(** [s.unique()]: the values in order of first appearance, a null
    included. *)
Fixpoint unique (seen : list cell) (v : Series) : list cell :=
  match v with
  | [] => []
  | c :: v' =>
      if bool_decide (c ∈ seen) then unique seen v'
      else c :: unique (c :: seen) v'
  end.

Definition es_numerica (c : cell) : bool :=
  match c with CInt _ | CFloat _ => true | _ => false end.

(** Whether [sorted(l)] returns: it compares text with text and numbers
    with numbers only; a single value is never compared. *)
Definition ordenable (l : list cell) : bool :=
  (length l <=? 1)%nat || forallb Ingreso.es_texto l || forallb es_numerica l.

(** The options of a select box are read from the column:
    [sorted(df_temp[col].unique())], or, for the month, sorted by the key
    [MONTH_ORDER.get(x, 99)], which compares numbers only. *)
Definition leer_opciones (por_clave : bool) (col : string) (df_temp : DataFrame)
  : py unit :=
  v ← DF.get col df_temp;
  if por_clave || ordenable (unique [] v) then Ret tt else Raise TypeError.

(** [df[df[col] == sel]] *)
Definition donde (col : string) (sel : cell) (df : DataFrame) : py DataFrame :=
  v ← DF.get col df;
  Ret (DF.filter_rows (map (cell_eq sel) v) df).

(** One select box and its filter on [df_temp]. *)
Definition filtro_widget (por_clave : bool) (col : string) (sel : cell)
    (df_temp : DataFrame) : py DataFrame :=
  _ ← leer_opciones por_clave col df_temp;
  if bool_decide (sel = CStr "TODOS") then Ret df_temp
  else donde col sel df_temp.

(** What is selected in the eight boxes. *)
Record seleccion : Type := Seleccion {
  selected_ano : cell;
  selected_mes : cell;
  selected_regimen : cell;
  selected_region : cell;
  selected_regional : cell;
  selected_subregion : cell;
  selected_departamento : cell;
  selected_municipio : cell
}.

(** [df_filtered]: [df_temp] after the eight filters. *)
Definition df_filtered (s : seleccion) (df : DataFrame) : py DataFrame :=
  df_temp ← filtro_widget false "ANO" (selected_ano s) df;
  df_temp ← filtro_widget true "MES" (selected_mes s) df_temp;
  df_temp ← filtro_widget false "REGIMEN" (selected_regimen s) df_temp;
  df_temp ← filtro_widget false "REGIÓN" (selected_region s) df_temp;
  df_temp ← filtro_widget false "REGIONAL" (selected_regional s) df_temp;
  df_temp ← filtro_widget false "SUBREGIÓN" (selected_subregion s) df_temp;
  df_temp ← filtro_widget false "DEPARTAMENTO" (selected_departamento s)
              df_temp;
  filtro_widget false "MUNICIPIO" (selected_municipio s) df_temp.

(** [st.session_state] after the boxes: every key holds what was selected,
    but ["filtro_subregion"], which is set to 'TODOS'. *)
Definition geo_filters_active (s : seleccion) : list (string * cell) :=
  [("REGIÓN", selected_region s); ("REGIONAL", selected_regional s);
   ("SUBREGIÓN", CStr "TODOS");
   ("DEPARTAMENTO", selected_departamento s);
   ("MUNICIPIO", selected_municipio s)].

Definition filtro_estado (col : string) (sel_val : cell) (df : DataFrame)
  : py DataFrame :=
  if bool_decide (sel_val = CStr "TODOS") then Ret df else donde col sel_val df.

Fixpoint filtros_activos (fs : list (string * cell)) (df : DataFrame)
  : py DataFrame :=
  match fs with
  | [] => Ret df
  | (col, sel_val) :: fs' =>
      if negb (bool_decide (sel_val = CStr "TODOS")) && DF.has col df
      then df ← donde col sel_val df; filtros_activos fs' df
      else filtros_activos fs' df
  end.

(** [df_chart_data_all_months]: the loaded frame under the filters of the
    session state other than the month. *)
Definition df_chart_data_all_months (s : seleccion) (df : DataFrame)
  : py DataFrame :=
  d ← filtro_estado "ANO" (selected_ano s) df;
  d ← filtro_estado "REGIMEN" (selected_regimen s) d;
  filtros_activos (geo_filters_active s) d.

(** *** The summary by régimen that feeds the KPIs and the bar chart *)




(** [porc_bdua] of the global KPIs. *)
Definition porc_bdua (total_bdua total_pais : num) : num :=
  if Num.eq0 total_pais || Num.isnan total_pais then Fin 0
  else Num.mul (Num.div total_bdua total_pais) (Fin 100).

(** *** The monthly chart *)

(** [x >= 0] *)
Definition ge0 (x : num) : bool :=
  match x with
  | Fin q => Qle_bool 0 q
  | PInf => true
  | _ => false
  end.

(** One month of the chart: the two bars, the ratio and its label. *)
Record barra : Type := Barra {
  b_mes : cell;
  b_presupuesto : num;
  b_bdua : num;
  b_porcentaje : num;
  b_pct_label : string
}.

(** [MES_ORDER] of a month: [MONTH_ORDER] at the label. *)
Definition mes_order (k : cell) : option nat :=
  match k with
  | CStr s => Ingreso.dict_get MONTH_ORDER s
  | _ => None
  end.

Definition mes_order_leb (x y : cell * num * num) : bool :=
  match mes_order x.1.1, mes_order y.1.1 with
  | Some i, Some j => Nat.leb i j
  | Some _, None => true
  | None, Some _ => false
  | None, None => true
  end.

(** [df_chart] of the "Gráficos" tab, or [None] when the page shows a
    notice instead of the chart: the sums by month of the frame of the
    monthly views, the months that [MONTH_ORDER] knows in its order, and
    for each the guarded ratio and its label. *)
Definition df_chart (df_chart_data_all_months : DataFrame)
  : py (option (list barra)) :=
  if DF.empty df_chart_data_all_months then Ret None
  else
    ks ← DF.get "MES" df_chart_data_all_months;
    p ← numeric "PRESUPUESTO" df_chart_data_all_months;
    b ← numeric "POBLACION_BDUA" df_chart_data_all_months;
    let rows :=
      map (fun k => (k, GroupBy.sum ks p k, GroupBy.sum ks b k))
          (GroupBy.keys ks) in
    let rows :=
      Sort.sort_by mes_order_leb
        (List.filter (fun r => bool_decide (is_Some (mes_order r.1.1))) rows) in
    if Nat.eqb (length rows) 0 then Ret None
    else
      Ret (Some
             (map (fun r =>
                     let pct := razon_inversion r.2 r.1.2 in
                     {| b_mes := r.1.1; b_presupuesto := r.1.2;
                        b_bdua := r.2; b_porcentaje := pct;
                        b_pct_label :=
                          if negb (Num.isnan pct) && ge0 pct
                          then Ingreso.fmt_pct1 pct else "" |})
                  rows)).

(** *** The summaries by two keys *)

(** The labels of [df.groupby([c1, c2])]: the distinct pairs of values
    without a null, in ascending order, the first key before the
    second. *)
Fixpoint distinct2 (seen : list (cell * cell)) (v : list (cell * cell))
  : list (cell * cell) :=
  match v with
  | [] => []
  | k :: v' =>
      if isna k.1 || isna k.2 || bool_decide (k ∈ seen) then distinct2 seen v'
      else k :: distinct2 (k :: seen) v'
  end.

Definition key2_leb (x y : cell * cell) : bool :=
  if bool_decide (x.1 = y.1) then GroupBy.key_leb x.2 y.2
  else GroupBy.key_leb x.1 y.1.

Definition keys2 (k1 k2 : Series) : list (cell * cell) :=
  Sort.sort_by key2_leb (distinct2 [] (zip k1 k2)).

(** The values of [v] on the rows whose pair of keys is [k]. *)
Definition members2 {A : Type} (k1 k2 : Series) (v : list A)
    (k : cell * cell) : list A :=
  DF.mask_filter (map (fun c => bool_decide (c = k)) (zip k1 k2)) v.

Record resumen2 : Type := Resumen2 {
  r2_grupo : cell;
  r2_subgrupo : cell;
  r2_presupuesto : num;
  r2_bdua : num;
  r2_pais : num;
  r2_participacion_pais : num;
  r2_ejecucion : num
}.

(** [df.groupby([key1, key2]).agg(sum, sum, sum).reset_index()] with the
    two derived columns; the empty frame when one of the keys is not a
    column of [df]. *)
Definition resumir2 (key1 key2 : string) (df : DataFrame)
  : py (list resumen2) :=
  if DF.has key1 df && DF.has key2 df then
    k1 ← DF.get key1 df;
    k2 ← DF.get key2 df;
    p ← numeric "PRESUPUESTO" df;
    b ← numeric "POBLACION_BDUA" df;
    t ← numeric "POBLACION PAIS" df;
    Ret (map (fun k =>
                let gp := Num.sum (members2 k1 k2 p k) in
                let gb := Num.sum (members2 k1 k2 b k) in
                let gt := Num.sum (members2 k1 k2 t k) in
                {| r2_grupo := k.1; r2_subgrupo := k.2;
                   r2_presupuesto := gp; r2_bdua := gb; r2_pais := gt;
                   r2_participacion_pais := razon_participacion gb gt;
                   r2_ejecucion := razon_inversion gb gp |})
             (keys2 k1 k2))
  else Ret [].

Definition df_region_sub (df_filtered : DataFrame) : py (list resumen2) :=
  resumir2 "REGIÓN" "SUBREGIÓN" df_filtered.

Definition df_regional_zonal_viz (df_filtered : DataFrame)
  : py (list resumen2) :=
  resumir2 "REGIONAL" "ZONAL" df_filtered.

(** [df_region_viz_simple]: the summary by region and sub-region grouped
    again by region, its two ratios computed anew. *)
Definition df_region_viz_simple (df_region_sub : list resumen2)
  : list resumen :=
  let ks := map r2_grupo df_region_sub in
  map (fun k =>
         let gp := GroupBy.sum ks (map r2_presupuesto df_region_sub) k in
         let gb := GroupBy.sum ks (map r2_bdua df_region_sub) k in
         let gt := GroupBy.sum ks (map r2_pais df_region_sub) k in
         {| grupo := k; PRESUPUESTO := gp; POBLACION_BDUA := gb;
            POBLACION_PAIS := gt;
            participacion_pais := razon_participacion gb gt;
            ejecucion := razon_inversion gb gp |})
      (GroupBy.keys ks).

End Poblacion.

(* ===================================================================== *)
(** * Properties *)
(* ===================================================================== *)

(** ** Strings *)

Arguments Str.is_space : simpl never.
Arguments Str.upper_char : simpl never.

Section StrFacts.

Implicit Types (s t : string) (a : ascii) (f g : ascii -> ascii).

Lemma strmap_compose f g s : Str.map f (Str.map g s) = Str.map (fun a => f (g a)) s.
Proof. induction s as [|a s IH]; simpl; [done|by rewrite IH]. Qed.

Lemma strmap_ext f g s : (forall a, f a = g a) -> Str.map f s = Str.map g s.
Proof. intros E. induction s as [|a s IH]; simpl; [done|by rewrite E, IH]. Qed.

Lemma strmap_is_empty f s : Str.is_empty (Str.map f s) = Str.is_empty s.
Proof. by destruct s. Qed.

(** A string without leading white space. *)
Definition no_lead s : Prop :=
  match s with
  | EmptyString => True
  | String a _ => Str.is_space a = false
  end.

(** A string that [strip] leaves alone. *)
Definition clean s : Prop := no_lead s /\ Str.rstrip s = s.

Lemma lstrip_no_lead s : no_lead (Str.lstrip s).
Proof.
  induction s as [|a s IH]; simpl; [done|].
  destruct (Str.is_space a) eqn:E; [done|]. simpl. done.
Qed.

Lemma lstrip_id s : no_lead s -> Str.lstrip s = s.
Proof. destruct s as [|a s]; simpl; [done|]. by intros ->. Qed.

Lemma rstrip_idem s : Str.rstrip (Str.rstrip s) = Str.rstrip s.
Proof.
  induction s as [|a s IH]; simpl; [done|].
  destruct (Str.is_space a && Str.is_empty (Str.rstrip s)) eqn:E; [done|].
  simpl. rewrite IH, E. done.
Qed.

Lemma rstrip_no_lead s : no_lead s -> no_lead (Str.rstrip s).
Proof.
  destruct s as [|a s]; simpl; [done|]. intros E. rewrite E. simpl. done.
Qed.

Lemma strip_clean s : clean (Str.strip s).
Proof.
  split.
  - apply rstrip_no_lead, lstrip_no_lead.
  - apply rstrip_idem.
Qed.

Lemma clean_strip s : clean s -> Str.strip s = s.
Proof. intros [H1 H2]. unfold Str.strip. by rewrite lstrip_id. Qed.

(** A character map that turns no character into white space keeps
    stripped strings stripped. *)
Lemma clean_map f s :
  (forall a, Str.is_space a = false -> Str.is_space (f a) = false) ->
  clean s -> clean (Str.map f s).
Proof.
  intros Hf [H1 H2]. split.
  - destruct s as [|a s]; simpl in *; auto.
  - clear H1. induction s as [|a s IH]; simpl in *; [done|].
    destruct (Str.is_space a && Str.is_empty (Str.rstrip s)) eqn:E; [done|].
    injection H2 as H2. rewrite (IH H2), strmap_is_empty.
    rewrite H2 in E.
    destruct (Str.is_space a) eqn:Ea; simpl in E.
    + rewrite E, andb_false_r. done.
    + rewrite (Hf _ Ea). done.
Qed.

(** The character map of [normalize_name]: upper case, blank to
    underscore. *)
Definition norm_char a : ascii :=
  if Ascii.eqb (Str.upper_char a) " " then "_"%char else Str.upper_char a.

Lemma norm_char_idem a : norm_char (norm_char a) = norm_char a.
Proof. by destruct a as [[] [] [] [] [] [] [] []]. Qed.

Lemma norm_char_space a :
  Str.is_space a = false -> Str.is_space (norm_char a) = false.
Proof. by destruct a as [[] [] [] [] [] [] [] []]. Qed.

Lemma upper_char_idem a : Str.upper_char (Str.upper_char a) = Str.upper_char a.
Proof. by destruct a as [[] [] [] [] [] [] [] []]. Qed.

Lemma upper_char_space a :
  Str.is_space a = false -> Str.is_space (Str.upper_char a) = false.
Proof. by destruct a as [[] [] [] [] [] [] [] []]. Qed.

Lemma normalize_name_map s :
  Ingreso.normalize_name s = Str.map norm_char (Str.strip s).
Proof.
  unfold Ingreso.normalize_name, Str.replace_char, Str.upper.
  by rewrite strmap_compose.
Qed.

Lemma normalize_name_idem s :
  Ingreso.normalize_name (Ingreso.normalize_name s) = Ingreso.normalize_name s.
Proof.
  rewrite !normalize_name_map.
  rewrite (clean_strip (Str.map norm_char (Str.strip s))).
  - rewrite strmap_compose. apply strmap_ext, norm_char_idem.
  - apply clean_map; [apply norm_char_space|apply strip_clean].
Qed.

(** [strip] after [upper], the normal form the filter compares. *)
Lemma strip_upper_idem s :
  Str.strip (Str.upper (Str.strip (Str.upper s))) = Str.strip (Str.upper s).
Proof.
  assert (clean (Str.upper (Str.strip (Str.upper s)))) as Hc.
  { apply clean_map; [apply upper_char_space|apply strip_clean]. }
  rewrite (clean_strip _ Hc). unfold Str.upper.
  (* upper commutes with the two strips *)
  assert (forall t, Str.lstrip (Str.map Str.upper_char t)
                    = Str.map Str.upper_char (Str.lstrip t)) as Hl.
  { induction t as [|a t IH]; simpl; [done|].
    destruct (Str.is_space a) eqn:E.
    - assert (Str.is_space (Str.upper_char a) = true) as ->; [|done].
      revert E. by destruct a as [[] [] [] [] [] [] [] []].
    - by rewrite (upper_char_space _ E). }
  assert (forall t, Str.rstrip (Str.map Str.upper_char t)
                    = Str.map Str.upper_char (Str.rstrip t)) as Hr.
  { induction t as [|a t IH]; simpl; [done|].
    rewrite IH, strmap_is_empty.
    assert (Str.is_space (Str.upper_char a) = Str.is_space a) as ->.
    { by destruct a as [[] [] [] [] [] [] [] []]. }
    by destruct (Str.is_space a && Str.is_empty (Str.rstrip t)). }
  unfold Str.strip. rewrite Hl, Hr, strmap_compose.
  apply strmap_ext, upper_char_idem.
Qed.

End StrFacts.

(** ** Column normalisation *)

Section NormalizeColumns.

Definition final_name (c : string) : string :=
  let n := Ingreso.normalize_name c in
  if String.eqb n "%_EJECUCION" then "PORCENTAJE_EJECUCION" else n.

Lemma rename_compose f g (df : DataFrame) :
  DF.rename f (DF.rename g df) = DF.rename (fun c => f (g c)) df.
Proof. unfold DF.rename. rewrite map_map. done. Qed.

Lemma rename_ext f g (df : DataFrame) :
  (forall c, c ∈ DF.columns df -> f c = g c) -> DF.rename f df = DF.rename g df.
Proof.
  intros E. unfold DF.rename. apply map_ext_in. intros [c v] Hin. simpl.
  rewrite E; [done|]. apply list_elem_of_In in Hin.
  unfold DF.columns. apply (list_elem_of_fmap_2 fst) in Hin. done.
Qed.

Lemma rename_id (df : DataFrame) f :
  (forall c, c ∈ DF.columns df -> f c = c) -> DF.rename f df = df.
Proof.
  intros E. rewrite (rename_ext f (fun c => c)); [|done].
  unfold DF.rename. rewrite <- (map_id df) at 2. apply map_ext. by intros [].
Qed.

(** The two steps of [normalize_columns] as one renaming. *)
Lemma normalize_columns_rename df :
  Ingreso.normalize_columns df = DF.rename final_name df.
Proof.
  unfold Ingreso.normalize_columns. cbv zeta.
  destruct (DF.has "%_EJECUCION" (DF.rename Ingreso.normalize_name df)) eqn:E.
  - by rewrite rename_compose.
  - unfold DF.has in E. apply bool_decide_eq_false in E.
    rewrite <- (rename_id (DF.rename Ingreso.normalize_name df)
               (fun c => if String.eqb c "%_EJECUCION"
                         then "PORCENTAJE_EJECUCION" else c)) at 1.
    + by rewrite rename_compose.
    + intros c Hc. destruct (String.eqb_spec c "%_EJECUCION"); [|done].
      subst. done.
Qed.

Lemma final_name_idem c : final_name (final_name c) = final_name c.
Proof.
  unfold final_name.
  destruct (String.eqb_spec (Ingreso.normalize_name c) "%_EJECUCION") as [E|E].
  - reflexivity.
  - rewrite normalize_name_idem.
    destruct (String.eqb_spec (Ingreso.normalize_name c) "%_EJECUCION"); done.
Qed.

(** C7. [normalize_columns] is idempotent: normalising a second time gives
    the same column labels and the same data as normalising once. *)
Theorem normalize_columns_idempotent (df : DataFrame) :
  Ingreso.normalize_columns (Ingreso.normalize_columns df)
  = Ingreso.normalize_columns df.
Proof.
  rewrite !normalize_columns_rename, rename_compose.
  apply rename_ext. intros c _. apply final_name_idem.
Qed.

(** The data of the frame is untouched: only the labels change. *)
Lemma normalize_columns_data (df : DataFrame) :
  map snd (Ingreso.normalize_columns df) = map snd df
  /\ DF.columns (Ingreso.normalize_columns df) = map final_name (DF.columns df).
Proof.
  rewrite normalize_columns_rename. unfold DF.rename, DF.columns.
  rewrite !map_map. done.
Qed.

End NormalizeColumns.

(** ** Data frames *)

Section FrameFacts.

Implicit Types (df : DataFrame) (c : string) (v w : Series) (m : list bool).

Lemma has_true c df : DF.has c df = true <-> c ∈ DF.columns df.
Proof. unfold DF.has. by rewrite bool_decide_eq_true. Qed.

Lemma has_false c df : DF.has c df = false <-> c ∉ DF.columns df.
Proof. unfold DF.has. by rewrite bool_decide_eq_false. Qed.

Lemma get_cons p df c :
  DF.get c (p :: df) = if String.eqb (fst p) c then Ret (snd p) else DF.get c df.
Proof. unfold DF.get. simpl. by destruct (String.eqb (fst p) c). Qed.

Lemma get_has c df v : DF.get c df = Ret v -> DF.has c df = true.
Proof.
  rewrite has_true. induction df as [|p df IH]; [done|].
  rewrite get_cons. unfold DF.columns. simpl.
  destruct (String.eqb_spec (fst p) c) as [->|]; intros H; [left|right; auto].
Qed.

Lemma has_get c df : DF.has c df = true -> exists v, DF.get c df = Ret v.
Proof.
  rewrite has_true. induction df as [|p df IH]; unfold DF.columns; simpl.
  - by intros ?%elem_of_nil.
  - rewrite get_cons. destruct (String.eqb_spec (fst p) c); [by eauto|].
    intros [?|?]%elem_of_cons; [congruence|auto].
Qed.

Lemma get_not_has c df : DF.has c df = false -> DF.get c df = Raise (KeyError c).
Proof.
  intros H. destruct (DF.get c df) as [v|e] eqn:E.
  - apply get_has in E. congruence.
  - unfold DF.get in *. by destruct (List.find _ df).
Qed.

Lemma get_app c df1 df2 :
  DF.get c (df1 ++ df2)
  = if DF.has c df1 then DF.get c df1 else DF.get c df2.
Proof.
  induction df1 as [|p df1 IH]; [done|].
  simpl. rewrite !get_cons.
  destruct (String.eqb_spec (fst p) c) as [E|E].
  - assert (DF.has c (p :: df1) = true) as ->; [|done].
    apply has_true. unfold DF.columns. simpl. rewrite E. left.
  - rewrite IH.
    assert (DF.has c (p :: df1) = DF.has c df1) as ->; [|done].
    unfold DF.has. apply bool_decide_ext. unfold DF.columns. simpl.
    rewrite elem_of_cons. split; [intros [?|?]; [congruence|done]|by right].
Qed.

(** A map over the values of every column. *)
Lemma get_map_values (f : Series -> Series) c df :
  DF.get c (map (fun p => (fst p, f (snd p))) df)
  = match DF.get c df with Ret v => Ret (f v) | Raise e => Raise e end.
Proof.
  induction df as [|p df IH]; [done|].
  simpl. rewrite !get_cons. simpl. by destruct (String.eqb (fst p) c).
Qed.

Lemma columns_map_values (f : string -> Series -> Series) df :
  DF.columns (map (fun p => (fst p, f (fst p) (snd p))) df) = DF.columns df.
Proof. unfold DF.columns. rewrite map_map. done. Qed.

Lemma columns_filter_rows m df :
  DF.columns (DF.filter_rows m df) = DF.columns df.
Proof. unfold DF.filter_rows, DF.columns. rewrite map_map. done. Qed.

Lemma has_filter_rows m c df : DF.has c (DF.filter_rows m df) = DF.has c df.
Proof. unfold DF.has. by rewrite columns_filter_rows. Qed.

Lemma get_filter_rows m c df :
  DF.get c (DF.filter_rows m df)
  = match DF.get c df with
    | Ret v => Ret (DF.mask_filter m v)
    | Raise e => Raise e
    end.
Proof. apply (get_map_values (DF.mask_filter m)). Qed.

Lemma columns_set c v df :
  DF.has c df = true -> DF.columns (DF.set c v df) = DF.columns df.
Proof.
  intros H. unfold DF.set. rewrite H. unfold DF.columns. rewrite map_map.
  apply map_ext. intros p. by destruct (String.eqb_spec (fst p) c).
Qed.

Lemma get_set_eq c v df : DF.get c (DF.set c v df) = Ret v.
Proof.
  unfold DF.set. destruct (DF.has c df) eqn:H.
  - apply has_true in H. induction df as [|p df IH].
    + by apply elem_of_nil in H.
    + simpl. rewrite get_cons.
      destruct (String.eqb_spec (fst p) c) as [E|E]; simpl.
      * by rewrite String.eqb_refl.
      * destruct (String.eqb_spec (fst p) c); [done|]. apply IH.
        unfold DF.columns in H. simpl in H.
        apply elem_of_cons in H as [?|?]; [congruence|done].
  - rewrite get_app, H. rewrite get_cons. simpl. by rewrite String.eqb_refl.
Qed.

Lemma get_set_ne c c' v df :
  c' <> c -> DF.get c' (DF.set c v df) = DF.get c' df.
Proof.
  intros Hne. unfold DF.set. destruct (DF.has c df) eqn:H.
  - clear H. induction df as [|p df IH]; [done|].
    simpl. rewrite !get_cons.
    destruct (String.eqb_spec (fst p) c) as [E|E]; simpl.
    + destruct (String.eqb_spec c c'); [congruence|].
      destruct (String.eqb_spec (fst p) c'); [congruence|done].
    + by rewrite IH.
  - rewrite get_app. destruct (DF.has c' df) eqn:H'; [done|].
    rewrite get_cons. simpl.
    destruct (String.eqb_spec c c'); [congruence|].
    by rewrite (get_not_has _ _ H').
Qed.

(** Writing to a column the values it already has changes nothing. *)
Lemma set_same c w df :
  DF.has c df = true ->
  (forall p, p ∈ df -> fst p = c -> snd p = w) ->
  DF.set c w df = df.
Proof.
  intros H Hw. unfold DF.set. rewrite H. clear H.
  induction df as [|p df IH]; [done|]. simpl.
  rewrite IH by (intros; apply Hw; [by right|done]).
  destruct (String.eqb_spec (fst p) c) as [E|E]; [|done].
  destruct p as [c0 v0]. simpl in *. subst.
  f_equal. f_equal. symmetry. apply (Hw (c, v0)); [left|done].
Qed.

Lemma set_values c v df p :
  DF.has c df = true -> p ∈ DF.set c v df -> fst p = c -> snd p = v.
Proof.
  intros H. unfold DF.set. rewrite H. intros Hin Hc.
  apply list_elem_of_fmap in Hin as [q [-> Hq]].
  destruct (String.eqb_spec (fst q) c); [done|]. contradiction.
Qed.

(** Boolean masks *)

Lemma mask_filter_length_le {A} m (x : list A) :
  (length (DF.mask_filter m x) <= length (List.filter (fun b : bool => b) m))%nat.
Proof.
  revert x. induction m as [|b m IH]; intros [|a x]; simpl; try lia.
  specialize (IH x). destruct b; simpl; lia.
Qed.

Lemma mask_filter_length_eq {A} m (x : list A) :
  length x = length m ->
  length (DF.mask_filter m x) = length (List.filter (fun b : bool => b) m).
Proof.
  revert x. induction m as [|b m IH]; intros [|a x]; simpl; try done.
  intros [= E]. specialize (IH x E). destruct b; simpl; lia.
Qed.

Lemma mask_filter_all_true {A} n (x : list A) :
  (length x <= n)%nat -> DF.mask_filter (replicate n true) x = x.
Proof.
  revert x. induction n as [|n IH]; intros [|a x]; simpl; try done; [lia|].
  intros H. rewrite IH; [done|]. apply le_S_n, H.
Qed.

(** The rows a mask of the test [f] selects all pass [f]. *)
Lemma mask_filter_self {A} (f : A -> bool) (x : list A) :
  Forall (fun a => f a = true) (DF.mask_filter (map f x) x).
Proof.
  induction x as [|a x IH]; simpl; [constructor|].
  destruct (f a) eqn:E; [constructor|]; done.
Qed.

Lemma map_const_true {A} (f : A -> bool) (x : list A) :
  Forall (fun a => f a = true) x -> map f x = replicate (length x) true.
Proof. induction 1 as [|a x Ha _ IH]; simpl; [done|]. by rewrite Ha, IH. Qed.

End FrameFacts.

(** ** The equality filter *)

Section Filtro.

Variable float_str : Q -> string.

Implicit Types (h : list DataFrame) (d : DataFrame) (col : string)
  (valor : cell).

(** The text the filter compares: [str(x).upper().strip()]. *)
Definition normal (x : cell) : cell :=
  CStr (Str.strip (Str.upper (astype_str float_str x))).

Lemma normal_idem x : normal (normal x) = normal x.
Proof. unfold normal. simpl. by rewrite strip_upper_idem. Qed.

(** The call when the filter applies, step by step. *)
Lemma aplicar_filtro_select_activo h df d col valor v :
  h !! df = Some d ->
  DF.get col d = Ret v ->
  valor <> CStr "Todos" ->
  let d' := DF.set col (map normal v) d in
  let h' := <[df := d']> h in
  Ingreso.aplicar_filtro_select float_str h df col valor
  = Some (h' ++ [DF.filter_rows
                   (map (fun c => bool_decide (c = normal valor)) (map normal v))
                   d'],
          length h).
Proof.
  intros Hd Hv Hne. unfold Ingreso.aplicar_filtro_select. rewrite Hd. simpl.
  rewrite (get_has _ _ _ Hv). simpl.
  rewrite bool_decide_eq_false_2 by done.
  rewrite Hv. rewrite length_insert. done.
Qed.

Lemma aplicar_filtro_select_sin_efecto h df d col valor :
  h !! df = Some d ->
  valor = CStr "Todos" \/ DF.has col d = false ->
  Ingreso.aplicar_filtro_select float_str h df col valor = Some (h, df).
Proof.
  intros Hd H. unfold Ingreso.aplicar_filtro_select. rewrite Hd. simpl.
  destruct H as [-> | ->]; [|done].
  rewrite bool_decide_eq_true_2 by done. by rewrite orb_true_r.
Qed.

(** C8. With the selection "Todos", or with a column that the dataset does
    not have, [aplicar_filtro_select] returns the frame it was given (the
    same reference) and changes no frame of the store: same rows, same
    order, same values. *)
Theorem filtro_passthrough h df d col valor :
  h !! df = Some d ->
  valor = CStr "Todos" \/ DF.has col d = false ->
  exists h' r,
    Ingreso.aplicar_filtro_select float_str h df col valor = Some (h', r)
    /\ r = df /\ h' = h /\ h' !! r = Some d.
Proof.
  intros Hd H. exists h, df.
  rewrite (aplicar_filtro_select_sin_efecto h df d col valor Hd H). done.
Qed.

(** C9. Applying the filter a second time, to the result of the first call
    and with the same column and value, returns a frame equal to that
    result. *)
Theorem filtro_idempotente h df col valor h1 r1 :
  valor <> CStr "Todos" ->
  Ingreso.aplicar_filtro_select float_str h df col valor = Some (h1, r1) ->
  exists h2 r2,
    Ingreso.aplicar_filtro_select float_str h1 r1 col valor = Some (h2, r2)
    /\ h2 !! r2 = h1 !! r1
    /\ is_Some (h1 !! r1).
Proof.
  intros Hne H1.
  destruct (h !! df) as [d|] eqn:Hd;
    [|by unfold Ingreso.aplicar_filtro_select in H1; rewrite Hd in H1].
  destruct (DF.has col d) eqn:Hcol.
  2: { (* the column is absent: both calls return the frame itself *)
    rewrite (aplicar_filtro_select_sin_efecto h df d col valor Hd) in H1
      by auto.
    injection H1 as E1 E2. subst h1 r1. exists h, df.
    rewrite (aplicar_filtro_select_sin_efecto h df d col valor Hd) by auto.
    rewrite Hd. eauto. }
  destruct (has_get _ _ Hcol) as [v Hv].
  rewrite (aplicar_filtro_select_activo h df d col valor v Hd Hv Hne) in H1.
  cbv zeta in H1. injection H1 as E1 E2. subst h1 r1.
  set (d' := DF.set col (map normal v) d).
  set (mask := map (fun c => bool_decide (c = normal valor)) (map normal v)).
  set (res := DF.filter_rows mask d').
  set (h' := <[df := d']> h).
  assert (length h' = length h) as Hlen by apply length_insert.
  assert ((h' ++ [res]) !! length h = Some res) as Hres.
  { rewrite lookup_app_r by lia. rewrite Hlen, Nat.sub_diag. done. }
  set (w := DF.mask_filter mask (map normal v)).
  assert (DF.get col res = Ret w) as Hw.
  { unfold res. rewrite get_filter_rows. unfold d'. by rewrite get_set_eq. }
  assert (Forall (fun c => c = normal valor) w) as Hall.
  { unfold w, mask.
    eapply Forall_impl; [apply mask_filter_self|].
    intros c Hc. simpl in Hc. by apply bool_decide_eq_true in Hc. }
  assert (map normal w = w) as Hnw.
  { clear -Hall. induction Hall as [|c w -> _ IH]; simpl; [done|].
    by rewrite normal_idem, IH. }
  assert (DF.set col w res = res) as Hset.
  { apply set_same; [by eapply get_has|].
    intros p Hp Hc. unfold res, DF.filter_rows in Hp.
    apply list_elem_of_fmap in Hp as [q [-> Hq]]. simpl in *.
    unfold w. f_equal. eapply set_values; [exact Hcol|exact Hq|exact Hc]. }
  assert (map (fun c => bool_decide (c = normal valor)) w
          = replicate (length w) true) as Hmask.
  { apply map_const_true. eapply Forall_impl; [exact Hall|].
    intros c ->. simpl. by apply bool_decide_eq_true. }
  assert (DF.filter_rows (replicate (length w) true) res = res) as Hfil.
  { unfold DF.filter_rows. rewrite <- (map_id res) at 2.
    apply map_ext_in. intros [c x] Hin. simpl. f_equal.
    apply mask_filter_all_true.
    unfold res, DF.filter_rows in Hin. apply in_map_iff in Hin as [q [[= <- <-] Hq]].
    unfold w. rewrite (mask_filter_length_eq mask (map normal v)).
    - apply mask_filter_length_le.
    - unfold mask. by rewrite !length_map. }
  eexists _, _. split; [|split].
  - rewrite (aplicar_filtro_select_activo (h' ++ [res]) (length h) res col
               valor w Hres Hw Hne).
    cbv zeta. rewrite Hnw, Hset, Hmask, Hfil. reflexivity.
  - rewrite list_insert_id by exact Hres.
    rewrite lookup_app_r by lia. rewrite Nat.sub_diag. simpl. by rewrite Hres.
  - rewrite Hres. eauto.
Qed.

(** C5, as the code has it.  When the filter does not apply, the call
    returns its argument and changes nothing.  When it applies, column
    [col] of the caller's frame is overwritten in place with the
    upper-case, stripped text of its values; the other columns of that
    frame, its labels and every other frame of the store stay as they
    were, and the rows selected are returned as a new frame. *)
Theorem filtro_efecto h df d col valor h' r :
  h !! df = Some d ->
  Ingreso.aplicar_filtro_select float_str h df col valor = Some (h', r) ->
  (valor = CStr "Todos" \/ DF.has col d = false -> h' = h /\ r = df)
  /\ (valor <> CStr "Todos" -> DF.has col d = true ->
      exists d' v,
        h' !! df = Some d'
        /\ DF.get col d = Ret v
        /\ DF.get col d' = Ret (map normal v)
        /\ DF.columns d' = DF.columns d
        /\ (forall c, c <> col -> DF.get c d' = DF.get c d)
        /\ (forall l, l <> df -> (l < length h)%nat -> h' !! l = h !! l)
        /\ r = length h
        /\ h' !! r = Some (DF.filter_rows
                             (map (fun c => bool_decide (c = normal valor))
                                  (map normal v)) d')).
Proof.
  intros Hd H. split.
  - intros Hp.
    rewrite (aplicar_filtro_select_sin_efecto h df d col valor Hd Hp) in H.
    injection H as E1 E2. by subst.
  - intros Hne Hcol. destruct (has_get _ _ Hcol) as [v Hv].
    rewrite (aplicar_filtro_select_activo h df d col valor v Hd Hv Hne) in H.
    cbv zeta in H. injection H as E1 E2. subst h' r.
    assert (df < length h)%nat as Hlt by (eapply lookup_lt_Some; eauto).
    exists (DF.set col (map normal v) d), v.
    split; [|split; [|split; [|split; [|split; [|split; [|split]]]]]].
    + rewrite lookup_app_l by (rewrite length_insert; lia).
      by apply list_lookup_insert_eq.
    + done.
    + apply get_set_eq.
    + by apply columns_set.
    + intros c Hc. by apply get_set_ne.
    + intros l Hl Hll. rewrite lookup_app_l by (rewrite length_insert; lia).
      by apply list_lookup_insert_ne.
    + done.
    + rewrite lookup_app_r by (rewrite length_insert; lia).
      rewrite length_insert, Nat.sub_diag. done.
Qed.

End Filtro.

(** ** Sorting and grouping *)

Section SortFacts.

Context {A : Type} (le : A -> A -> bool).

Lemma insert_by_perm x (l : list A) : Sort.insert_by le x l ≡ₚ x :: l.
Proof.
  induction l as [|y l IH]; simpl; [done|].
  destruct (le x y); [done|]. rewrite IH. apply Permutation_swap.
Qed.

Lemma sort_by_perm (l : list A) : Sort.sort_by le l ≡ₚ l.
Proof.
  induction l as [|x l IH]; simpl; [done|].
  rewrite insert_by_perm. by rewrite IH.
Qed.

Lemma sort_by_elem x (l : list A) : x ∈ Sort.sort_by le l <-> x ∈ l.
Proof. by rewrite sort_by_perm. Qed.

Lemma sort_by_length (l : list A) : length (Sort.sort_by le l) = length l.
Proof. by rewrite sort_by_perm. Qed.

(** The order is total on the elements that satisfy [P]. *)
Variable P : A -> Prop.
Hypothesis le_total : forall a b, P a -> P b -> le a b = false -> le b a = true.

Lemma insert_by_sorted x (l : list A) :
  P x -> Forall P l ->
  Sorted (fun a b => le a b = true) l ->
  Sorted (fun a b => le a b = true) (Sort.insert_by le x l).
Proof.
  intros Hx HP Hs. induction l as [|y l IH]; simpl.
  - repeat constructor.
  - destruct (le x y) eqn:E.
    + constructor; [done|]. by constructor.
    + apply Forall_cons in HP as [Hy HP].
      apply Sorted_inv in Hs as [Hs Hhd].
      constructor; [by apply IH|].
      destruct l as [|z l]; simpl.
      * constructor. by apply le_total.
      * destruct (le x z); constructor.
        -- by apply le_total.
        -- by apply HdRel_inv in Hhd.
Qed.

Lemma sort_by_sorted (l : list A) :
  Forall P l -> Sorted (fun a b => le a b = true) (Sort.sort_by le l).
Proof.
  induction 1 as [|x l Hx HP IH]; [constructor|].
  change (Sort.sort_by le (x :: l))
    with (Sort.insert_by le x (Sort.sort_by le l)).
  apply insert_by_sorted; [exact Hx| |exact IH].
  apply Forall_forall. intros y Hy. rewrite sort_by_elem in Hy.
  exact (proj1 (Forall_forall _ _) HP y Hy).
Qed.

End SortFacts.

Section GroupFacts.

Implicit Types (ks v : Series) (k c : cell).

Lemma distinct_elem seen ks k :
  k ∈ DF.distinct seen ks <-> k ∈ ks /\ isna k = false /\ k ∉ seen.
Proof.
  revert seen. induction ks as [|c ks IH]; intros seen; simpl.
  - split; [by intros ?%elem_of_nil|by intros [?%elem_of_nil _]].
  - destruct (isna c) eqn:Ena; simpl; [|case_bool_decide as Hin].
    + rewrite IH. split.
      * intros (H1 & H2 & H3). split; [by right|done].
      * intros (H1 & H2 & H3). apply elem_of_cons in H1 as [->|H1];
          [congruence|done].
    + rewrite IH. split.
      * intros (H1 & H2 & H3). split; [by right|done].
      * intros (H1 & H2 & H3). apply elem_of_cons in H1 as [->|H1];
          [contradiction|done].
    + split.
      * intros [->|H]%elem_of_cons.
        -- split; [left|done].
        -- apply IH in H as (H1 & H2 & H3).
           split; [by right|split; [done|]].
           intros Hs. apply H3. by right.
      * intros (H1 & H2 & H3).
        destruct (decide (k = c)) as [->|Hne]; [left|right].
        apply IH. apply elem_of_cons in H1 as [->|H1]; [done|].
        split; [done|split; [done|]].
        intros [?|?]%elem_of_cons; contradiction.
Qed.

Lemma keys_elem ks k : k ∈ GroupBy.keys ks <-> k ∈ ks /\ isna k = false.
Proof.
  unfold GroupBy.keys. rewrite sort_by_elem, distinct_elem.
  split; [by intros (? & ? & ?)|].
  intros [? ?]. split; [done|split; [done|]]. apply not_elem_of_nil.
Qed.

Lemma nunique_pos ks k :
  k ∈ ks -> isna k = false -> DF.nunique ks <> 0%nat.
Proof.
  intros Hin Hna. unfold DF.nunique.
  assert (k ∈ DF.distinct [] ks) as H.
  { apply distinct_elem. split; [done|split; [done|]]. apply not_elem_of_nil. }
  destruct (DF.distinct [] ks); [by apply elem_of_nil in H|done].
Qed.

Lemma mask_filter_nil {B} (m : list bool) : DF.mask_filter m (@nil B) = [].
Proof. by destruct m. Qed.

(** The rows of a group are untouched by a mask that keeps them. *)
Lemma members_mask_filter {B} (f : cell -> bool) ks (v : list B) k :
  f k = true ->
  GroupBy.members (DF.mask_filter (map f ks) ks)
                  (DF.mask_filter (map f ks) v) k
  = GroupBy.members ks v k.
Proof.
  intros Hk. unfold GroupBy.members. revert v.
  induction ks as [|c ks IH]; intros [|x v]; simpl; try done.
  - by rewrite !mask_filter_nil.
  - destruct (f c) eqn:Ec; simpl.
    + rewrite IH. done.
    + rewrite IH. rewrite bool_decide_eq_false_2; [done|]. congruence.
Qed.

End GroupFacts.

(** ** Ratios *)

Section Ratios.

Implicit Types (e p b t : num).

Lemma div_by_zero e p :
  Num.eq0 p = true ->
  Num.div e p = PInf \/ Num.div e p = NInf \/ Num.div e p = NaN.
Proof.
  destruct p as [q| | |]; simpl; try done. intros Hq.
  destruct e as [a| | |]; simpl; auto.
  - rewrite Hq. destruct (Num.sgn a); simpl; auto.
  - assert (Num.sgn q = Eq) as ->; [|auto].
    unfold Num.sgn. apply Qeq_alt. by apply Qeq_bool_iff.
  - assert (Num.sgn q = Eq) as ->; [|auto].
    unfold Num.sgn. apply Qeq_alt. by apply Qeq_bool_iff.
Qed.

Lemma ratio_grupo_zero e p :
  Num.eq0 p = true -> Ingreso.ratio_grupo e p = Fin 0.
Proof.
  intros H. unfold Ingreso.ratio_grupo.
  destruct (div_by_zero e p H) as [-> | [-> | ->]]; reflexivity.
Qed.

Lemma ratio_total_zero e p :
  Num.eq0 p = true -> Ingreso.ratio_total e p = Fin 0.
Proof. intros H. unfold Ingreso.ratio_total, Num.ne0. by rewrite H. Qed.

Lemma razon_inversion_zero b p :
  Num.eq0 p = true -> Poblacion.razon_inversion b p = Fin 0.
Proof. intros H. unfold Poblacion.razon_inversion, Num.ne0. by rewrite H. Qed.

Lemma razon_participacion_zero b t :
  Num.eq0 t = true -> Poblacion.razon_participacion b t = Fin 0.
Proof.
  intros H. unfold Poblacion.razon_participacion.
  destruct (div_by_zero b t H) as [-> | [-> | ->]]; reflexivity.
Qed.

End Ratios.

(** ** The aggregations of the ingreso page *)

Section Agregaciones.

Import Ingreso.

Implicit Types (df : DataFrame) (ks : Series) (p e : list num) (r : fila).

(** What every group row of [agrupar] holds. *)
Definition fila_de_grupo ks p e r : Prop :=
  clave r ∈ GroupBy.keys ks
  /\ presupuesto r = GroupBy.sum ks p (clave r)
  /\ ejecutado r = GroupBy.sum ks e (clave r)
  /\ diferencia r = Num.sub (ejecutado r) (presupuesto r)
  /\ pct_ejecucion r = ratio_grupo (ejecutado r) (presupuesto r).

Lemma agrupar_filas ks p e : Forall (fila_de_grupo ks p e) (agrupar ks p e).
Proof.
  unfold agrupar. apply Forall_forall. intros r Hr.
  apply list_elem_of_fmap in Hr as [k [-> Hk]]. by repeat split.
Qed.

Lemma agrupar_claves ks p e : map clave (agrupar ks p e) = GroupBy.keys ks.
Proof. unfold agrupar. rewrite map_map. simpl. apply map_id. Qed.

Lemma agrupar_elem ks p e k :
  k ∈ GroupBy.keys ks ->
  exists r, r ∈ agrupar ks p e /\ clave r = k
            /\ presupuesto r = GroupBy.sum ks p k
            /\ ejecutado r = GroupBy.sum ks e k.
Proof.
  intros Hk.
  exists {| clave := k; presupuesto := GroupBy.sum ks p k;
            ejecutado := GroupBy.sum ks e k;
            diferencia := Num.sub (GroupBy.sum ks e k) (GroupBy.sum ks p k);
            pct_ejecucion := ratio_grupo (GroupBy.sum ks e k)
                                         (GroupBy.sum ks p k) |}.
  split; [|by repeat split].
  unfold agrupar. apply list_elem_of_fmap. by exists k.
Qed.

(** The guard lets a column through when some value is neither null nor
    "N/A". *)
Lemma sin_grupos_false ks k :
  k ∈ ks -> isna k = false -> k <> CStr "N/A" -> sin_grupos ks = false.
Proof.
  intros Hin Hna Hne. unfold sin_grupos. apply orb_false_intro.
  - apply Nat.eqb_neq. by eapply nunique_pos.
  - apply not_true_is_false. intros Hall.
    rewrite forallb_forall in Hall. apply list_elem_of_In in Hin.
    specialize (Hall k Hin). unfold cell_is in Hall.
    by apply bool_decide_eq_true in Hall.
Qed.

Lemma create_componente_table_ok df ks p e :
  DF.get "CONCEPTO" df = Ret ks ->
  sin_grupos ks = false ->
  numeric "PRESUPUESTO" df = Ret p ->
  numeric "EJECUTADO" df = Ret e ->
  let groups := agrupar ks p e in
  create_componente_table df
  = Ret (Some (map display (groups ++ [fila_total groups]),
               groups ++ [fila_total groups])).
Proof.
  intros Hk Hg Hp He. unfold create_componente_table.
  rewrite Hk, Hg, Hp. simpl. rewrite He. reflexivity.
Qed.

Lemma create_componente_table_inv df disp exp :
  create_componente_table df = Ret (Some (disp, exp)) ->
  exists ks p e,
    DF.get "CONCEPTO" df = Ret ks
    /\ sin_grupos ks = false
    /\ numeric "PRESUPUESTO" df = Ret p
    /\ numeric "EJECUTADO" df = Ret e
    /\ exp = agrupar ks p e ++ [fila_total (agrupar ks p e)]
    /\ disp = map display exp.
Proof.
  unfold create_componente_table.
  destruct (DF.get "CONCEPTO" df) as [ks|] eqn:Hk; [|done].
  destruct (sin_grupos ks) eqn:Hg; [done|].
  destruct (numeric "PRESUPUESTO" df) as [p|] eqn:Hp; [|done]. simpl.
  destruct (numeric "EJECUTADO" df) as [e|] eqn:He; [|done]. simpl.
  intros [= <- <-]. by exists ks, p, e.
Qed.

(** C1. For a dataset that [create_componente_table] accepts, the table
    ends with the TOTAL row: its PRESUPUESTO and EJECUTADO are the sums of
    the group sums, its DIFERENCIA is total EJECUTADO minus total
    PRESUPUESTO, and its ratio is total EJECUTADO over total PRESUPUESTO
    times 100, or 0 when total PRESUPUESTO is 0: recomputed from the
    totals, not taken from the group ratios. *)
Theorem fila_total_recalculada df ks p e :
  DF.get "CONCEPTO" df = Ret ks ->
  sin_grupos ks = false ->
  numeric "PRESUPUESTO" df = Ret p ->
  numeric "EJECUTADO" df = Ret e ->
  exists disp groups total,
    create_componente_table df = Ret (Some (disp, groups ++ [total]))
    /\ groups = agrupar ks p e
    /\ clave total = CStr "TOTAL"
    /\ presupuesto total = Num.sum (map presupuesto groups)
    /\ ejecutado total = Num.sum (map ejecutado groups)
    /\ diferencia total = Num.sub (ejecutado total) (presupuesto total)
    /\ pct_ejecucion total
       = (if Num.eq0 (presupuesto total) then Fin 0
          else Num.mul (Num.div (ejecutado total) (presupuesto total))
                       (Fin 100)).
Proof.
  intros Hk Hg Hp He.
  eexists _, (agrupar ks p e), (fila_total (agrupar ks p e)).
  split; [by apply create_componente_table_ok|].
  repeat split. simpl. unfold ratio_total, Num.ne0.
  by destruct (Num.eq0 _).
Qed.

Section WithFloatStr.

Variable float_str : Q -> string.

Lemma create_kpi_table_inv df group_col disp exp :
  create_kpi_table float_str df group_col = Ret (Some (disp, exp)) ->
  exists ks0 p e,
    let keep := map (fun c => negb (cell_is "N/A" c)) ks0 in
    DF.get group_col df = Ret ks0
    /\ sin_grupos ks0 = false
    /\ numeric "TOTAL_PRESUPUESTO" (DF.filter_rows keep df) = Ret p
    /\ numeric "TOTAL_EJECUTADO" (DF.filter_rows keep df) = Ret e
    /\ exp = agrupar (DF.mask_filter keep ks0) p e
    /\ exp <> []
    /\ disp = map display
                (if String.eqb group_col "MES" && DF.has "FECHA" df
                 then ordenar_por_mes float_str exp else exp).
Proof.
  unfold create_kpi_table.
  destruct (DF.get group_col df) as [ks0|] eqn:Hk; [|done].
  destruct (sin_grupos ks0) eqn:Hg; [done|].
  rewrite get_filter_rows, Hk. simpl.
  destruct (numeric "TOTAL_PRESUPUESTO" _) as [p|] eqn:Hp; [|done]. simpl.
  destruct (numeric "TOTAL_EJECUTADO" _) as [e|] eqn:He; [|done]. simpl.
  destruct (agrupar _ p e) as [|r rows] eqn:Hrows; [done|]. simpl.
  intros [= <- <-]. exists ks0, p, e. cbv zeta.
  rewrite Hp, He, Hrows. by repeat split.
Qed.

End WithFloatStr.

End Agregaciones.

(** ** Zero denominators *)

Section CeroSeguro.

Import Ingreso Poblacion.

(** The ratio of an ingreso row is 0 when its PRESUPUESTO is 0. *)
Definition fila_segura (r : fila) : Prop :=
  Num.eq0 (presupuesto r) = true -> pct_ejecucion r = Fin 0.

(** Both ratios of a poblacion row are 0 when their denominator is 0. *)
Definition resumen_seguro (r : resumen) : Prop :=
  (Num.eq0 (PRESUPUESTO r) = true -> ejecucion r = Fin 0)
  /\ (Num.eq0 (POBLACION_PAIS r) = true -> participacion_pais r = Fin 0).

Lemma agrupar_seguro ks p e : Forall fila_segura (agrupar ks p e).
Proof.
  eapply Forall_impl; [apply agrupar_filas|].
  intros r (_ & _ & _ & _ & Hr) Hz. rewrite Hr. by apply ratio_grupo_zero.
Qed.

Lemma fila_total_segura groups : fila_segura (fila_total groups).
Proof. intros Hz. simpl in *. by apply ratio_total_zero. Qed.

Lemma resumir_seguro key df rows :
  resumir key df = Ret rows -> Forall resumen_seguro rows.
Proof.
  unfold resumir. destruct (DF.get key df) as [ks|]; [|by intros [= <-]].
  destruct (numeric "PRESUPUESTO" df) as [p|]; [|done]. simpl.
  destruct (numeric "POBLACION_BDUA" df) as [b|]; [|done]. simpl.
  destruct (numeric "POBLACION PAIS" df) as [t|]; [|done]. simpl.
  intros [= <-]. apply Forall_forall. intros r Hr.
  apply list_elem_of_fmap in Hr as [k [-> _]]. split; simpl; intros Hz.
  - by apply razon_inversion_zero.
  - by apply razon_participacion_zero.
Qed.

Lemma sort_by_Forall {A} (le : A -> A -> bool) (Q : A -> Prop) l :
  Forall Q l -> Forall Q (Sort.sort_by le l).
Proof.
  rewrite !Forall_forall. intros H x Hx. apply H. by rewrite sort_by_elem in Hx.
Qed.

Lemma ordenado_seguro key le df rows :
  (rows0 ← resumir key df; Ret (Sort.sort_by le rows0)) = Ret rows ->
  Forall resumen_seguro rows.
Proof.
  destruct (resumir key df) as [rows0|] eqn:E; [|done]. simpl.
  intros [= <-]. apply sort_by_Forall. by eapply resumir_seguro.
Qed.

(** C2. In every aggregation that derives a ratio, a row whose denominator
    sum is 0 has the ratio exactly 0, whatever the numerator: the group
    rows and the TOTAL row of [create_componente_table], the group rows of
    [create_kpi_table], and both ratios of the summaries by regional, by
    month and by regimen of the poblacion page. *)
Theorem razon_cero_con_denominador_cero :
  (forall df disp exp,
      create_componente_table df = Ret (Some (disp, exp)) ->
      Forall fila_segura exp)
  /\ (forall float_str df group_col disp exp,
      create_kpi_table float_str df group_col = Ret (Some (disp, exp)) ->
      Forall fila_segura exp)
  /\ (forall df rows,
      df_regional_viz df = Ret rows \/ df_mes_viz df = Ret rows
      \/ df_regimen_table_viz df = Ret rows ->
      Forall resumen_seguro rows).
Proof.
  split; [|split].
  - intros df disp exp H.
    apply create_componente_table_inv in H
      as (ks & p & e & _ & _ & _ & _ & -> & _).
    apply Forall_app. split; [apply agrupar_seguro|].
    constructor; [apply fila_total_segura|constructor].
  - intros float_str df group_col disp exp H.
    apply create_kpi_table_inv in H as (ks & p & e & H). cbv zeta in H.
    destruct H as (_ & _ & _ & _ & -> & _). apply agrupar_seguro.
  - intros df rows [H|[H|H]]; eapply ordenado_seguro; exact H.
Qed.

End CeroSeguro.

(** ** Rows keyed "N/A" *)

Section FilasNA.

Import Ingreso.

Lemma to_nums_mask_filter m v p :
  to_nums v = Ret p -> to_nums (DF.mask_filter m v) = Ret (DF.mask_filter m p).
Proof.
  revert m p. induction v as [|c v IH]; intros m p; simpl.
  - intros [= <-]. by rewrite !mask_filter_nil.
  - destruct (num_of_cell c) as [x|] eqn:Ec; [|done]. simpl.
    destruct (to_nums v) as [xs|] eqn:Ev; [|done]. simpl.
    intros [= <-]. destruct m as [|b m]; [done|]. simpl.
    destruct b; simpl; [rewrite Ec; simpl|]; by rewrite (IH m xs).
Qed.

Lemma numeric_filter_rows m c df p :
  numeric c df = Ret p ->
  numeric c (DF.filter_rows m df) = Ret (DF.mask_filter m p).
Proof.
  unfold numeric. rewrite get_filter_rows.
  destruct (DF.get c df) as [v|]; [|done]. simpl. apply to_nums_mask_filter.
Qed.

Lemma mask_filter_elem (f : cell -> bool) (ks : Series) k :
  k ∈ ks -> f k = true -> k ∈ DF.mask_filter (map f ks) ks.
Proof.
  intros Hin Hk. induction ks as [|c ks IH]; [by apply elem_of_nil in Hin|].
  simpl. apply elem_of_cons in Hin as [<-|Hin].
  - rewrite Hk. left.
  - destruct (f c); [right|]; auto.
Qed.

Lemma mask_filter_sub (f : cell -> bool) (ks : Series) k :
  k ∈ DF.mask_filter (map f ks) ks -> k ∈ ks /\ f k = true.
Proof.
  induction ks as [|c ks IH]; simpl; [by intros ?%elem_of_nil|].
  destruct (f c) eqn:Ec.
  - intros [->|H]%elem_of_cons; [split; [left|done]|].
    destruct (IH H). split; [by right|done].
  - intros H. destruct (IH H). split; [by right|done].
Qed.

Definition no_es_na (c : cell) : bool := negb (cell_is "N/A" c).

Lemma no_es_na_true c : no_es_na c = true <-> c <> CStr "N/A".
Proof.
  unfold no_es_na, cell_is. rewrite negb_true_iff, bool_decide_eq_false. done.
Qed.

Variable float_str : Q -> string.

Lemma ordenar_por_mes_sub (rows : list fila) r :
  r ∈ ordenar_por_mes float_str rows -> r ∈ rows.
Proof.
  unfold ordenar_por_mes. rewrite sort_by_elem.
  intros H. apply list_elem_of_In, filter_In in H as [H _].
  by apply list_elem_of_In.
Qed.

(** What [create_kpi_table] returns for a column with a usable label. *)
Lemma create_kpi_table_ok df group_col ks p e k :
  DF.get group_col df = Ret ks ->
  numeric "TOTAL_PRESUPUESTO" df = Ret p ->
  numeric "TOTAL_EJECUTADO" df = Ret e ->
  k ∈ ks -> isna k = false -> k <> CStr "N/A" ->
  let keep := map no_es_na ks in
  let exp := agrupar (DF.mask_filter keep ks) (DF.mask_filter keep p)
                     (DF.mask_filter keep e) in
  create_kpi_table float_str df group_col
  = Ret (Some (map display
                 (if String.eqb group_col "MES" && DF.has "FECHA" df
                  then ordenar_por_mes float_str exp else exp), exp)).
Proof.
  intros Hk Hp He Hin Hna Hne keep exp. unfold create_kpi_table.
  rewrite Hk, (sin_grupos_false ks k Hin Hna Hne).
  rewrite get_filter_rows, Hk. simpl.
  fold no_es_na. fold keep.
  rewrite (numeric_filter_rows keep _ _ _ Hp). simpl.
  rewrite (numeric_filter_rows keep _ _ _ He). simpl.
  fold exp.
  destruct exp as [|r rows] eqn:Hexp; [|done].
  exfalso.
  assert (k ∈ GroupBy.keys (DF.mask_filter keep ks)) as Hkey.
  { apply keys_elem. split; [|done].
    apply mask_filter_elem; [done|]. by apply no_es_na_true. }
  destruct (agrupar_elem (DF.mask_filter keep ks) (DF.mask_filter keep p)
              (DF.mask_filter keep e) k Hkey) as (r & Hr & _).
  fold exp in Hr. rewrite Hexp in Hr. by apply elem_of_nil in Hr.
Qed.

Lemma sin_grupos_false_na ks k :
  CStr "N/A" ∈ ks -> k ∈ ks -> k <> CStr "N/A" -> sin_grupos ks = false.
Proof.
  intros Hna Hin Hne. unfold sin_grupos. apply orb_false_intro.
  - apply Nat.eqb_neq. by apply (nunique_pos ks (CStr "N/A")).
  - apply not_true_is_false. intros Hall.
    rewrite forallb_forall in Hall. apply list_elem_of_In in Hin.
    specialize (Hall k Hin). unfold cell_is in Hall.
    by apply bool_decide_eq_true in Hall.
Qed.

(** The tables of [create_kpi_table] read on the whole frame. *)
Lemma create_kpi_table_filas df group_col ks p e disp exp :
  DF.get group_col df = Ret ks ->
  numeric "TOTAL_PRESUPUESTO" df = Ret p ->
  numeric "TOTAL_EJECUTADO" df = Ret e ->
  create_kpi_table float_str df group_col = Ret (Some (disp, exp)) ->
  (forall r, r ∈ exp ->
     clave r ∈ ks /\ clave r <> CStr "N/A"
     /\ presupuesto r = Num.sum (GroupBy.members ks p (clave r))
     /\ ejecutado r = Num.sum (GroupBy.members ks e (clave r)))
  /\ (forall d, d ∈ disp -> exists r, r ∈ exp /\ d = display r).
Proof.
  intros Hk Hp He H.
  apply create_kpi_table_inv in H as (ks0 & p' & e' & H). cbv zeta in H.
  destruct H as (Hk0 & _ & Hp' & He' & Hexp & _ & Hdisp).
  rewrite Hk in Hk0. injection Hk0 as <-. fold no_es_na in Hp', He', Hexp.
  rewrite (numeric_filter_rows _ _ _ _ Hp) in Hp'. injection Hp' as <-.
  rewrite (numeric_filter_rows _ _ _ _ He) in He'. injection He' as <-.
  split.
  - intros r Hr. rewrite Hexp in Hr.
    pose proof (proj1 (Forall_forall _ _) (agrupar_filas _ _ _) r Hr)
      as (Hc & Hp' & He' & _).
    apply keys_elem in Hc as [Hc _]. apply mask_filter_sub in Hc as [Hc Hna].
    split; [done|]. split; [by apply no_es_na_true|].
    rewrite Hp', He'. unfold GroupBy.sum. by rewrite !members_mask_filter.
  - intros d Hd. rewrite Hdisp in Hd.
    apply list_elem_of_fmap in Hd as [r [-> Hr]]. exists r. split; [|done].
    destruct (_ && _); [by apply ordenar_por_mes_sub in Hr|done].
Qed.

(** C10. When some but not all labels of the grouping column are "N/A",
    [create_kpi_table] leaves the "N/A" rows out: no row of its two tables
    is keyed "N/A", and the sums of every row are taken over the rows of
    its own label; the tables exist as soon as one row has a label of its
    own.  [create_componente_table] keeps them: a group row keyed "N/A"
    holds the sums of those rows, and the TOTAL row sums every group row,
    that one too. *)
Theorem filas_na_en_las_dos_tablas :
  (forall df group_col ks p e,
      DF.get group_col df = Ret ks ->
      numeric "TOTAL_PRESUPUESTO" df = Ret p ->
      numeric "TOTAL_EJECUTADO" df = Ret e ->
      CStr "N/A" ∈ ks ->
      (forall disp exp,
          create_kpi_table float_str df group_col = Ret (Some (disp, exp)) ->
          (CStr "N/A" ∉ map clave exp)
          /\ (CStr "N/A" ∉ map d_clave disp)
          /\ Forall (fun r =>
                       presupuesto r
                       = Num.sum (GroupBy.members ks p (clave r))
                       /\ ejecutado r
                          = Num.sum (GroupBy.members ks e (clave r)))
                    exp)
      /\ (forall k,
            k ∈ ks -> isna k = false -> k <> CStr "N/A" ->
            exists disp exp,
              create_kpi_table float_str df group_col
              = Ret (Some (disp, exp))))
  /\ (forall df ks p e k,
      DF.get "CONCEPTO" df = Ret ks ->
      numeric "PRESUPUESTO" df = Ret p ->
      numeric "EJECUTADO" df = Ret e ->
      CStr "N/A" ∈ ks ->
      k ∈ ks -> k <> CStr "N/A" ->
      exists disp g1 r g2,
        let groups := g1 ++ r :: g2 in
        create_componente_table df
        = Ret (Some (disp, groups ++ [fila_total groups]))
        /\ clave r = CStr "N/A"
        /\ presupuesto r = Num.sum (GroupBy.members ks p (CStr "N/A"))
        /\ ejecutado r = Num.sum (GroupBy.members ks e (CStr "N/A"))
        /\ presupuesto (fila_total groups) = Num.sum (map presupuesto groups)
        /\ ejecutado (fila_total groups) = Num.sum (map ejecutado groups)).
Proof.
  split.
  - intros df group_col ks p e Hk Hp He _. split.
    + intros disp exp H.
      destruct (create_kpi_table_filas _ _ _ _ _ _ _ Hk Hp He H) as [Hexp Hd].
      split; [|split].
      * intros Hin. apply list_elem_of_fmap in Hin as [r [Hr Hr']].
        destruct (Hexp r Hr') as (_ & Hc & _). congruence.
      * intros Hin. apply list_elem_of_fmap in Hin as [d [Hd1 Hd2]].
        destruct (Hd d Hd2) as (r & Hr & ->). simpl in Hd1.
        destruct (Hexp r Hr) as (_ & Hc & _). congruence.
      * apply Forall_forall. intros r Hr.
        by destruct (Hexp r Hr) as (_ & _ & ? & ?).
    + intros k Hin Hna Hne. eexists _, _. by eapply create_kpi_table_ok.
  - intros df ks p e k Hk Hp He Hna_in Hin Hne.
    assert (CStr "N/A" ∈ GroupBy.keys ks) as Hkey by (by apply keys_elem).
    destruct (agrupar_elem ks p e _ Hkey) as (r & Hr & Hc & Hrp & Hre).
    apply list_elem_of_split in Hr as (g1 & g2 & Hsplit).
    exists (map display (agrupar ks p e ++ [fila_total (agrupar ks p e)])),
      g1, r, g2.
    cbv zeta. rewrite <- Hsplit. split; [|by repeat split].
    apply create_componente_table_ok; try done.
    by eapply sin_grupos_false_na.
Qed.

End FilasNA.

(** ** Month order *)

Section OrdenDeMeses.

Import Ingreso.

Lemma Qle_bool_total a b : Qle_bool a b = false -> Qle_bool b a = true.
Proof.
  intros H. apply Qle_bool_iff. apply Qlt_le_weak, Qnot_le_lt.
  intros Hle. apply Qle_bool_iff in Hle. congruence.
Qed.

Lemma num_leb_total x y :
  Num.isnan x = false -> Num.isnan y = false ->
  Num.leb x y = false -> Num.leb y x = true.
Proof.
  destruct x, y; simpl; try done. intros _ _. apply Qle_bool_total.
Qed.

(** The order of the group labels is total on the labels that are not
    null. *)
Lemma key_leb_total a b :
  isna a = false -> isna b = false ->
  GroupBy.key_leb a b = false -> GroupBy.key_leb b a = true.
Proof.
  destruct a as [s|x|[qx| | |]|], b as [t|y|[qy| | |]|]; simpl; try done;
    intros _ _ H; try by apply Qle_bool_total.
  - destruct (String.leb_total s t) as [E|E]; congruence.
  - apply Z.leb_le. apply Z.leb_gt in H. lia.
Qed.

Lemma keys_sorted (ks : Series) :
  Sorted (fun a b => GroupBy.key_leb a b = true) (GroupBy.keys ks).
Proof.
  unfold GroupBy.keys.
  apply (sort_by_sorted GroupBy.key_leb (fun c => isna c = false)).
  - intros a b. apply key_leb_total.
  - apply Forall_forall. intros c Hc. by apply distinct_elem in Hc as (_ & ? & _).
Qed.

Variable float_str : Q -> string.

Definition mes_reconocido (r : fila) : Prop := is_Some (mes_order float_str r).

Lemma mes_order_leb_total a b :
  mes_order_leb float_str a b = false -> mes_order_leb float_str b a = true.
Proof.
  unfold mes_order_leb.
  destruct (mes_order float_str a), (mes_order float_str b); try done.
  intros H. apply Nat.leb_le. apply Nat.leb_gt in H. lia.
Qed.

Lemma ordenar_por_mes_spec (rows : list fila) :
  let out := ordenar_por_mes float_str rows in
  out ≡ₚ List.filter (fun r => bool_decide (mes_reconocido r)) rows
  /\ Forall mes_reconocido out
  /\ Sorted (fun a b => mes_order_leb float_str a b = true) out.
Proof.
  cbv zeta. unfold ordenar_por_mes. split; [|split].
  - apply sort_by_perm.
  - apply sort_by_Forall. apply Forall_forall. intros r Hr.
    apply list_elem_of_In, filter_In in Hr as [_ Hr].
    by apply bool_decide_eq_true in Hr.
  - apply (sort_by_sorted _ (fun _ => True)); [|by apply Forall_forall].
    intros a b _ _. apply mes_order_leb_total.
Qed.

Lemma df_mes_viz_spec df rows :
  Poblacion.df_mes_viz df = Ret rows ->
  exists rows0,
    Poblacion.resumir "MES" df = Ret rows0
    /\ rows ≡ₚ rows0
    /\ Sorted (fun a b => Poblacion.mes_orden_leb a b = true) rows.
Proof.
  unfold Poblacion.df_mes_viz.
  destruct (Poblacion.resumir "MES" df) as [rows0|]; [|done]. simpl.
  intros [= <-]. exists rows0. split; [done|split; [apply sort_by_perm|]].
  apply (sort_by_sorted _ (fun _ => True)); [|by apply Forall_forall].
  intros a b _ _. unfold Poblacion.mes_orden_leb.
  destruct (Poblacion.mes_orden a), (Poblacion.mes_orden b); try done.
  intros H. apply Nat.leb_le. apply Nat.leb_gt in H. lia.
Qed.

(** C4, as the code has it.  For the month table of [create_kpi_table]
    (grouping column MES, dataset with a FECHA column): the display table
    holds the export rows whose month is in the lookup, those only, in
    ascending order of the lookup; the export table keeps every group row
    in the ascending order of its label, the order of [groupby].  The month
    summary of the poblacion page keeps every group row, in ascending
    order of its own lookup with the months outside it last. *)
Theorem tabla_por_mes :
  (forall df disp exp,
      create_kpi_table float_str df "MES" = Ret (Some (disp, exp)) ->
      DF.has "FECHA" df = true ->
      exists rows,
        disp = map display rows
        /\ rows ≡ₚ List.filter (fun r => bool_decide (mes_reconocido r)) exp
        /\ Forall mes_reconocido rows
        /\ Sorted (fun a b => mes_order_leb float_str a b = true) rows
        /\ Sorted (fun a b => GroupBy.key_leb a b = true) (map clave exp))
  /\ (forall df rows,
      Poblacion.df_mes_viz df = Ret rows ->
      exists rows0,
        Poblacion.resumir "MES" df = Ret rows0
        /\ rows ≡ₚ rows0
        /\ Sorted (fun a b => Poblacion.mes_orden_leb a b = true) rows).
Proof.
  split; [|apply df_mes_viz_spec].
  intros df disp exp H Hf.
  apply create_kpi_table_inv in H as (ks & p & e & H).
  cbv zeta in H. destruct H as (_ & _ & _ & _ & Hexp & _ & Hdisp).
  rewrite Hf in Hdisp. simpl in Hdisp.
  exists (ordenar_por_mes float_str exp).
  destruct (ordenar_por_mes_spec exp) as (H1 & H2 & H3).
  repeat split; try done.
  rewrite Hexp, agrupar_claves. apply keys_sorted.
Qed.

End OrdenDeMeses.

(** ** Joins *)

Section JoinFacts.

Import Join.

Implicit Types (lk rk ks v u : Series) (k : cell) (df : DataFrame)
  (c : string).

Lemma matches_from_nil j k rk : k ∉ rk -> matches_from j k rk = [].
Proof.
  revert j. induction rk as [|x rk IH]; intros j Hk; simpl; [done|].
  apply not_elem_of_cons in Hk as [Hne Hk].
  rewrite bool_decide_eq_false_2 by congruence. by apply IH.
Qed.

Lemma matches_from_nodup j k rk :
  NoDup rk -> (length (matches_from j k rk) <= 1)%nat.
Proof.
  intros Hnd. revert j. induction Hnd as [|x rk Hx Hnd IH]; intros j; simpl.
  - lia.
  - case_bool_decide as E; [|apply IH].
    subst x. rewrite matches_from_nil by done. simpl. lia.
Qed.

Lemma first_seen_sub seen ks k :
  k ∈ DF.mask_filter (first_seen seen ks) ks -> k ∈ ks /\ k ∉ seen.
Proof.
  revert seen. induction ks as [|x ks IH]; intros seen; simpl.
  - by intros ?%elem_of_nil.
  - case_bool_decide as E; simpl.
    + intros H. destruct (IH _ H) as [H1 H2].
      split; [by right|]. intros Hs. apply H2. by right.
    + intros [->|H]%elem_of_cons; [split; [left|done]|].
      destruct (IH _ H) as [H1 H2].
      split; [by right|]. intros Hs. apply H2. by right.
Qed.

Lemma first_seen_nodup seen ks :
  NoDup (DF.mask_filter (first_seen seen ks) ks).
Proof.
  revert seen. induction ks as [|x ks IH]; intros seen; simpl.
  - constructor.
  - case_bool_decide as E; simpl; [apply IH|].
    constructor; [|apply IH].
    intros H. apply first_seen_sub in H as [_ H]. apply H. left.
Qed.

(** The partner of a left key when the right keys are distinct. *)
Definition partner rk k : option nat := head (matches_from 0 k rk).

Lemma plan_left_cons rk i k lk :
  NoDup rk ->
  plan_from Left i (k :: lk) rk
  = (i, partner rk k) :: plan_from Left (S i) lk rk.
Proof.
  intros Hnd. simpl. unfold partner.
  pose proof (matches_from_nodup 0 k rk Hnd) as Hlen.
  destruct (matches_from 0 k rk) as [|j [|j' l]]; simpl in *; [done|done|lia].
Qed.

Lemma plan_left_lookup rk lk i n :
  NoDup rk ->
  plan_from Left i lk rk !! n
  = (fun k => ((i + n)%nat, partner rk k)) <$> lk !! n.
Proof.
  intros Hnd. revert i n. induction lk as [|k lk IH]; intros i n; [done|].
  rewrite plan_left_cons by done. destruct n as [|n]; simpl.
  - by rewrite Nat.add_0_r.
  - rewrite IH. by rewrite Nat.add_succ_r.
Qed.

Lemma gather_left_id rk lk v :
  NoDup rk -> length v = length lk ->
  gather_left (plan_from Left 0 lk rk) v = v.
Proof.
  intros Hnd Hlen. apply list_eq. intros n. unfold gather_left.
  rewrite list_lookup_fmap, plan_left_lookup by done. simpl.
  destruct (lk !! n) as [k|] eqn:Ek; simpl.
  - destruct (lookup_lt_is_Some_2 v n) as [x Hx].
    { rewrite Hlen. eapply lookup_lt_Some, Ek. }
    by rewrite Hx.
  - symmetry. apply lookup_ge_None. rewrite Hlen. by apply lookup_ge_None.
Qed.

Lemma gather_right_unmatched rk lk u i k :
  NoDup rk -> lk !! i = Some k -> k ∉ rk ->
  gather_right (plan_from Left 0 lk rk) u !! i = Some (CFloat NaN).
Proof.
  intros Hnd Hk Hnot. unfold gather_right.
  rewrite list_lookup_fmap, plan_left_lookup, Hk by done. simpl.
  unfold partner. by rewrite matches_from_nil.
Qed.

(** Selection and removal of columns *)

Lemma select_get cs df sel c :
  DF.select cs df = Ret sel -> c ∈ cs -> DF.get c sel = DF.get c df.
Proof.
  revert sel. induction cs as [|c0 cs IH]; intros sel; simpl.
  - by intros _ ?%elem_of_nil.
  - destruct (DF.get c0 df) as [v0|] eqn:E0; [|done]. simpl.
    destruct (DF.select cs df) as [rest|]; [|done]. simpl.
    intros [= <-] Hin. rewrite get_cons. simpl.
    destruct (String.eqb_spec c0 c) as [->|Hne]; [done|].
    apply elem_of_cons in Hin as [?|Hin]; [congruence|]. by apply IH.
Qed.

Lemma select_columns cs df sel :
  DF.select cs df = Ret sel -> DF.columns sel = cs.
Proof.
  revert sel. induction cs as [|c0 cs IH]; intros sel; simpl.
  - by intros [= <-].
  - destruct (DF.get c0 df) as [v0|]; [|done]. simpl.
    destruct (DF.select cs df) as [rest|]; [|done]. simpl.
    intros [= <-]. unfold DF.columns in *. simpl. by rewrite (IH rest).
Qed.

Lemma select_ok cs df :
  Forall (fun c => DF.has c df = true) cs ->
  exists sel, DF.select cs df = Ret sel.
Proof.
  induction 1 as [|c0 cs Hc _ [rest IH]]; simpl; [by eexists|].
  destruct (has_get _ _ Hc) as [v ->]. simpl. rewrite IH. simpl. by eexists.
Qed.

Lemma columns_drop cs df :
  DF.columns (DF.drop cs df)
  = List.filter (fun c => negb (bool_decide (c ∈ cs))) (DF.columns df).
Proof.
  unfold DF.drop, DF.columns. induction df as [|p df IH]; simpl; [done|].
  destruct (negb _); simpl; by rewrite IH.
Qed.

Lemma has_drop c cs df :
  DF.has c (DF.drop cs df) = DF.has c df && negb (bool_decide (c ∈ cs)).
Proof.
  apply eq_true_iff_eq. rewrite andb_true_iff, !has_true, columns_drop.
  rewrite (list_elem_of_In (List.filter _ _) c), filter_In.
  by rewrite <- list_elem_of_In.
Qed.

Lemma get_drop c cs df : c ∉ cs -> DF.get c (DF.drop cs df) = DF.get c df.
Proof.
  intros Hc. unfold DF.drop. induction df as [|p df IH]; simpl; [done|].
  case_bool_decide as E; simpl.
  - rewrite get_cons. destruct (String.eqb_spec (fst p) c); [congruence|done].
  - rewrite !get_cons. by rewrite IH.
Qed.

Lemma get_filter_ne key c df :
  c <> key ->
  DF.get c (List.filter (fun p => negb (String.eqb (fst p) key)) df)
  = DF.get c df.
Proof.
  intros Hc. induction df as [|p df IH]; simpl; [done|].
  destruct (String.eqb_spec (fst p) key) as [E|E]; simpl.
  - rewrite get_cons. destruct (String.eqb_spec (fst p) c); [congruence|done].
  - rewrite !get_cons. by rewrite IH.
Qed.

(** A left join whose two sides share no label but the key. *)
Lemma merge_left_disjoint key (left right : DataFrame) lk rk :
  DF.get key left = Ret lk ->
  DF.get key right = Ret rk ->
  (forall c, c ∈ DF.columns left -> c ∈ DF.columns right -> c = key) ->
  let plan := plan_from Left 0 lk rk in
  merge Left key left right
  = Ret (map (fun p => (fst p, gather_left plan (snd p))) left
         ++ map (fun p => (fst p, gather_right plan (snd p)))
                (List.filter (fun p => negb (String.eqb (fst p) key)) right)).
Proof.
  intros Hl Hr Hdis plan. unfold merge. rewrite Hl. simpl. rewrite Hr. simpl.
  fold plan. f_equal. f_equal.
  - apply map_ext_in. intros [c v] Hin. simpl. f_equal.
    destruct (String.eqb_spec c key) as [E|E]; [done|]. simpl.
    destruct (DF.has c left) eqn:Hcl; [|done].
    destruct (DF.has c right) eqn:Hcr; [|done].
    apply has_true in Hcl, Hcr. destruct E. by apply Hdis.
  - apply map_ext_in. intros [c v] Hin. simpl. f_equal.
    destruct (String.eqb_spec c key) as [E|E]; [done|]. simpl.
    destruct (DF.has c left) eqn:Hcl; [|done].
    destruct (DF.has c right) eqn:Hcr; [|done].
    apply has_true in Hcl, Hcr. destruct E. by apply Hdis.
Qed.

End JoinFacts.

(** ** The territorial join of the ingreso page *)

Section UnionTerritorial.

Import Ingreso.

Variable float_str : Q -> string.

Implicit Types (df : DataFrame) (c : string) (v : Series).

Lemma fromkeys_sub seen l c : c ∈ fromkeys seen l -> c ∈ l.
Proof.
  revert seen. induction l as [|x l IH]; intros seen; simpl; [done|].
  case_bool_decide as E.
  - intros H. right. by eapply IH.
  - intros [->|H]%elem_of_cons; [left|right; by eapply IH].
Qed.

Lemma geo_cols_present_elem df c :
  c ∈ geo_cols_present df -> c ∈ DF.columns df /\ es_geo c = true.
Proof.
  intros H. apply fromkeys_sub in H.
  apply list_elem_of_In, filter_In in H as [H1 H2].
  by rewrite list_elem_of_In.
Qed.

Lemma es_geo_DANE_STR : es_geo "DANE_STR" = false.
Proof. vm_compute. reflexivity. Qed.

Lemma geo_cols_not_key df : "DANE_STR" ∉ geo_cols_present df.
Proof.
  intros H. apply geo_cols_present_elem in H as [_ H].
  rewrite es_geo_DANE_STR in H. done.
Qed.

Lemma geo_cols_present_set v df :
  geo_cols_present (DF.set "DANE_STR" v df) = geo_cols_present df.
Proof.
  unfold geo_cols_present. destruct (DF.has "DANE_STR" df) eqn:H.
  - by rewrite columns_set.
  - unfold DF.set. rewrite H. unfold DF.columns.
    rewrite map_app, List.filter_app.
    change (List.filter es_geo (map fst [("DANE_STR", v)]))
      with (if es_geo "DANE_STR" then ["DANE_STR"] else []).
    rewrite es_geo_DANE_STR. by rewrite app_nil_r.
Qed.

Lemma has_set_mono c c' v df :
  DF.has c df = true -> DF.has c (DF.set c' v df) = true.
Proof.
  intros H. destruct (String.eqb_spec c c') as [->|Hne].
  - eapply get_has, get_set_eq.
  - destruct (has_get _ _ H) as [w Hw]. eapply get_has.
    rewrite get_set_ne by done. exact Hw.
Qed.

Lemma dane_col_geo_some df :
  DF.empty df = false ->
  exists col, dane_col_geo df = Some col /\ DF.has col df = true.
Proof.
  intros Hne. unfold dane_col_geo.
  destruct (List.find _ (DF.columns df)) as [c|] eqn:E.
  - exists c. split; [done|]. apply find_some in E as [E _].
    apply has_true. by apply list_elem_of_In.
  - destruct df as [|[c0 v0] df]; [done|].
    assert (DF.has "DANE" ((c0, v0) :: df) = false) as ->.
    { apply has_false. intros Hin. apply list_elem_of_In in Hin.
      by apply (find_none _ _ E) in Hin. }
    simpl. exists c0. split; [done|]. apply has_true. left.
Qed.

Lemma fillna_idem (x : cell) v :
  isna x = false -> DF.fillna x (DF.fillna x v) = DF.fillna x v.
Proof.
  intros Hx. unfold DF.fillna. rewrite map_map. apply map_ext.
  intros c. destruct (isna c) eqn:E; [by rewrite Hx|by rewrite E].
Qed.

Lemma fillna_lookup (x : cell) v i y :
  v !! i = Some y -> isna y = true -> DF.fillna x v !! i = Some x.
Proof.
  intros Hy Hna. unfold DF.fillna. rewrite list_lookup_fmap, Hy. simpl.
  by rewrite Hna.
Qed.

Lemma get_fill_na df c c' v :
  DF.get c df = Ret v ->
  DF.get c (fill_na df c')
  = Ret (if String.eqb c c' then DF.fillna (CStr "N/A") v else v).
Proof.
  intros Hv. unfold fill_na.
  destruct (String.eqb_spec c c') as [<-|Hne].
  - rewrite (get_has _ _ _ Hv), Hv. apply get_set_eq.
  - destruct (DF.has c' df); [|done].
    destruct (DF.get c' df); [|done]. by rewrite get_set_ne.
Qed.

Lemma get_foldl_fill_na cols df c v :
  DF.get c df = Ret v ->
  DF.get c (foldl fill_na df cols)
  = Ret (if bool_decide (c ∈ cols) then DF.fillna (CStr "N/A") v else v).
Proof.
  revert df v. induction cols as [|c' cols IH]; intros df v Hv; simpl.
  - done.
  - rewrite (IH _ _ (get_fill_na df c c' v Hv)).
    destruct (String.eqb_spec c c') as [<-|Hne].
    + rewrite (bool_decide_eq_true_2 (c ∈ c :: cols)) by left.
      rewrite fillna_idem by done. by destruct (bool_decide _).
    + rewrite (bool_decide_ext (c ∈ c' :: cols) (c ∈ cols)); [done|].
      rewrite elem_of_cons. split; [|by right]. intros [?|?]; [done|done].
Qed.

(** C3, as the code has it.  The territorial join of [mostrar_ingreso] is
    a left join: every column of the primary dataset that is not replaced
    by a geography attribute comes out unchanged, so no row is dropped, and
    a row whose padded code matches no code of the reference holds "N/A"
    in every joined geography attribute. *)
Theorem union_territorial_ingreso df_poblacion df_geo dane :
  DF.empty df_geo = false ->
  DF.get "DANE" df_poblacion = Ret dane ->
  exists col dane_geo res,
    dane_col_geo df_geo = Some col
    /\ DF.get col df_geo = Ret dane_geo
    /\ merge_con_geo float_str df_poblacion df_geo = Ret res
    /\ (forall c v,
          c ∉ geo_cols_present df_geo -> c <> "DANE_STR" ->
          DF.get c df_poblacion = Ret v -> length v = length dane ->
          DF.get c res = Ret v)
    /\ (forall i k c,
          dane !! i = Some k ->
          dane_str float_str k ∉ map (dane_str float_str) dane_geo ->
          c ∈ geo_cols_present df_geo ->
          exists v, DF.get c res = Ret v /\ v !! i = Some (CStr "N/A")).
Proof.
  intros Hne Hdane.
  destruct (dane_col_geo_some df_geo Hne) as (col & Hcol & Hhas).
  destruct (has_get _ _ Hhas) as [dane_geo Hdg].
  exists col, dane_geo.
  unfold merge_con_geo. rewrite Hne, Hdane. cbn [mbind py_bind].
  rewrite Hcol, Hdg. cbn [mbind py_bind].
  rewrite geo_cols_present_set.
  set (key := fun x => CStr (dane_str float_str x)).
  set (L0 := DF.set "DANE_STR" (map key dane) df_poblacion).
  set (G0 := DF.set "DANE_STR" (map key dane_geo) df_geo).
  set (cols := geo_cols_present df_geo).
  assert (forall c, c ∈ cols -> c <> "DANE_STR") as Hkey.
  { intros c Hc ->. by apply (geo_cols_not_key df_geo). }
  assert (forall c, c ∈ cols -> DF.has c G0 = true) as HG0.
  { intros c Hc. apply has_set_mono, has_true.
    by apply geo_cols_present_elem in Hc as [? _]. }
  destruct (select_ok ("DANE_STR" :: cols) G0) as [sel Hsel].
  { constructor; [eapply get_has, get_set_eq|]. by apply Forall_forall. }
  rewrite Hsel. cbn [mbind py_bind]. unfold Join.drop_duplicates.
  rewrite (select_get _ _ _ "DANE_STR" Hsel) by left.
  unfold G0 at 1. rewrite get_set_eq. cbn [mbind py_bind].
  set (gk := map key dane_geo).
  set (uniq := DF.filter_rows (Join.first_seen [] gk) sel).
  set (L1 := DF.drop (List.filter (fun c => DF.has c L0) cols) L0).
  set (rk := DF.mask_filter (Join.first_seen [] gk) gk).
  assert (NoDup rk) as Hnd by apply first_seen_nodup.
  assert (forall c, c ∈ cols -> DF.has c L1 = false) as HL1.
  { intros c Hc. unfold L1. rewrite has_drop.
    destruct (DF.has c L0) eqn:E; [|done]. simpl.
    rewrite bool_decide_eq_true_2; [done|].
    apply list_elem_of_In, filter_In. by rewrite <- list_elem_of_In. }
  assert (forall c, c ∉ cols -> DF.get c L1 = DF.get c L0) as HL1'.
  { intros c Hc. apply get_drop. intros Hin.
    apply list_elem_of_In, filter_In in Hin as [Hin _].
    by apply list_elem_of_In in Hin. }
  assert (DF.get "DANE_STR" L1 = Ret (map key dane)) as Hlk.
  { rewrite HL1' by apply geo_cols_not_key. apply get_set_eq. }
  assert (DF.get "DANE_STR" uniq = Ret rk) as Hrk.
  { unfold uniq. rewrite get_filter_rows.
    rewrite (select_get _ _ _ "DANE_STR" Hsel) by left.
    unfold G0. by rewrite get_set_eq. }
  assert (DF.columns uniq = "DANE_STR" :: cols) as Hcu.
  { unfold uniq. rewrite columns_filter_rows. by eapply select_columns. }
  rewrite (merge_left_disjoint "DANE_STR" L1 uniq _ _ Hlk Hrk).
  2: { intros c Hl Hr. rewrite Hcu in Hr.
       apply elem_of_cons in Hr as [?|Hr]; [done|].
       apply has_true in Hl. by rewrite (HL1 c Hr) in Hl. }
  cbv zeta.
  set (plan := Join.plan_from Join.Left 0 (map key dane) rk).
  set (lpart := map (fun p => (fst p, Join.gather_left plan (snd p))) L1).
  set (rpart := map (fun p => (fst p, Join.gather_right plan (snd p)))
                    (List.filter
                       (fun p => negb (String.eqb (fst p) "DANE_STR")) uniq)).
  assert (forall c, DF.has c lpart = DF.has c L1) as Hhl.
  { intros c. unfold DF.has, lpart.
    by rewrite (columns_map_values (fun _ => Join.gather_left plan)). }
  eexists. split; [done|]. split; [done|]. split; [reflexivity|]. split.
  - (* the columns of the primary dataset *)
    intros c v Hc Hcne Hv Hlen.
    rewrite get_drop by (by intros ?%list_elem_of_singleton).
    assert (DF.get c L1 = Ret v) as HvL1.
    { rewrite HL1' by done. unfold L0. by rewrite get_set_ne. }
    assert (DF.get c (lpart ++ rpart) = Ret v) as Hm.
    { rewrite get_app, Hhl, (get_has _ _ _ HvL1). unfold lpart.
      rewrite (get_map_values (Join.gather_left plan)), HvL1.
      f_equal. apply gather_left_id; [done|]. by rewrite length_map. }
    rewrite (get_foldl_fill_na cols _ c v Hm).
    by rewrite bool_decide_eq_false_2.
  - (* the attributes of a row without a partner *)
    intros i k c Hk Hnot Hc.
    rewrite get_drop.
    2: { intros ?%list_elem_of_singleton. by apply (Hkey c). }
    destruct (has_get _ _ (HG0 c Hc)) as [u0 Hu0].
    assert (DF.get c (lpart ++ rpart)
            = Ret (Join.gather_right plan
                     (DF.mask_filter (Join.first_seen [] gk) u0))) as Hm.
    { rewrite get_app, Hhl, (HL1 c Hc). unfold rpart.
      rewrite (get_map_values (Join.gather_right plan)).
      rewrite get_filter_ne by (by apply Hkey).
      unfold uniq. rewrite get_filter_rows.
      rewrite (select_get _ _ _ c Hsel) by (by right).
      by rewrite Hu0. }
    rewrite (get_foldl_fill_na cols _ c _ Hm).
    rewrite bool_decide_eq_true_2 by done.
    eexists. split; [reflexivity|].
    eapply fillna_lookup.
    { apply (gather_right_unmatched rk (map key dane) _ i (key k)); [done| |].
      - by rewrite list_lookup_fmap, Hk.
      - intros Hin. apply first_seen_sub in Hin as [Hin _].
        apply Hnot. unfold gk in Hin.
        apply list_elem_of_fmap in Hin as [y [Hy Hy']].
        injection Hy as Hy. rewrite Hy.
        apply list_elem_of_In, in_map. by apply list_elem_of_In. }
    reflexivity.
Qed.

End UnionTerritorial.

(** ** The join key *)

Section ClaveDane.

Implicit Types (s t : string) (n k w : nat).

Lemma append_cons a s t : String a s +:+ t = String a (s +:+ t).
Proof. reflexivity. Qed.

Lemma append_nil_l s : "" +:+ s = s.
Proof. reflexivity. Qed.

Lemma length_append s t :
  String.length (s +:+ t) = (String.length s + String.length t)%nat.
Proof.
  induction s as [|a s IH]; [done|]. rewrite append_cons. simpl. by rewrite IH.
Qed.

Lemma length_zeros n : String.length (Str.zeros n) = n.
Proof. induction n as [|n IH]; simpl; [done|]. by rewrite IH. Qed.

Lemma zeros_append n k : Str.zeros n +:+ Str.zeros k = Str.zeros (n + k).
Proof.
  induction n as [|n IH]; [done|]. simpl. rewrite append_cons. by rewrite IH.
Qed.

Lemma append_assoc s t u : (s +:+ t) +:+ u = s +:+ t +:+ u.
Proof.
  induction s as [|a s IH]; [done|]. rewrite !append_cons. by rewrite IH.
Qed.

Lemma append_nil_r s : s +:+ "" = s.
Proof.
  induction s as [|a s IH]; [done|]. rewrite append_cons. by rewrite IH.
Qed.

(** A string that does not start with a sign. *)
Definition no_sign s : Prop :=
  match s with
  | EmptyString => True
  | String a _ => Ascii.eqb a "+" || Ascii.eqb a "-" = false
  end.

Lemma zfill_no_sign w s :
  no_sign s -> Str.zfill w s = Str.zeros (w - String.length s) +:+ s.
Proof.
  unfold Str.zfill. destruct s as [|a s]; simpl.
  - intros _. by rewrite append_nil_r.
  - by intros ->.
Qed.

Lemma length_zfill w s :
  String.length (Str.zfill w s) = Nat.max w (String.length s).
Proof.
  unfold Str.zfill. destruct s as [|a s]; simpl.
  - rewrite length_zeros. lia.
  - destruct (Ascii.eqb a "+" || Ascii.eqb a "-"); simpl;
      rewrite length_append, length_zeros; simpl; lia.
Qed.

Lemma no_sign_zeros k s : no_sign s -> no_sign (Str.zeros k +:+ s).
Proof. by destruct k. Qed.

Lemma pretty_N_go_no_sign (x : N) s : no_sign s -> no_sign (pretty_N_go x s).
Proof.
  revert s. induction (N.lt_wf_0 x) as [x _ IH]; intros s Hs.
  destruct (decide (x = 0)%N) as [->|Hx]; [by rewrite pretty_N_go_0|].
  rewrite pretty_N_go_step by lia.
  apply IH; [apply N.div_lt; lia|].
  simpl. unfold pretty_N_char. by repeat case_match.
Qed.

Lemma pretty_Z_no_sign (z : Z) : 0 <= z -> no_sign (pretty z).
Proof.
  destruct z as [|p|p]; [done| |lia]. intros _.
  unfold pretty, pretty_Z, pretty, pretty_positive, pretty, pretty_N.
  destruct (decide _); [done|]. by apply pretty_N_go_no_sign.
Qed.

(** Leading zeros make no difference to the padded text. *)
Lemma zfill_leading_zeros w k s :
  no_sign s -> (k + String.length s <= w)%nat ->
  Str.zfill w (Str.zeros k +:+ s) = Str.zfill w s.
Proof.
  intros Hs Hlen.
  rewrite !zfill_no_sign by (try apply no_sign_zeros; done).
  rewrite length_append, length_zeros, <- append_assoc, zeros_append.
  f_equal. f_equal. lia.
Qed.

Variable float_str : Q -> string.

(** C6, as the code has it.  The join key of [mostrar_ingreso] is the text
    of the code padded with zeros on the left: it has 5 characters whenever
    the text has at most 5 (a longer text is kept whole), and an integer
    code and its text, with or without leading zeros, give the same key. *)
Theorem clave_dane_ingreso :
  (forall c,
      String.length (Ingreso.dane_str float_str c)
      = Nat.max 5 (String.length (astype_str float_str c)))
  /\ (forall (z : Z) k,
      0 <= z -> (k + String.length (pretty z) <= 5)%nat ->
      Ingreso.dane_str float_str (CStr (Str.zeros k +:+ pretty z))
      = Ingreso.dane_str float_str (CInt z)).
Proof.
  split.
  - intros c. apply length_zfill.
  - intros z k Hz Hlen. unfold Ingreso.dane_str. simpl.
    apply zfill_leading_zeros; [by apply pretty_Z_no_sign|done].
Qed.

End ClaveDane.

(* ===================================================================== *)
(** * Examples *)
(* ===================================================================== *)

(** The frames below hold text and integers in every column whose values
    are converted to text, so the text of a float is never asked for; the
    examples run with this printer. *)
Definition float_str_ejemplos : Q -> string := fun _ => "".

(** The scenario of the specification: two rows of ENE and one of FEB. *)
Definition ej_escenario : DataFrame :=
  [("MES", [CStr "ENE"; CStr "ENE"; CStr "FEB"]);
   ("TOTAL_PRESUPUESTO", [CInt 100; CInt 50; CInt 200]);
   ("TOTAL_EJECUTADO", [CInt 80; CInt 60; CInt 0])].

Example escenario_por_mes :
  exists disp exp,
    Ingreso.create_kpi_table float_str_ejemplos ej_escenario "MES"
    = Ret (Some (disp, exp))
    /\ map Ingreso.d_clave disp = [CStr "ENE"; CStr "FEB"]
    /\ map Ingreso.d_presupuesto disp = ["150"; "200"]
    /\ map Ingreso.d_ejecutado disp = ["140"; "0"]
    /\ map Ingreso.d_diferencia disp = ["-10"; "-200"]
    /\ map Ingreso.d_pct_ejecucion disp = ["93.33%"; "0.00%"].
Proof. eexists _, _. split; [vm_compute; reflexivity|]. by vm_compute. Qed.

(** Components A (two rows) and B: 20 % and 45 % by group. *)
Definition ej_componentes : DataFrame :=
  [("CONCEPTO", [CStr "A"; CStr "B"; CStr "A"]);
   ("PRESUPUESTO", [CInt 20; CInt 200; CInt 30]);
   ("EJECUTADO", [CInt 4; CInt 90; CInt 6])].

(** The ratio of the TOTAL row is 40 %, not the mean 32.5 % of the group
    ratios. *)
Example total_no_es_promedio :
  exists disp exp,
    Ingreso.create_componente_table ej_componentes = Ret (Some (disp, exp))
    /\ map Ingreso.d_clave disp = [CStr "A"; CStr "B"; CStr "TOTAL"]
    /\ map Ingreso.d_pct_ejecucion disp = ["20.00%"; "45.00%"; "40.00%"]
    /\ map Ingreso.presupuesto exp = [Fin 50; Fin 200; Fin 250]
    /\ map Ingreso.ejecutado exp = [Fin 10; Fin 90; Fin 100].
Proof. eexists _, _. split; [vm_compute; reflexivity|]. by vm_compute. Qed.

Lemma fila_total_recalculada_ejemplo :
  exists disp groups total,
    Ingreso.create_componente_table ej_componentes
    = Ret (Some (disp, groups ++ [total]))
    /\ Ingreso.clave total = CStr "TOTAL"
    /\ Ingreso.presupuesto total = Num.sum (map Ingreso.presupuesto groups)
    /\ Ingreso.ejecutado total = Num.sum (map Ingreso.ejecutado groups).
Proof.
  destruct (fila_total_recalculada ej_componentes
              [CStr "A"; CStr "B"; CStr "A"]
              [Fin 20; Fin 200; Fin 30] [Fin 4; Fin 90; Fin 6]
              eq_refl eq_refl eq_refl eq_refl)
    as (disp & groups & total & H & _ & H1 & H2 & H3 & _).
  by exists disp, groups, total.
Defined.

(** A frame with a zero budget in one group and in the total. *)
Definition ej_ceros : DataFrame :=
  [("CONCEPTO", [CStr "A"; CStr "B"]);
   ("PRESUPUESTO", [CInt 0; CInt 0]);
   ("EJECUTADO", [CInt 7; CInt 0])].

Lemma razon_cero_ejemplo :
  Forall fila_segura
    [Ingreso.Fila (CStr "A") (Fin 0) (Fin 7) (Fin 7) (Fin 0);
     Ingreso.Fila (CStr "B") (Fin 0) (Fin 0) (Fin 0) (Fin 0);
     Ingreso.Fila (CStr "TOTAL") (Fin 0) (Fin 7) (Fin 7) (Fin 0)].
Proof.
  apply (proj1 razon_cero_con_denominador_cero ej_ceros
           (map Ingreso.display
              [Ingreso.Fila (CStr "A") (Fin 0) (Fin 7) (Fin 7) (Fin 0);
               Ingreso.Fila (CStr "B") (Fin 0) (Fin 0) (Fin 0) (Fin 0);
               Ingreso.Fila (CStr "TOTAL") (Fin 0) (Fin 7) (Fin 7) (Fin 0)])).
  vm_compute. reflexivity.
Defined.

(** Months out of order, one of them unknown. *)
Definition ej_meses : DataFrame :=
  [("MES", [CStr "MAR"; CStr "ENE"; CStr "DIC"; CStr "XYZ"]);
   ("FECHA", [CStr "2025-03-01"; CStr "2025-01-01"; CStr "2025-12-01";
              CNone]);
   ("TOTAL_PRESUPUESTO", [CInt 200; CInt 100; CInt 50; CInt 10]);
   ("TOTAL_EJECUTADO", [CInt 0; CInt 80; CInt 60; CInt 5])].

Definition ej_meses_export : list Ingreso.fila :=
  [Ingreso.Fila (CStr "DIC") (Fin 50) (Fin 60) (Fin 10) (Fin (6000 # 50));
   Ingreso.Fila (CStr "ENE") (Fin 100) (Fin 80) (Fin (-20)) (Fin (8000 # 100));
   Ingreso.Fila (CStr "MAR") (Fin 200) (Fin 0) (Fin (-200)) (Fin (0 # 200));
   Ingreso.Fila (CStr "XYZ") (Fin 10) (Fin 5) (Fin (-5)) (Fin (500 # 10))].

Definition ej_meses_display : list Ingreso.fila_display :=
  [Ingreso.FilaDisplay (CStr "ENE") "100" "80" "-20" "80.00%";
   Ingreso.FilaDisplay (CStr "MAR") "200" "0" "-200" "0.00%";
   Ingreso.FilaDisplay (CStr "DIC") "50" "60" "10" "120.00%"].

Lemma ej_meses_tabla :
  Ingreso.create_kpi_table float_str_ejemplos ej_meses "MES"
  = Ret (Some (ej_meses_display, ej_meses_export)).
Proof. vm_compute. reflexivity. Qed.

(** The display table follows the calendar and leaves the unknown month
    out; the export table is in the order of the labels and keeps it. *)
Lemma export_no_sigue_el_calendario :
  exists disp exp,
    Ingreso.create_kpi_table float_str_ejemplos ej_meses "MES"
    = Ret (Some (disp, exp))
    /\ map Ingreso.d_clave disp = [CStr "ENE"; CStr "MAR"; CStr "DIC"]
    /\ map Ingreso.clave exp
       = [CStr "DIC"; CStr "ENE"; CStr "MAR"; CStr "XYZ"].
Proof. eexists _, _. split; [apply ej_meses_tabla|]. by vm_compute. Qed.

Lemma tabla_por_mes_ejemplo :
  exists rows,
    ej_meses_display = map Ingreso.display rows
    /\ Sorted (fun a b =>
                 Ingreso.mes_order_leb float_str_ejemplos a b = true) rows
    /\ Sorted (fun a b => GroupBy.key_leb a b = true)
               (map Ingreso.clave ej_meses_export).
Proof.
  destruct (proj1 (tabla_por_mes float_str_ejemplos) ej_meses
              ej_meses_display ej_meses_export ej_meses_tabla eq_refl)
    as (rows & H1 & _ & _ & H2 & H3).
  by exists rows.
Defined.

(** A frame with labels in mixed case and with blanks. *)
Definition ej_filtro : DataFrame :=
  [("MES", [CStr "ene"; CStr "FEB"; CStr " Ene "]);
   ("TOTAL_PRESUPUESTO", [CInt 1; CInt 2; CInt 3])].

Definition ej_filtro_despues : DataFrame :=
  [("MES", [CStr "ENE"; CStr "FEB"; CStr "ENE"]);
   ("TOTAL_PRESUPUESTO", [CInt 1; CInt 2; CInt 3])].

Definition ej_filtro_seleccion : DataFrame :=
  [("MES", [CStr "ENE"; CStr "ENE"]);
   ("TOTAL_PRESUPUESTO", [CInt 1; CInt 3])].

Lemma ej_filtro_llamada :
  Ingreso.aplicar_filtro_select float_str_ejemplos [ej_filtro] 0 "MES"
    (CStr "ENE")
  = Some ([ej_filtro_despues; ej_filtro_seleccion], 1%nat).
Proof. vm_compute. reflexivity. Qed.

(** After the call the frame of the caller holds other values than
    before. *)
Lemma filtro_modifica_su_argumento :
  exists h' r,
    Ingreso.aplicar_filtro_select float_str_ejemplos [ej_filtro] 0 "MES"
      (CStr "ENE") = Some (h', r)
    /\ [ej_filtro] !! 0%nat = Some ej_filtro
    /\ h' !! 0%nat = Some ej_filtro_despues
    /\ ej_filtro_despues <> ej_filtro.
Proof.
  eexists _, _. split; [apply ej_filtro_llamada|]. by repeat split.
Qed.

Lemma filtro_efecto_ejemplo :
  exists d' v,
    [ej_filtro_despues; ej_filtro_seleccion] !! 0%nat = Some d'
    /\ DF.get "MES" ej_filtro = Ret v
    /\ DF.get "MES" d' = Ret (map (normal float_str_ejemplos) v)
    /\ DF.columns d' = DF.columns ej_filtro
    /\ (forall c, c <> "MES" -> DF.get c d' = DF.get c ej_filtro).
Proof.
  destruct (proj2 (filtro_efecto float_str_ejemplos [ej_filtro] 0 ej_filtro
                     "MES" (CStr "ENE") _ _ eq_refl ej_filtro_llamada))
    as (d' & v & H1 & H2 & H3 & H4 & H5 & _); [discriminate|reflexivity|].
  by exists d', v.
Defined.

Lemma filtro_passthrough_ejemplo :
  exists h' r,
    Ingreso.aplicar_filtro_select float_str_ejemplos [ej_filtro] 0 "MES"
      (CStr "Todos") = Some (h', r)
    /\ r = 0%nat /\ h' = [ej_filtro] /\ h' !! r = Some ej_filtro.
Proof.
  apply (filtro_passthrough float_str_ejemplos [ej_filtro] 0 ej_filtro "MES"
           (CStr "Todos")); [reflexivity|left; reflexivity].
Defined.

Lemma filtro_idempotente_ejemplo :
  exists h2 r2,
    Ingreso.aplicar_filtro_select float_str_ejemplos
      [ej_filtro_despues; ej_filtro_seleccion] 1 "MES" (CStr "ENE")
    = Some (h2, r2)
    /\ h2 !! r2 = [ej_filtro_despues; ej_filtro_seleccion] !! 1%nat
    /\ is_Some ([ej_filtro_despues; ej_filtro_seleccion] !! 1%nat).
Proof.
  apply (filtro_idempotente float_str_ejemplos [ej_filtro] 0 "MES"
           (CStr "ENE")); [discriminate|apply ej_filtro_llamada].
Defined.

(** The two sheets that [load_data] reads, with the columns of
    [FIELDS_POBLACION] and [FIELDS_TERRITORIALIDAD]; the second row of the
    first has a code that the second does not have. *)
Definition ej_poblacion : DataFrame :=
  [("ANO", [CInt 2025; CInt 2025]);
   ("MES", [CStr "ENERO"; CStr "ENERO"]);
   ("REGIMEN", [CStr "SUBSIDIADO"; CStr "CONTRIBUTIVO"]);
   ("DANE", [CInt 5001; CInt 99999]);
   ("PRESUPUESTO", [CInt 1000; CInt 500]);
   ("POBLACION_BDUA", [CInt 900; CInt 450]);
   ("POBLACION_INTEGRAL", [CInt 800; CInt 400]);
   ("POBLACION_PAIS", [CInt 5000; CInt 5000])].

Definition ej_territorialidad (dane : Series) : DataFrame :=
  [("DANE", dane);
   ("MUNICIPIO", [CStr "MEDELLIN"; CStr "BARRANQUILLA"]);
   ("REGIONAL", [CStr "NOROCCIDENTE"; CStr "CARIBE"]);
   ("ZONAL", [CStr "ANTIOQUIA"; CStr "ATLANTICO"]);
   ("PROVINCIA", [CStr "VALLE DE ABURRA"; CStr "NORTE"]);
   ("DEPARTAMENTO", [CStr "ANTIOQUIA"; CStr "ATLANTICO"]);
   ("CATEGORIA DEPARTAMENTO", [CStr "ESPECIAL"; CStr "1"]);
   ("CATEGORIA MUNICIPIO", [CStr "ESPECIAL"; CStr "ESPECIAL"]);
   ("DESCRIPCIÓN ZONA", [CStr "URBANA"; CStr "URBANA"]);
   ("REGIÓN", [CStr "ANDINA"; CStr "CARIBE"]);
   ("SUBREGIÓN", [CStr "CENTRO"; CStr "NORTE"]);
   ("CATEGORIA REGION", [CStr "A"; CStr "B"])].

(** [load_data] joins with [how='inner']: of the two rows of the primary
    dataset, the one of code 99999 is not in the result. *)
Lemma load_data_descarta_filas :
  exists res,
    Poblacion.load_data float_str_ejemplos ej_poblacion
      (ej_territorialidad [CInt 5001; CInt 8001]) = Some res
    /\ DF.nrows ej_poblacion = 2%nat
    /\ DF.nrows res = 1%nat
    /\ DF.get "DANE" res = Ret [CStr "5001"]
    /\ DF.get "REGIONAL" res = Ret [CStr "NOROCCIDENTE"].
Proof. eexists. split; [vm_compute; reflexivity|]. by vm_compute. Qed.

(** The primary dataset of the ingreso page and a reference table. *)
Definition ej_ingreso : DataFrame :=
  [("ANO", [CInt 2025; CInt 2025]);
   ("MES", [CStr "ENE"; CStr "ENE"]);
   ("DANE", [CInt 5001; CInt 99999]);
   ("TOTAL_PRESUPUESTO", [CInt 10; CInt 20]);
   ("TOTAL_EJECUTADO", [CInt 8; CInt 20])].

Definition ej_geo : DataFrame :=
  [("DANE", [CInt 5001; CInt 8001]);
   ("MUNICIPIO", [CStr "MEDELLIN"; CStr "BARRANQUILLA"]);
   ("REGIONAL", [CStr "NOROCCIDENTE"; CStr "CARIBE"])].

Lemma union_territorial_ingreso_ejemplo :
  exists res v,
    Ingreso.merge_con_geo float_str_ejemplos ej_ingreso ej_geo = Ret res
    /\ DF.get "TOTAL_PRESUPUESTO" res = Ret [CInt 10; CInt 20]
    /\ DF.get "REGIONAL" res = Ret v
    /\ v !! 1%nat = Some (CStr "N/A").
Proof.
  destruct (union_territorial_ingreso float_str_ejemplos ej_ingreso ej_geo
              [CInt 5001; CInt 99999] eq_refl eq_refl)
    as (col & dane_geo & res & Hc & Hg & Hm & HA & HB).
  vm_compute in Hc. injection Hc as <-.
  vm_compute in Hg. injection Hg as <-.
  destruct (HB 1%nat (CInt 99999) "REGIONAL" eq_refl) as (v & Hv & Hi).
  { rewrite list_elem_of_In. vm_compute. intros [H|[H|[]]]; discriminate. }
  { vm_compute. right. left. }
  exists res, v. split; [done|]. split; [|done].
  apply HA; [|discriminate|reflexivity|reflexivity].
  rewrite list_elem_of_In. vm_compute. intros [H|[H|[]]]; discriminate.
Defined.

(** [load_data] compares the codes without padding them: when the primary
    sheet holds the codes as numbers and the reference holds them as text
    with the leading zero, no row meets its municipality and the result is
    empty; the join of the ingreso page pairs the same two writings. *)
Lemma load_data_no_rellena_la_clave :
  exists res,
    Poblacion.load_data float_str_ejemplos
      [("ANO", [CInt 2025; CInt 2025]);
       ("MES", [CStr "ENERO"; CStr "ENERO"]);
       ("REGIMEN", [CStr "SUBSIDIADO"; CStr "CONTRIBUTIVO"]);
       ("DANE", [CInt 5001; CInt 8001]);
       ("PRESUPUESTO", [CInt 1000; CInt 500]);
       ("POBLACION_BDUA", [CInt 900; CInt 450]);
       ("POBLACION_INTEGRAL", [CInt 800; CInt 400]);
       ("POBLACION_PAIS", [CInt 5000; CInt 5000])]
      (ej_territorialidad [CStr "05001"; CStr "08001"]) = Some res
    /\ DF.nrows res = 0%nat
    /\ Ingreso.dane_str float_str_ejemplos (CInt 5001)
       = Ingreso.dane_str float_str_ejemplos (CStr "05001").
Proof. eexists. split; [vm_compute; reflexivity|]. by vm_compute. Qed.

Lemma clave_dane_ingreso_ejemplo :
  Ingreso.dane_str float_str_ejemplos (CStr "05001")
  = Ingreso.dane_str float_str_ejemplos (CInt 5001).
Proof.
  apply (proj2 (clave_dane_ingreso float_str_ejemplos) 5001 1%nat).
  - discriminate.
  - vm_compute. lia.
Defined.

(** Rows keyed "N/A" beside rows with a label. *)
Definition ej_regional : DataFrame :=
  [("REGIONAL", [CStr "N/A"; CStr "CARIBE"; CStr "CARIBE"]);
   ("TOTAL_PRESUPUESTO", [CInt 1000; CInt 10; CInt 20]);
   ("TOTAL_EJECUTADO", [CInt 500; CInt 5; CInt 20])].

Definition ej_regional_export : list Ingreso.fila :=
  [Ingreso.Fila (CStr "CARIBE") (Fin 30) (Fin 25) (Fin (-5))
     (Fin (2500 # 30))].

Lemma ej_regional_tabla :
  Ingreso.create_kpi_table float_str_ejemplos ej_regional "REGIONAL"
  = Ret (Some (map Ingreso.display ej_regional_export, ej_regional_export)).
Proof. vm_compute. reflexivity. Qed.

Lemma filas_na_ejemplo :
  (CStr "N/A" ∉ map Ingreso.clave ej_regional_export)
  /\ (CStr "N/A" ∉ map Ingreso.d_clave
                       (map Ingreso.display ej_regional_export)).
Proof.
  destruct (proj1 (proj1 (filas_na_en_las_dos_tablas float_str_ejemplos)
                     ej_regional "REGIONAL"
                     [CStr "N/A"; CStr "CARIBE"; CStr "CARIBE"]
                     [Fin 1000; Fin 10; Fin 20] [Fin 500; Fin 5; Fin 20]
                     eq_refl eq_refl eq_refl (list_elem_of_here _ _))
              _ _ ej_regional_tabla)
    as (H1 & H2 & _).
  by split.
Defined.


(* ===================================================================== *)
(** * Further properties of the pipeline *)
(* ===================================================================== *)

(** ** Group sums and overall sums *)

Section SumasPorGrupo.

Import Ingreso.

Implicit Types (ks : Series) (qs : list Q) (k c : cell).

(** The exact sum of a list of rationals. *)
Definition suma (qs : list Q) : Q := fold_right Qplus 0%Q qs.


Lemma fold_left_Qplus qs (a : Q) :
  (fold_left Qplus qs a == a + suma qs)%Q.
Proof.
  revert a. induction qs as [|x qs IH]; intros a; simpl.
  - ring.
  - rewrite IH. ring.
Qed.

Lemma fold_left_add_Fin qs (a : Q) :
  fold_left Num.add (map Fin qs) (Fin a) = Fin (fold_left Qplus qs a).
Proof. revert a. induction qs as [|x qs IH]; intros a; simpl; [done|apply IH]. Qed.

(** The sum of finite values is finite and exact. *)
Lemma sum_Fin qs :
  exists t, Num.sum (map Fin qs) = Fin t /\ (t == suma qs)%Q.
Proof.
  exists (fold_left Qplus qs 0%Q). split.
  - unfold Num.sum, Num.zero.
    assert (List.filter (fun x => negb (Num.isnan x)) (map Fin qs)
            = map Fin qs) as ->.
    { induction qs as [|x qs IH]; simpl; [done|by rewrite IH]. }
    apply fold_left_add_Fin.
  - rewrite fold_left_Qplus. ring.
Qed.

Lemma mask_filter_map {A B} (f : A -> B) (m : list bool) (x : list A) :
  DF.mask_filter m (map f x) = map f (DF.mask_filter m x).
Proof.
  revert x. induction m as [|b m IH]; intros [|a x]; simpl; try done.
  destruct b; simpl; by rewrite IH.
Qed.




Lemma distinct_nodup seen ks : NoDup (DF.distinct seen ks).
Proof.
  revert seen. induction ks as [|c ks IH]; intros seen; simpl; [constructor|].
  destruct (isna c || bool_decide (c ∈ seen)); [apply IH|].
  constructor; [|apply IH].
  intros Hin. apply distinct_elem in Hin as (_ & _ & Hin). apply Hin. left.
Qed.

Lemma keys_nodup ks : NoDup (GroupBy.keys ks).
Proof.
  unfold GroupBy.keys. rewrite sort_by_perm. apply distinct_nodup.
Qed.





Lemma group_sum_Fin ks qs k :
  exists t, GroupBy.sum ks (map Fin qs) k = Fin t
            /\ (t == suma (GroupBy.members ks qs k))%Q.
Proof.
  unfold GroupBy.sum, GroupBy.members. rewrite mask_filter_map.
  apply sum_Fin.
Qed.







End SumasPorGrupo.

Section TotalesDeTablas.

Import Ingreso.

Variable float_str : Q -> string.

Implicit Types (df : DataFrame) (ks : Series) (qp qe : list Q).






End TotalesDeTablas.



(** ** When the tables are not produced, and which groups they hold *)

Section TablasVacias.

Import Ingreso.

Variable float_str : Q -> string.

Implicit Types (df : DataFrame) (ks : Series) (k c : cell).

(** A label that gives no group: null, or the text "N/A". *)
Definition sin_etiqueta (c : cell) : Prop := isna c = true \/ c = CStr "N/A".

Lemma nunique_zero ks :
  DF.nunique ks = 0%nat <-> Forall (fun c => isna c = true) ks.
Proof.
  unfold DF.nunique. split.
  - intros H. apply Forall_forall. intros c Hc.
    destruct (isna c) eqn:E; [done|].
    assert (c ∈ DF.distinct [] ks) as Hin.
    { apply distinct_elem. split; [done|split; [done|]]. apply not_elem_of_nil. }
    destruct (DF.distinct [] ks); [by apply elem_of_nil in Hin|done].
  - intros H. destruct (DF.distinct [] ks) as [|c l] eqn:E; [done|].
    assert (c ∈ DF.distinct [] ks) as Hin by (rewrite E; left).
    apply distinct_elem in Hin as (Hin & Hna & _).
    rewrite Forall_forall in H. specialize (H c Hin). congruence.
Qed.

Lemma sin_grupos_true ks :
  sin_grupos ks = true
  <-> Forall (fun c => isna c = true) ks \/ Forall (fun c => c = CStr "N/A") ks.
Proof.
  unfold sin_grupos. rewrite orb_true_iff, Nat.eqb_eq, nunique_zero.
  assert (forallb (cell_is "N/A") ks = true
          <-> Forall (fun c => c = CStr "N/A") ks) as ->; [|done].
  rewrite forallb_forall, Forall_forall. unfold cell_is.
  split; intros H c Hc.
  - apply list_elem_of_In in Hc. specialize (H c Hc).
    by apply bool_decide_eq_true in H.
  - apply list_elem_of_In in Hc. apply bool_decide_eq_true. auto.
Qed.

(** X3.  [create_componente_table] answers [None] exactly when the frame
    has no CONCEPTO column, or every CONCEPTO is null (also when there is
    no row), or every CONCEPTO is "N/A". *)
Theorem create_componente_table_none df :
  create_componente_table df = Ret None
  <-> DF.has "CONCEPTO" df = false
      \/ exists ks, DF.get "CONCEPTO" df = Ret ks
                    /\ (Forall (fun c => isna c = true) ks
                        \/ Forall (fun c => c = CStr "N/A") ks).
Proof.
  unfold create_componente_table.
  destruct (DF.get "CONCEPTO" df) as [ks|err] eqn:Hk.
  - destruct (sin_grupos ks) eqn:Hg.
    + split; [|done]. intros _. right. exists ks. split; [done|].
      by apply sin_grupos_true.
    + split.
      * destruct (numeric "PRESUPUESTO" df); [|done]. cbn [mbind py_bind].
        destruct (numeric "EJECUTADO" df); done.
      * intros [Hh|(ks' & [= <-] & H)].
        -- apply get_has in Hk. congruence.
        -- apply sin_grupos_true in H. congruence.
  - split; [|done]. intros _. left.
    destruct (DF.has "CONCEPTO" df) eqn:Hh; [|done].
    apply has_get in Hh as [v Hv]. congruence.
Qed.

Lemma keys_nil ks :
  GroupBy.keys ks = [] <-> Forall (fun c => isna c = true) ks.
Proof.
  rewrite <- nunique_zero. unfold DF.nunique, GroupBy.keys.
  rewrite <- (sort_by_length GroupBy.key_leb (DF.distinct [] ks)).
  by destruct (Sort.sort_by GroupBy.key_leb (DF.distinct [] ks)).
Qed.

Lemma agrupar_length ks p e :
  length (agrupar ks p e) = length (GroupBy.keys ks).
Proof. unfold agrupar. by rewrite length_map. Qed.

(** X4.  When the two amount columns can be read, [create_kpi_table]
    answers [None] exactly when the grouping column is missing or none of
    its cells is a label, that is, every cell is null or "N/A". *)
Theorem create_kpi_table_none df group_col p e :
  numeric "TOTAL_PRESUPUESTO" df = Ret p ->
  numeric "TOTAL_EJECUTADO" df = Ret e ->
  create_kpi_table float_str df group_col = Ret None
  <-> DF.has group_col df = false
      \/ exists ks, DF.get group_col df = Ret ks /\ Forall sin_etiqueta ks.
Proof.
  intros Hp He. unfold create_kpi_table.
  destruct (DF.get group_col df) as [ks|err] eqn:Hk.
  - destruct (sin_grupos ks) eqn:Hg.
    + split; [|done]. intros _. right. exists ks. split; [done|].
      apply sin_grupos_true in Hg as [H|H];
        (eapply Forall_impl; [exact H|]); intros c Hc; [by left|by right].
    + fold no_es_na.
      rewrite get_filter_rows, Hk. cbn [mbind py_bind].
      rewrite (numeric_filter_rows _ _ _ _ Hp). cbn [mbind py_bind].
      rewrite (numeric_filter_rows _ _ _ _ He). cbn [mbind py_bind].
      rewrite agrupar_length.
      destruct (GroupBy.keys (DF.mask_filter (map no_es_na ks) ks))
        as [|k K] eqn:EK; simpl.
      * split; [|done]. intros _. right. exists ks. split; [done|].
        apply keys_nil in EK. apply Forall_forall. intros c Hc.
        destruct (decide (c = CStr "N/A")) as [->|Hne]; [by right|left].
        rewrite Forall_forall in EK. apply EK.
        apply mask_filter_elem; [done|]. by apply no_es_na_true.
      * split; [done|]. intros [Hh|(ks' & [= <-] & H)].
        -- apply get_has in Hk. congruence.
        -- assert (k ∈ GroupBy.keys (DF.mask_filter (map no_es_na ks) ks))
             as Hin by (rewrite EK; left).
           apply keys_elem in Hin as [Hin Hna].
           apply mask_filter_sub in Hin as [Hin Hne].
           apply no_es_na_true in Hne.
           rewrite Forall_forall in H. destruct (H k Hin); congruence.
  - split; [|done]. intros _. left.
    destruct (DF.has group_col df) eqn:Hh; [|done].
    apply has_get in Hh as [v Hv]. congruence.
Qed.

(** X5.  The numeric table of [create_kpi_table] has exactly one row for
    every distinct label of the grouping column that is neither null nor
    "N/A", and its rows are in ascending order of the label. *)
Theorem create_kpi_table_claves df group_col ks disp exp :
  DF.get group_col df = Ret ks ->
  create_kpi_table float_str df group_col = Ret (Some (disp, exp)) ->
  NoDup (map clave exp)
  /\ Sorted (fun a b => GroupBy.key_leb a b = true) (map clave exp)
  /\ (forall k, k ∈ map clave exp
                <-> k ∈ ks /\ isna k = false /\ k <> CStr "N/A").
Proof.
  intros Hk H.
  apply create_kpi_table_inv in H as (ks0 & p' & e' & H). cbv zeta in H.
  destruct H as (Hk0 & _ & _ & _ & -> & _ & _).
  rewrite Hk in Hk0. injection Hk0 as <-. fold no_es_na.
  rewrite agrupar_claves. split; [apply keys_nodup|].
  split; [apply keys_sorted|].
  intros k. rewrite keys_elem. split.
  - intros [[Hin Hne]%mask_filter_sub Hna]. apply no_es_na_true in Hne. done.
  - intros (Hin & Hna & Hne). split; [|done].
    apply mask_filter_elem; [done|]. by apply no_es_na_true.
Qed.

(** X6.  The numeric table of [create_componente_table] has one row for
    every distinct CONCEPTO that is not null, in ascending order, and then
    the row TOTAL; the formatted table has the same rows in the same
    order. *)
Theorem create_componente_table_claves df ks disp exp :
  DF.get "CONCEPTO" df = Ret ks ->
  create_componente_table df = Ret (Some (disp, exp)) ->
  exists K,
    map clave exp = K ++ [CStr "TOTAL"]
    /\ map d_clave disp = K ++ [CStr "TOTAL"]
    /\ NoDup K
    /\ Sorted (fun a b => GroupBy.key_leb a b = true) K
    /\ (forall k, k ∈ K <-> k ∈ ks /\ isna k = false).
Proof.
  intros Hk H.
  apply create_componente_table_inv in H
    as (ks0 & p & e & Hk0 & _ & _ & _ & -> & ->).
  rewrite Hk in Hk0. injection Hk0 as <-.
  exists (GroupBy.keys ks).
  assert (map clave (agrupar ks p e ++ [fila_total (agrupar ks p e)])
          = GroupBy.keys ks ++ [CStr "TOTAL"]) as E.
  { by rewrite map_app, agrupar_claves. }
  split; [exact E|]. split.
  { rewrite map_map. rewrite <- E. apply map_ext. by intros []. }
  split; [apply keys_nodup|]. split; [apply keys_sorted|].
  apply keys_elem.
Qed.

End TablasVacias.

Lemma create_kpi_table_none_ejemplo :
  Ingreso.create_kpi_table float_str_ejemplos ej_escenario "REGIONAL"
  = Ret None.
Proof.
  apply (proj2 (create_kpi_table_none float_str_ejemplos ej_escenario
                  "REGIONAL" [Fin 100; Fin 50; Fin 200]
                  [Fin 80; Fin 60; Fin 0] eq_refl eq_refl)).
  left. reflexivity.
Defined.

Lemma create_kpi_table_claves_ejemplo :
  NoDup [CStr "CARIBE"]
  /\ Sorted (fun a b => GroupBy.key_leb a b = true) [CStr "CARIBE"]
  /\ (forall k, k ∈ [CStr "CARIBE"]
                <-> k ∈ [CStr "N/A"; CStr "CARIBE"; CStr "CARIBE"]
                    /\ isna k = false /\ k <> CStr "N/A").
Proof.
  exact (create_kpi_table_claves float_str_ejemplos ej_regional "REGIONAL"
           [CStr "N/A"; CStr "CARIBE"; CStr "CARIBE"]
           _ _ eq_refl ej_regional_tabla).
Defined.

Lemma create_componente_table_claves_ejemplo :
  exists K,
    [CStr "A"; CStr "B"; CStr "TOTAL"] = K ++ [CStr "TOTAL"]
    /\ [CStr "A"; CStr "B"; CStr "TOTAL"] = K ++ [CStr "TOTAL"]
    /\ NoDup K
    /\ Sorted (fun a b => GroupBy.key_leb a b = true) K
    /\ (forall k, k ∈ K <-> k ∈ [CStr "A"; CStr "B"; CStr "A"]
                            /\ isna k = false).
Proof.
  exact (create_componente_table_claves ej_componentes
           [CStr "A"; CStr "B"; CStr "A"]
           (map Ingreso.display
              [Ingreso.Fila (CStr "A") (Fin 50) (Fin 10) (Fin (-40))
                 (Fin (1000 # 50));
               Ingreso.Fila (CStr "B") (Fin 200) (Fin 90) (Fin (-110))
                 (Fin (9000 # 200));
               Ingreso.Fila (CStr "TOTAL") (Fin 250) (Fin 100) (Fin (-150))
                 (Fin (10000 # 250))])
           [Ingreso.Fila (CStr "A") (Fin 50) (Fin 10) (Fin (-40))
              (Fin (1000 # 50));
            Ingreso.Fila (CStr "B") (Fin 200) (Fin 90) (Fin (-110))
              (Fin (9000 # 200));
            Ingreso.Fila (CStr "TOTAL") (Fin 250) (Fin 100) (Fin (-150))
              (Fin (10000 # 250))]
           eq_refl eq_refl).
Defined.

(** ** The labels that [normalize_columns] produces *)

Section EtiquetasNormalizadas.

Implicit Types (s : string) (a : ascii) (df : DataFrame).

(** A character that a normalised label can hold: not the blank and not
    one that [upper] changes. *)
Definition caracter_normal a : Prop := a <> " "%char /\ Str.upper_char a = a.

(** A normalised label: [strip] leaves it alone, all its characters are
    normal, and it is not the label that is renamed. *)
Definition etiqueta_normal s : Prop :=
  Str.strip s = s
  /\ Forall caracter_normal (String.list_ascii_of_string s)
  /\ s <> "%_EJECUCION".

Lemma norm_char_normal a : caracter_normal (norm_char a).
Proof. by destruct a as [[] [] [] [] [] [] [] []]. Qed.

Lemma strmap_normal s :
  Forall caracter_normal (String.list_ascii_of_string (Str.map norm_char s)).
Proof.
  induction s as [|a s IH]; simpl; [constructor|].
  constructor; [apply norm_char_normal|exact IH].
Qed.

Lemma final_name_normal s : etiqueta_normal (final_name s).
Proof.
  unfold final_name.
  destruct (String.eqb_spec (Ingreso.normalize_name s) "%_EJECUCION") as [E|E].
  - split; [reflexivity|]. split; [|discriminate].
    repeat constructor; discriminate.
  - split; [|split; [|exact E]].
    + rewrite normalize_name_map. apply clean_strip.
      apply clean_map; [apply norm_char_space|apply strip_clean].
    + rewrite normalize_name_map. apply strmap_normal.
Qed.

(** X7.  [normalize_columns] changes labels only: the columns keep their
    values, order and number.  Every label of the result is normalised: it
    has no white space at either end, no blank and no lower-case ASCII
    letter anywhere, and it is never "%_EJECUCION". *)
Theorem normalize_columns_etiquetas df :
  map snd (Ingreso.normalize_columns df) = map snd df
  /\ Forall etiqueta_normal (DF.columns (Ingreso.normalize_columns df)).
Proof.
  rewrite normalize_columns_rename. unfold DF.rename, DF.columns.
  rewrite !map_map. split; [done|].
  apply Forall_forall. intros c Hc.
  apply list_elem_of_fmap in Hc as [p [-> _]]. apply final_name_normal.
Qed.

End EtiquetasNormalizadas.

(** ** The preparation of the sheets *)

Section Preparacion.

Import Ingreso.

Variable parse_number : string -> option cell.
Variable float_str : Q -> string.

Implicit Types (df : DataFrame) (v : Series) (c col : string) (x : cell).

(** The value that fills a missing column. *)
Definition relleno col : cell := if es_monto col then CInt 0 else CStr "N/A".

Lemma nrows_set c v df :
  length v = DF.nrows df -> DF.nrows (DF.set c v df) = DF.nrows df.
Proof.
  intros Hl. unfold DF.set. destruct (DF.has c df).
  - destruct df as [|[c0 v0] df]; [done|]. simpl.
    by destruct (String.eqb c0 c).
  - destruct df as [|[c0 v0] df]; simpl in *; done.
Qed.

Lemma nrows_set_scalar c x df : DF.nrows (set_scalar c x df) = DF.nrows df.
Proof. apply nrows_set. by rewrite length_replicate. Qed.

Lemma has_set c v df : DF.has c (DF.set c v df) = true.
Proof. eapply get_has, get_set_eq. Qed.

Lemma completar_con_spec cols df :
  DF.nrows (completar_con cols df) = DF.nrows df
  /\ (forall c, DF.has c df = true ->
        DF.get c (completar_con cols df) = DF.get c df)
  /\ (forall c, c ∈ cols -> DF.has c df = false ->
        DF.get c (completar_con cols df)
        = Ret (replicate (DF.nrows df) (relleno c)))
  /\ (forall c, DF.has c (completar_con cols df) = true ->
        DF.has c df = true \/ c ∈ cols).
Proof.
  revert df. induction cols as [|col cols IH]; intros df.
  { simpl. repeat split; try done; [by intros c ?%elem_of_nil|by left]. }
  unfold completar_con. cbn [fold_left]. fold (completar_con cols).
  destruct (DF.has col df) eqn:Hcol.
  - destruct (IH df) as (H1 & H2 & H3 & H4). repeat split; try done.
    + intros c [->|Hc]%elem_of_cons Hh; [congruence|by apply H3].
    + intros c Hc. destruct (H4 c Hc); [by left|right; by right].
  - fold (relleno col).
    destruct (IH (set_scalar col (relleno col) df)) as (H1 & H2 & H3 & H4).
    rewrite nrows_set_scalar in H1, H3. repeat split; try done.
    + intros c Hc. rewrite H2 by (by apply has_set_mono).
      apply get_set_ne. intros ->. congruence.
    + intros c Hc Hh. destruct (decide (c = col)) as [->|Hne].
      * rewrite H2 by apply has_set. apply get_set_eq.
      * apply elem_of_cons in Hc as [?|Hc]; [done|].
        apply H3; [done|]. destruct (DF.has c (set_scalar _ _ _)) eqn:E; [|done].
        apply has_get in E as [w Hw]. unfold set_scalar in Hw.
        rewrite get_set_ne in Hw by done. apply get_has in Hw. congruence.
    + intros c Hc. destruct (H4 c Hc) as [Hs|Hs]; [|right; by right].
      destruct (decide (c = col)) as [->|Hne]; [right; left|left].
      apply has_get in Hs as [w Hw]. unfold set_scalar in Hw.
      rewrite get_set_ne in Hw by done. by apply get_has in Hw.
Qed.

(** X8.  The loop over [expected_cols] leaves every column of the loaded
    sheet as it is and keeps the number of rows.  Each expected column
    that was missing is there afterwards, holding 0 on every row when its
    label names an amount and "N/A" otherwise; no other column is
    added. *)
Theorem completar_columnas df :
  DF.nrows (completar df) = DF.nrows df
  /\ (forall c, DF.has c df = true -> DF.get c (completar df) = DF.get c df)
  /\ (forall c, c ∈ expected_cols -> DF.has c df = false ->
        DF.get c (completar df) = Ret (replicate (DF.nrows df) (relleno c)))
  /\ (forall c, DF.has c (completar df) = true
                <-> DF.has c df = true \/ c ∈ expected_cols).
Proof.
  destruct (completar_con_spec expected_cols df) as (H1 & H2 & H3 & H4).
  repeat split; try done.
  - apply H4.
  - intros [Hc|Hc].
    + destruct (has_get _ _ Hc) as [w Hw]. eapply get_has.
      unfold completar. by rewrite H2.
    + destruct (DF.has c df) eqn:E.
      * destruct (has_get _ _ E) as [w Hw]. eapply get_has.
        unfold completar. by rewrite H2.
      * eapply get_has. by apply H3.
Qed.

(** A cell that holds a number that is not nan. *)
Definition es_numero x : bool :=
  match x with
  | CInt _ => true
  | CFloat y => negb (Num.isnan y)
  | _ => false
  end.

Lemma coerce_numerico x :
  match coerce parse_number x with
  | CInt _ | CFloat _ => True
  | _ => False
  end.
Proof.
  destruct x as [s|z|y|]; simpl; try done.
  by destruct (parse_number s) as [[]|].
Qed.

Lemma a_numerico_numeros v : Forall (fun x => es_numero x = true)
                                    (a_numerico parse_number v).
Proof.
  unfold a_numerico, to_numeric, DF.fillna. cbv zeta.
  apply Forall_forall. intros x Hx.
  apply list_elem_of_fmap in Hx as [y [-> Hy]].
  assert (match y with CInt _ | CFloat _ => True | _ => False end) as Hy'.
  { destruct (forallb is_int (map (coerce parse_number) v)).
    - apply list_elem_of_fmap in Hy as [w [-> _]]. apply coerce_numerico.
    - apply list_elem_of_fmap in Hy as [w [-> Hw]].
      apply list_elem_of_fmap in Hw as [u [-> _]].
      pose proof (coerce_numerico u) as Hu.
      by destruct (coerce parse_number u). }
  destruct y as [s|z|[q| | |]|]; done.
Qed.

Lemma a_numerico_length v : length (a_numerico parse_number v) = length v.
Proof.
  unfold a_numerico, to_numeric, DF.fillna. cbv zeta.
  destruct (forallb _ _); by rewrite !length_map.
Qed.

(** A column of numbers can be read, and the reading has no nan. *)
Lemma to_nums_numeros v :
  Forall (fun x => es_numero x = true) v ->
  exists p, to_nums v = Ret p
            /\ length p = length v
            /\ Forall (fun y => Num.isnan y = false) p.
Proof.
  induction 1 as [|x v Hx _ (p & Hp & Hl & Hn)]; [by exists []|].
  destruct x as [s|z|y|]; try done; simpl; rewrite Hp; cbn [mbind py_bind].
  - exists (Num.of_Z z :: p). split; [done|]. split; [simpl; by rewrite Hl|].
    by constructor.
  - exists (y :: p). split; [done|]. split; [simpl; by rewrite Hl|].
    constructor; [|done]. by apply negb_true_iff.
Qed.

(** A column of the frame that holds numbers only. *)
Definition columna_limpia c df : Prop :=
  exists v, DF.get c df = Ret v /\ Forall (fun x => es_numero x = true) v.

Lemma montos_con_spec cols df :
  (forall c, c ∈ cols -> DF.has c df = true) ->
  DF.columns (montos_con parse_number cols df) = DF.columns df
  /\ (forall c, c ∉ cols ->
        DF.get c (montos_con parse_number cols df) = DF.get c df)
  /\ (forall c, columna_limpia c df ->
        columna_limpia c (montos_con parse_number cols df))
  /\ (forall c, c ∈ cols ->
        columna_limpia c (montos_con parse_number cols df)).
Proof.
  revert df. induction cols as [|col cols IH]; intros df Hcols.
  { simpl. repeat split; try done. by intros c ?%elem_of_nil. }
  change (montos_con parse_number (col :: cols) df)
    with (montos_con parse_number cols
            (DF.set col (columna_numerica parse_number col df) df)).
  assert (DF.has col df = true) as Hcol by (apply Hcols; left).
  set (df1 := DF.set col (columna_numerica parse_number col df) df).
  assert (columna_limpia col df1) as Hl1.
  { exists (columna_numerica parse_number col df).
    split; [apply get_set_eq|]. unfold columna_numerica.
    destruct (has_get _ _ Hcol) as [w ->]. apply a_numerico_numeros. }
  assert (forall c, columna_limpia c df -> columna_limpia c df1) as Hl.
  { intros c (w & Hw & Hn). destruct (decide (c = col)) as [->|Hne]; [done|].
    exists w. split; [|done]. unfold df1. by rewrite get_set_ne. }
  destruct (IH df1) as (H1 & H2 & H3 & H4).
  { intros c Hc. apply has_set_mono, Hcols. by right. }
  split; [|split; [|split]].
  - rewrite H1. by apply columns_set.
  - intros c Hc. apply not_elem_of_cons in Hc as [Hne Hc].
    rewrite H2 by done. by apply get_set_ne.
  - intros c Hc. by apply H3, Hl.
  - intros c [->|Hc]%elem_of_cons; [by apply H3|by apply H4].
Qed.

Lemma monto_cols_elem c df :
  c ∈ monto_cols df <-> DF.has c df = true /\ es_monto c = true.
Proof.
  unfold monto_cols. rewrite has_true.
  rewrite (list_elem_of_In (List.filter _ _)), filter_In.
  by rewrite <- list_elem_of_In.
Qed.

(** X9.  The loop over [monto_cols] keeps the labels of the frame and the
    columns whose label names no amount.  Every column whose label names
    an amount holds numbers only afterwards: it can be read as numbers and
    no value of it is nan. *)
Theorem montos_numericos df :
  DF.columns (montos parse_number df) = DF.columns df
  /\ (forall c, es_monto c = false ->
        DF.get c (montos parse_number df) = DF.get c df)
  /\ (forall c, DF.has c df = true -> es_monto c = true ->
        exists p, numeric c (montos parse_number df) = Ret p
                  /\ Forall (fun y => Num.isnan y = false) p).
Proof.
  destruct (montos_con_spec (monto_cols df) df) as (H1 & H2 & _ & H4).
  { intros c Hc. by apply monto_cols_elem in Hc as [? _]. }
  fold (montos parse_number df) in H1, H2, H4.
  split; [exact H1|]. split.
  - intros c Hc. apply H2. rewrite monto_cols_elem. intros [_ ?]. congruence.
  - intros c Hh Hm. destruct (H4 c) as (v & Hv & Hn).
    { by apply monto_cols_elem. }
    destruct (to_nums_numeros v Hn) as (p & Hp & _ & Hnan).
    exists p. split; [|done]. unfold numeric. by rewrite Hv.
Qed.

End Preparacion.

(** ** The indicators and tables on prepared data *)


Section SinExcepciones.

Import Ingreso.

Variable parse_number : string -> option cell.
Variable float_str : Q -> string.

Implicit Types (df : DataFrame) (v : Series) (c col : string) (x : cell)
  (m : list bool).

(** The amount columns that the page reads. *)
Definition columnas_de_monto : list string := List.filter es_monto expected_cols.

(** All of them hold numbers only. *)
Definition montos_legibles df : Prop :=
  Forall (fun c => columna_limpia c df) columnas_de_monto.

Lemma mask_filter_Forall {A} (P : A -> Prop) m (l : list A) :
  Forall P l -> Forall P (DF.mask_filter m l).
Proof.
  intros H. revert m. induction H as [|a l Ha _ IH]; intros [|b m]; simpl;
    try constructor.
  destruct b; [constructor|]; auto.
Qed.

Lemma columna_limpia_filter_rows m c df :
  columna_limpia c df -> columna_limpia c (DF.filter_rows m df).
Proof.
  intros (v & Hv & Hn). exists (DF.mask_filter m v).
  rewrite get_filter_rows, Hv. split; [done|]. by apply mask_filter_Forall.
Qed.

Lemma montos_legibles_filter_rows m df :
  montos_legibles df -> montos_legibles (DF.filter_rows m df).
Proof.
  unfold montos_legibles. intros H. eapply Forall_impl; [exact H|].
  intros c. apply columna_limpia_filter_rows.
Qed.



















End SinExcepciones.

(** ** The chain of filters *)

Section CadenaDeFiltros.

Import Ingreso.

Variable float_str : Q -> string.

Implicit Types (h : list DataFrame) (d : DataFrame) (col : string)
  (valor : cell) (s : seleccion).

(** What one filter computes, as a function of the frame alone. *)
Definition filtrar col valor d : DataFrame :=
  if negb (DF.has col d) || bool_decide (valor = CStr "Todos") then d
  else
    match DF.get col d with
    | Raise _ => d
    | Ret v =>
        let v' := map (normal float_str) v in
        DF.filter_rows (map (cell_is (Str.strip (Str.upper
                                        (astype_str float_str valor)))) v')
                       (DF.set col v' d)
    end.

Definition filtrar_varios (fs : list (string * cell)) d : DataFrame :=
  fold_left (fun d f => filtrar f.1 f.2 d) fs d.

(** The filter of the components, with its guard. *)
Definition filtrar_si col valor d : DataFrame :=
  if negb (DF.empty d) && DF.has col d then filtrar col valor d else d.

Definition ano_str s : cell := CStr (astype_str float_str (selected_ano s)).

(** The three views as functions of the prepared sheets. *)
Definition vista_kpis s d : DataFrame :=
  filtrar_varios
    ([("ANO", ano_str s); ("MES", selected_mes s);
      ("REGIMEN", selected_regimen s)] ++ geo_filters s) d.

Definition vista_tendencia s d : DataFrame :=
  filtrar_varios
    ([("ANO", ano_str s); ("REGIMEN", selected_regimen s)] ++ geo_filters s) d.

Definition vista_componentes s d : DataFrame :=
  filtrar_si "REGIMEN" (selected_regimen s)
    (filtrar_si "MES" (selected_mes s) (filtrar_si "ANO" (ano_str s) d)).

(** The store [h] extends [h0], whose frames it keeps, and holds three
    different frames made later. *)
Record estado (h0 h : list DataFrame) (k t c : nat) (K T C : DataFrame)
  : Prop := Estado {
  est_previos : forall i, (i < length h0)%nat -> h !! i = h0 !! i;
  est_k : h !! k = Some K;
  est_t : h !! t = Some T;
  est_c : h !! c = Some C;
  est_nuevos : (length h0 <= k /\ length h0 <= t /\ length h0 <= c)%nat;
  est_distintos : k <> t /\ k <> c /\ t <> c
}.

Lemma estado_kt h0 h k t c K T C :
  estado h0 h k t c K T C -> estado h0 h t k c T K C.
Proof. intros [H1 H2 H3 H4 (?&?&?) (?&?&?)]. by split. Qed.

Lemma estado_kc h0 h k t c K T C :
  estado h0 h k t c K T C -> estado h0 h c t k C T K.
Proof. intros [H1 H2 H3 H4 (?&?&?) (?&?&?)]. by split. Qed.

(** One call of the filter on the first frame of the state. *)
Lemma paso_filtro h0 h k t c K T C col valor :
  estado h0 h k t c K T C ->
  exists r,
    aplicar_filtro_select float_str h k col valor = Some r
    /\ estado h0 r.1 r.2 t c (filtrar col valor K) T C.
Proof.
  intros [H1 H2 H3 H4 (N1 & N2 & N3) (D1 & D2 & D3)].
  pose proof (lookup_lt_Some _ _ _ H2) as Lk.
  pose proof (lookup_lt_Some _ _ _ H3) as Lt.
  pose proof (lookup_lt_Some _ _ _ H4) as Lc.
  unfold filtrar.
  destruct (negb (DF.has col K) || bool_decide (valor = CStr "Todos")) eqn:E.
  - exists (h, k). split; [|by split].
    apply (aplicar_filtro_select_sin_efecto float_str h k K col valor H2).
    apply orb_true_iff in E as [E|E].
    + right. by apply negb_true_iff.
    + left. by apply bool_decide_eq_true in E.
  - apply orb_false_iff in E as [E1 E2].
    apply negb_false_iff in E1. apply bool_decide_eq_false in E2.
    destruct (has_get _ _ E1) as [v Hv]. rewrite Hv.
    eexists. split.
    { apply (aplicar_filtro_select_activo float_str h k K col valor v H2 Hv E2). }
    cbv zeta. split; cbn [fst snd].
    + intros i Hi. rewrite lookup_app_l by (rewrite length_insert; lia).
      rewrite list_lookup_insert_ne by lia. by apply H1.
    + rewrite lookup_app_r by (rewrite length_insert; lia).
      rewrite length_insert, Nat.sub_diag. reflexivity.
    + rewrite lookup_app_l by (rewrite length_insert; lia).
      by rewrite list_lookup_insert_ne.
    + rewrite lookup_app_l by (rewrite length_insert; lia).
      by rewrite list_lookup_insert_ne.
    + lia.
    + lia.
Qed.

Lemma paso_tendencia h0 h k t c K T C col valor :
  estado h0 h k t c K T C ->
  exists r,
    aplicar_filtro_select float_str h t col valor = Some r
    /\ estado h0 r.1 k r.2 c K (filtrar col valor T) C.
Proof.
  intros Hest%estado_kt.
  destruct (paso_filtro _ _ _ _ _ _ _ _ col valor Hest) as (r & E & Hest').
  exists r. split; [exact E|]. by apply estado_kt.
Qed.

Lemma paso_componentes h0 h k t c K T C col valor :
  estado h0 h k t c K T C ->
  exists r,
    filtro_componentes float_str h c col valor = Some r
    /\ estado h0 r.1 k t r.2 K T (filtrar_si col valor C).
Proof.
  intros Hest. unfold filtro_componentes, filtrar_si.
  rewrite (est_c _ _ _ _ _ _ _ _ Hest). cbn [mbind option_bind].
  destruct (negb (DF.empty C) && DF.has col C).
  - destruct (paso_filtro _ _ _ _ _ _ _ _ col valor
                (estado_kc _ _ _ _ _ _ _ _ Hest)) as (r & E & Hest').
    exists r. split; [exact E|]. by apply estado_kc.
  - by exists (h, c).
Qed.

(** Sequencing: a step that succeeds with [Q], then a rest that succeeds
    with [R] from any result with [Q]. *)
Lemma seguido {A B} (m : option A) (f : A -> option B)
    (Q : A -> Prop) (R : B -> Prop) :
  (exists a, m = Some a /\ Q a) ->
  (forall a, Q a -> exists b, f a = Some b /\ R b) ->
  exists b, (m ≫= f) = Some b /\ R b.
Proof. intros (a & -> & Ha) Hf. exact (Hf a Ha). Qed.

Lemma paso_geo fs h0 h k t c K T C :
  estado h0 h k t c K T C ->
  exists r,
    filtros_geo float_str fs h k t = Some r
    /\ estado h0 r.1 r.2.1 r.2.2 c
              (filtrar_varios fs K) (filtrar_varios fs T) C.
Proof.
  revert h k t K T. induction fs as [|[col v] fs IH]; intros h k t K T Hest.
  { by exists (h, (k, t)). }
  change (filtros_geo float_str ((col, v) :: fs) h k t)
    with (aplicar_filtro_select float_str h k col v ≫= fun r1 =>
          aplicar_filtro_select float_str r1.1 t col v ≫= fun r2 =>
          filtros_geo float_str fs r2.1 r1.2 r2.2).
  eapply seguido; [exact (paso_filtro _ _ _ _ _ _ _ _ col v Hest)|].
  intros r1 H1.
  eapply seguido; [exact (paso_tendencia _ _ _ _ _ _ _ _ col v H1)|].
  intros r2 H2. exact (IH _ _ _ _ _ H2).
Qed.

Lemma copy_spec h r d :
  h !! r = Some d ->
  exists x, copy h r = Some x /\ x = (h ++ [d], length h).
Proof. intros H. unfold copy. rewrite H. by eexists. Qed.

Lemma copias h p c P C :
  h !! p = Some P -> h !! c = Some C ->
  estado h (((h ++ [P]) ++ [C]) ++ [P]) (length h)
         (length ((h ++ [P]) ++ [C])) (length (h ++ [P])) P P C.
Proof.
  intros Hp Hc. rewrite !length_app. cbn [length].
  assert (((h ++ [P]) ++ [C]) ++ [P] = h ++ [P; C; P]) as ->
    by (by rewrite <- !app_assoc).
  split.
  - intros i Hi. by rewrite lookup_app_l.
  - rewrite lookup_app_r by lia. by rewrite Nat.sub_diag.
  - rewrite lookup_app_r by lia.
    by replace (length h + 1 + 1 - length h)%nat with 2%nat by lia.
  - rewrite lookup_app_r by lia.
    by replace (length h + 1 - length h)%nat with 1%nat by lia.
  - lia.
  - lia.
Qed.

Lemma vista_kpis_eq s d :
  vista_kpis s d
  = filtrar_varios (geo_filters s)
      (filtrar "REGIMEN" (selected_regimen s)
         (filtrar "MES" (selected_mes s) (filtrar "ANO" (ano_str s) d))).
Proof.
  unfold vista_kpis, filtrar_varios. rewrite fold_left_app. reflexivity.
Qed.

Lemma vista_tendencia_eq s d :
  vista_tendencia s d
  = filtrar_varios (geo_filters s)
      (filtrar "REGIMEN" (selected_regimen s) (filtrar "ANO" (ano_str s) d)).
Proof.
  unfold vista_tendencia, filtrar_varios. rewrite fold_left_app. reflexivity.
Qed.

(** The chain of filters, call by call. *)
Lemma aplicar_filtros_estado h p c P C s :
  h !! p = Some P -> h !! c = Some C ->
  exists b,
    aplicar_filtros float_str h p c s = Some b
    /\ estado h b.1 b.2.1.1 b.2.1.2 b.2.2
              (vista_kpis s P) (vista_tendencia s P) (vista_componentes s C).
Proof.
  intros Hp Hc. unfold aplicar_filtros.
  eapply seguido; [exact (copy_spec h p P Hp)|]. intros x1 ->.
  eapply seguido;
    [exact (copy_spec _ c C (lookup_app_l_Some _ _ _ _ Hc))|]. intros x2 ->.
  eapply seguido;
    [exact (copy_spec _ p P
              (lookup_app_l_Some _ _ _ _ (lookup_app_l_Some _ _ _ _ Hp)))|].
  intros x3 ->.
  pose proof (copias h p c P C Hp Hc) as H0.
  eapply seguido; [exact (paso_filtro _ _ _ _ _ _ _ _ "ANO" (ano_str s) H0)|].
  intros r1 H1.
  eapply seguido; [exact (paso_tendencia _ _ _ _ _ _ _ _ "ANO" (ano_str s) H1)|].
  intros r2 H2.
  eapply seguido;
    [exact (paso_componentes _ _ _ _ _ _ _ _ "ANO" (ano_str s) H2)|].
  intros r3 H3.
  eapply seguido;
    [exact (paso_filtro _ _ _ _ _ _ _ _ "MES" (selected_mes s) H3)|].
  intros r4 H4.
  eapply seguido;
    [exact (paso_componentes _ _ _ _ _ _ _ _ "MES" (selected_mes s) H4)|].
  intros r5 H5.
  eapply seguido;
    [exact (paso_filtro _ _ _ _ _ _ _ _ "REGIMEN" (selected_regimen s) H5)|].
  intros r6 H6.
  eapply seguido;
    [exact (paso_tendencia _ _ _ _ _ _ _ _ "REGIMEN" (selected_regimen s) H6)|].
  intros r7 H7.
  eapply seguido;
    [exact (paso_componentes _ _ _ _ _ _ _ _ "REGIMEN" (selected_regimen s) H7)|].
  intros r8 H8.
  destruct (paso_geo (geo_filters s) _ _ _ _ _ _ _ _ H8) as (r9 & E9 & H9).
  rewrite E9. eexists. split; [reflexivity|].
  rewrite vista_kpis_eq, vista_tendencia_eq. unfold vista_componentes.
  cbn [fst snd]. exact H9.
Qed.

(** X11.  The chain of filters, run on a store that holds the two prepared
    sheets, changes no frame that the store held before: the sheets
    themselves are never modified, only copies are.  The three frames it
    returns are what the filters compute one after the other: year, month,
    régimen and the ten geographic filters for the KPIs view; the same
    without the month for the trend view; year, month and régimen, each
    under its guard, for the components. *)
Theorem aplicar_filtros_vistas h p c P C s :
  h !! p = Some P -> h !! c = Some C ->
  exists h' k t c',
    aplicar_filtros float_str h p c s = Some (h', (k, t, c'))
    /\ (forall i, (i < length h)%nat -> h' !! i = h !! i)
    /\ h' !! k = Some (vista_kpis s P)
    /\ h' !! t = Some (vista_tendencia s P)
    /\ h' !! c' = Some (vista_componentes s C).
Proof.
  intros Hp Hc.
  destruct (aplicar_filtros_estado h p c P C s Hp Hc)
    as ([h' [[k t] c']] & E & [G1 G2 G3 G4 _ _]).
  exists h', k, t, c'. split; [exact E|].
  split; [exact G1|]. split; [exact G2|]. split; [exact G3|exact G4].
Qed.

(** The selections with another month. *)
Definition con_mes s (mes : cell) : seleccion :=
  {| selected_ano := selected_ano s; selected_mes := mes;
     selected_regimen := selected_regimen s;
     sel_region := sel_region s; sel_depto := sel_depto s;
     sel_mun := sel_mun s; sel_regional := sel_regional s;
     sel_zonal := sel_zonal s; sel_provincia := sel_provincia s;
     sel_cat_depto := sel_cat_depto s; sel_cat_mun := sel_cat_mun s;
     sel_desc_zona := sel_desc_zona s; sel_subregion := sel_subregion s |}.

Lemma vista_tendencia_con_mes s mes d :
  vista_tendencia (con_mes s mes) d = vista_tendencia s d.
Proof.
  destruct s. unfold vista_tendencia, ano_str, geo_filters, con_mes.
  cbn [selected_ano selected_mes selected_regimen sel_region sel_depto
       sel_mun sel_regional sel_zonal sel_provincia sel_cat_depto
       sel_cat_mun sel_desc_zona sel_subregion].
  reflexivity.
Qed.

(** X12.  The month that is selected has no effect on the frame of the
    trend chart: with any other month, and everything else the same, the
    chain of filters returns a trend frame with the same content. *)
Theorem tendencia_ignora_el_mes h p c P C s mes :
  h !! p = Some P -> h !! c = Some C ->
  exists h1 k1 t1 c1 h2 k2 t2 c2 T,
    aplicar_filtros float_str h p c s = Some (h1, (k1, t1, c1))
    /\ aplicar_filtros float_str h p c (con_mes s mes) = Some (h2, (k2, t2, c2))
    /\ h1 !! t1 = Some T /\ h2 !! t2 = Some T.
Proof.
  intros Hp Hc.
  destruct (aplicar_filtros_estado h p c P C s Hp Hc)
    as ([h1 [[k1 t1] c1]] & E1 & [_ _ T1 _ _ _]).
  destruct (aplicar_filtros_estado h p c P C (con_mes s mes) Hp Hc)
    as ([h2 [[k2 t2] c2]] & E2 & [_ _ T2 _ _ _]).
  cbn [fst snd] in T1, T2. rewrite vista_tendencia_con_mes in T2.
  exists h1, k1, t1, c1, h2, k2, t2, c2, (vista_tendencia s P).
  split; [exact E1|]. split; [exact E2|]. split; [exact T1|exact T2].
Qed.

Lemma columns_filtrar col valor d :
  DF.columns (filtrar col valor d) = DF.columns d.
Proof.
  unfold filtrar.
  destruct (negb (DF.has col d) || bool_decide (valor = CStr "Todos")) eqn:E;
    [done|].
  apply orb_false_iff in E as [E _]. apply negb_false_iff in E.
  destruct (DF.get col d); [|done]. cbv zeta.
  rewrite columns_filter_rows. by apply columns_set.
Qed.




Section ConParse.

Variable parse_number : string -> option cell.



End ConParse.

End CadenaDeFiltros.

(** ** The options of a select box *)

Section Opciones.

Import Ingreso.

Variable float_str : Q -> string.

Implicit Types (h : list DataFrame) (d df : DataFrame) (col : string)
  (v opts : Series) (k valor : cell).

Lemma valores_elem v k :
  k ∈ valores v <-> k ∈ v /\ isna k = false /\ k <> CStr "N/A".
Proof.
  unfold valores. rewrite (list_elem_of_In (List.filter _ _)), filter_In.
  rewrite <- list_elem_of_In, distinct_elem, negb_true_iff.
  unfold cell_is. rewrite bool_decide_eq_false. split.
  - by intros ((? & ? & _) & ?).
  - intros (? & ? & ?). repeat split; try done. apply not_elem_of_nil.
Qed.

Lemma valores_nodup v : NoDup (valores v).
Proof.
  unfold valores. apply NoDup_ListNoDup, List.NoDup_filter, NoDup_ListNoDup.
  apply distinct_nodup.
Qed.

Lemma forallb_false {A} (f : A -> bool) (l : list A) :
  forallb f l = false -> exists a, a ∈ l /\ f a = false.
Proof.
  induction l as [|a l IH]; simpl; [done|].
  destruct (f a) eqn:E; simpl.
  - intros (b & Hb & Eb)%IH. exists b. split; [by right|done].
  - intros _. exists a. split; [left|done].
Qed.

Lemma py_sorted_ok (l sorted : list cell) :
  Forall (fun c => isna c = false) l ->
  Ingreso.py_sorted l = Ret sorted ->
  sorted ≡ₚ l /\ Sorted (fun a b => GroupBy.key_leb a b = true) sorted.
Proof.
  intros Hl. unfold py_sorted. destruct (_ || _); [|done].
  intros [= <-]. split; [apply sort_by_perm|].
  apply (sort_by_sorted GroupBy.key_leb (fun c => isna c = false));
    [|exact Hl].
  intros a b. apply key_leb_total.
Qed.

(** An option other than "Todos" is a value of the column. *)
Lemma opcion_en_columna df col opts valor :
  get_select_options df col = Ret opts ->
  valor ∈ opts -> valor <> CStr "Todos" ->
  exists v, DF.get col df = Ret v /\ valor ∈ v.
Proof.
  unfold get_select_options. destruct (DF.has col df) eqn:Hh; simpl.
  2: { intros [= <-] [?|?%elem_of_nil]%elem_of_cons; done. }
  destruct (has_get _ _ Hh) as [v Hv]. rewrite Hv.
  unfold py_sorted. destruct (_ || _); [|done]. cbn [mbind py_bind].
  intros [= <-] [?|Hin]%elem_of_cons Hne; [done|].
  rewrite sort_by_elem in Hin. apply valores_elem in Hin as [Hin _].
  by exists v.
Qed.

(** X15.  The options that [get_select_options] returns start with
    "Todos".  The others are the values of the column that are neither
    null nor "N/A", each one once, in ascending order.  For a column that
    the frame does not have, "Todos" is the only option. *)
Theorem get_select_options_opciones df col opts :
  get_select_options df col = Ret opts ->
  exists resto,
    opts = CStr "Todos" :: resto
    /\ NoDup resto
    /\ Sorted (fun a b => GroupBy.key_leb a b = true) resto
    /\ (DF.has col df = false -> resto = [])
    /\ (forall v, DF.get col df = Ret v ->
          forall k, k ∈ resto
                    <-> k ∈ v /\ isna k = false /\ k <> CStr "N/A").
Proof.
  unfold get_select_options. destruct (DF.has col df) eqn:Hh; simpl.
  2: { intros [= <-]. exists []. split; [done|]. split; [constructor|].
       split; [constructor|]. split; [done|].
       intros v Hv. apply get_has in Hv. congruence. }
  destruct (has_get _ _ Hh) as [v Hv]. rewrite Hv.
  destruct (py_sorted (valores v)) as [sorted|] eqn:Es; [|done].
  cbn [mbind py_bind]. intros [= <-]. exists sorted.
  destruct (py_sorted_ok (valores v) sorted) as [Hp Hs]; [|done|].
  { apply Forall_forall. intros k Hk. by apply valores_elem in Hk as (_ & ? & _). }
  split; [done|]. split; [rewrite Hp; apply valores_nodup|].
  split; [exact Hs|]. split; [done|].
  intros v' [= <-] k. rewrite Hp. apply valores_elem.
Qed.

(** X16.  [get_select_options] raises an exception only when the column
    holds a text and a number among its usable values, which [sorted]
    cannot compare; the exception is then TypeError.  A missing column
    raises nothing. *)
Theorem get_select_options_error df col e :
  get_select_options df col = Raise e
  <-> e = TypeError
      /\ exists v a b,
           DF.get col df = Ret v
           /\ a ∈ valores v /\ b ∈ valores v
           /\ es_texto a = true /\ es_texto b = false.
Proof.
  unfold get_select_options. destruct (DF.has col df) eqn:Hh; simpl.
  2: { split; [done|]. intros (_ & v & a & b & Hv & _).
       apply get_has in Hv. congruence. }
  destruct (has_get _ _ Hh) as [v Hv]. rewrite Hv.
  unfold py_sorted.
  destruct (forallb es_texto (valores v)) eqn:E1; simpl.
  { split; [done|]. intros (_ & v' & a & b & [= <-] & _ & Hb & _ & Eb).
    rewrite forallb_forall in E1. apply list_elem_of_In in Hb.
    rewrite (E1 b Hb) in Eb. done. }
  destruct (forallb (fun c => negb (es_texto c)) (valores v)) eqn:E2; simpl.
  { split; [done|]. intros (_ & v' & a & b & [= <-] & Ha & _ & Ea & _).
    rewrite forallb_forall in E2. apply list_elem_of_In in Ha.
    specialize (E2 a Ha). rewrite Ea in E2. done. }
  split.
  - intros [= <-]. split; [done|].
    destruct (forallb_false es_texto (valores v) E1) as (b & Hb & Eb).
    destruct (forallb_false (fun c => negb (es_texto c)) (valores v) E2)
      as (a & Ha & Ea).
    apply negb_false_iff in Ea. by exists v, a, b.
  - by intros [-> _].
Qed.

(** X17.  An option that [get_select_options] offers for a column, other
    than "Todos", never selects an empty frame: the filter on that column
    returns a frame with at least one row, and all its rows hold the
    selected value in normal form. *)
Theorem opcion_ofrecida_no_vacia h (ref : nat) d col opts valor :
  h !! ref = Some d ->
  get_select_options d col = Ret opts ->
  valor ∈ opts -> valor <> CStr "Todos" ->
  exists h' r d' v',
    aplicar_filtro_select float_str h ref col valor = Some (h', r)
    /\ h' !! r = Some d'
    /\ DF.get col d' = Ret v'
    /\ v' <> []
    /\ Forall (fun c => c = normal float_str valor) v'.
Proof.
  intros Hd Ho Hin Hne.
  destruct (opcion_en_columna d col opts valor Ho Hin Hne) as (v & Hv & Hv').
  clear Hin. rename Hv' into Hin.
  eexists _, _, _, _. split.
  { apply (aplicar_filtro_select_activo float_str h ref d col valor v Hd Hv Hne). }
  cbv zeta. split.
  { rewrite lookup_app_r by (rewrite length_insert; lia).
    rewrite length_insert, Nat.sub_diag. reflexivity. }
  split.
  { rewrite get_filter_rows, get_set_eq. reflexivity. }
  split.
  - assert (normal float_str valor
            ∈ DF.mask_filter
                (map (fun c => bool_decide (c = normal float_str valor))
                     (map (normal float_str) v))
                (map (normal float_str) v)) as H.
    { apply mask_filter_elem; [|by apply bool_decide_eq_true].
      by apply list_elem_of_fmap_2. }
    intros E. rewrite E in H. by apply elem_of_nil in H.
  - eapply Forall_impl; [apply mask_filter_self|].
    intros c Hc. by apply bool_decide_eq_true in Hc.
Qed.

End Opciones.

(** A store with the two sheets and a selection: the month ENE, nothing
    else. *)
Definition ej_hojas : list DataFrame := [ej_escenario; ej_componentes].

Definition ej_seleccion : Ingreso.seleccion :=
  {| Ingreso.selected_ano := CInt 2025;
     Ingreso.selected_mes := CStr "ENE";
     Ingreso.selected_regimen := CStr "Todos";
     Ingreso.sel_region := CStr "Todos";
     Ingreso.sel_depto := CStr "Todos";
     Ingreso.sel_mun := CStr "Todos";
     Ingreso.sel_regional := CStr "Todos";
     Ingreso.sel_zonal := CStr "Todos";
     Ingreso.sel_provincia := CStr "Todos";
     Ingreso.sel_cat_depto := CStr "Todos";
     Ingreso.sel_cat_mun := CStr "Todos";
     Ingreso.sel_desc_zona := CStr "Todos";
     Ingreso.sel_subregion := CStr "Todos" |}.

(** The KPIs view keeps the two rows of ENE; the trend view keeps all. *)
Example ej_vistas :
  vista_kpis float_str_ejemplos ej_seleccion ej_escenario
  = [("MES", [CStr "ENE"; CStr "ENE"]);
     ("TOTAL_PRESUPUESTO", [CInt 100; CInt 50]);
     ("TOTAL_EJECUTADO", [CInt 80; CInt 60])]
  /\ vista_tendencia float_str_ejemplos ej_seleccion ej_escenario
     = ej_escenario.
Proof. split; vm_compute; reflexivity. Qed.

Lemma aplicar_filtros_vistas_ejemplo :
  exists h' k t c',
    Ingreso.aplicar_filtros float_str_ejemplos ej_hojas 0 1 ej_seleccion
    = Some (h', (k, t, c'))
    /\ (forall i, (i < length ej_hojas)%nat -> h' !! i = ej_hojas !! i)
    /\ h' !! k = Some (vista_kpis float_str_ejemplos ej_seleccion ej_escenario)
    /\ h' !! t
       = Some (vista_tendencia float_str_ejemplos ej_seleccion ej_escenario)
    /\ h' !! c'
       = Some (vista_componentes float_str_ejemplos ej_seleccion
                 ej_componentes).
Proof.
  exact (aplicar_filtros_vistas float_str_ejemplos ej_hojas 0 1
           ej_escenario ej_componentes ej_seleccion eq_refl eq_refl).
Defined.

Lemma tendencia_ignora_el_mes_ejemplo :
  exists h1 k1 t1 c1 h2 k2 t2 c2 T,
    Ingreso.aplicar_filtros float_str_ejemplos ej_hojas 0 1 ej_seleccion
    = Some (h1, (k1, t1, c1))
    /\ Ingreso.aplicar_filtros float_str_ejemplos ej_hojas 0 1
         (con_mes ej_seleccion (CStr "FEB"))
       = Some (h2, (k2, t2, c2))
    /\ h1 !! t1 = Some T /\ h2 !! t2 = Some T.
Proof.
  exact (tendencia_ignora_el_mes float_str_ejemplos ej_hojas 0 1
           ej_escenario ej_componentes ej_seleccion (CStr "FEB")
           eq_refl eq_refl).
Defined.

Lemma get_select_options_opciones_ejemplo :
  exists resto,
    [CStr "Todos"; CStr "CARIBE"] = CStr "Todos" :: resto
    /\ NoDup resto
    /\ Sorted (fun a b => GroupBy.key_leb a b = true) resto
    /\ (DF.has "REGIONAL" ej_regional = false -> resto = [])
    /\ (forall v, DF.get "REGIONAL" ej_regional = Ret v ->
          forall k, k ∈ resto
                    <-> k ∈ v /\ isna k = false /\ k <> CStr "N/A").
Proof.
  exact (get_select_options_opciones ej_regional "REGIONAL"
           [CStr "Todos"; CStr "CARIBE"] eq_refl).
Defined.

Lemma opcion_ofrecida_no_vacia_ejemplo :
  exists h' r d' v',
    Ingreso.aplicar_filtro_select float_str_ejemplos [ej_regional] 0
      "REGIONAL" (CStr "CARIBE") = Some (h', r)
    /\ h' !! r = Some d'
    /\ DF.get "REGIONAL" d' = Ret v'
    /\ v' <> []
    /\ Forall (fun c => c = normal float_str_ejemplos (CStr "CARIBE")) v'.
Proof.
  apply (opcion_ofrecida_no_vacia float_str_ejemplos [ej_regional] 0
           ej_regional "REGIONAL" [CStr "Todos"; CStr "CARIBE"]
           (CStr "CARIBE") eq_refl eq_refl).
  - right. left.
  - discriminate.
Defined.

(** ** The filters of the population page *)

Section FiltrosPoblacion.

Import Poblacion.

Implicit Types (df d : DataFrame) (col : string) (sel : cell) (s : seleccion)
  (v : Series).

(** What one filter keeps, as a function of the frame alone: all of it
    for the selection 'TODOS' or a missing column. *)
Definition acotar col sel df : DataFrame :=
  if bool_decide (sel = CStr "TODOS") then df
  else
    match DF.get col df with
    | Ret v => DF.filter_rows (map (cell_eq sel) v) df
    | Raise _ => df
    end.

Lemma filter_rows_twice m1 m2 df :
  DF.filter_rows m2 (DF.filter_rows m1 df)
  = map (fun p => (p.1, DF.mask_filter m2 (DF.mask_filter m1 p.2))) df.
Proof. unfold DF.filter_rows. rewrite map_map. done. Qed.

(** Two row selections read from two columns can be made in either
    order. *)
Lemma mask_filter_comm {A} (f g : cell -> bool) (va vb : Series) (x : list A) :
  DF.mask_filter (map g (DF.mask_filter (map f va) vb))
                 (DF.mask_filter (map f va) x)
  = DF.mask_filter (map f (DF.mask_filter (map g vb) va))
                   (DF.mask_filter (map g vb) x).
Proof.
  revert vb x. induction va as [|a va IH]; intros vb x.
  { simpl. rewrite ?mask_filter_nil. done. }
  destruct vb as [|b vb].
  { simpl. rewrite ?mask_filter_nil. done. }
  destruct x as [|c x].
  { rewrite ?mask_filter_nil. simpl. rewrite ?mask_filter_nil. done. }
  simpl. destruct (f a) eqn:Ea, (g b) eqn:Eb; simpl; rewrite ?Ea, ?Eb; simpl;
    by rewrite IH.
Qed.

Lemma acotar_columns col sel df : DF.columns (acotar col sel df) = DF.columns df.
Proof.
  unfold acotar. destruct (bool_decide _); [done|].
  destruct (DF.get col df); [|done]. apply columns_filter_rows.
Qed.

Lemma acotar_comm c1 (x1 : cell) c2 (x2 : cell) df :
  acotar c1 x1 (acotar c2 x2 df) = acotar c2 x2 (acotar c1 x1 df).
Proof.
  unfold acotar.
  destruct (bool_decide (x1 = CStr "TODOS")), (bool_decide (x2 = CStr "TODOS"));
    try done.
  destruct (DF.get c1 df) as [v1|e1] eqn:E1, (DF.get c2 df) as [v2|e2] eqn:E2;
    rewrite ?get_filter_rows, ?E1, ?E2; try done.
  rewrite !filter_rows_twice. apply map_ext. intros p. f_equal.
  symmetry. apply mask_filter_comm.
Qed.

Lemma filtro_widget_acotar o col sel d d' :
  filtro_widget o col sel d = Ret d' ->
  DF.has col d = true /\ d' = acotar col sel d.
Proof.
  unfold filtro_widget, leer_opciones, donde, acotar.
  destruct (DF.get col d) as [v|] eqn:E; [|done]. cbn [mbind py_bind].
  destruct (o || ordenable (unique [] v)); [|done]. cbn [mbind py_bind].
  apply get_has in E. destruct (bool_decide _); by intros [= <-].
Qed.

Lemma has_acotar c col sel df : DF.has c (acotar col sel df) = DF.has c df.
Proof. unfold DF.has. by rewrite acotar_columns. Qed.

Lemma filtro_estado_acotar col sel df :
  DF.has col df = true -> filtro_estado col sel df = Ret (acotar col sel df).
Proof.
  intros [v Hv]%has_get. unfold filtro_estado, donde, acotar. rewrite Hv.
  by destruct (bool_decide _).
Qed.

Lemma filtros_activos_acotar fs df :
  Forall (fun f => DF.has f.1 df = true) fs ->
  filtros_activos fs df
  = Ret (fold_left (fun d f => acotar f.1 f.2 d) fs df).
Proof.
  intros H. revert df H. induction fs as [|[col sel] fs IH]; intros df H; [done|].
  apply Forall_cons in H as [Hc H]. simpl in Hc.
  cbn [filtros_activos fold_left fst snd].
  assert (Forall (fun f => DF.has f.1 (acotar col sel df) = true) fs) as H'.
  { eapply Forall_impl; [exact H|]. intros f Hf. by rewrite has_acotar. }
  rewrite Hc, andb_true_r. unfold acotar at 2. unfold acotar in H'.
  destruct (bool_decide (sel = CStr "TODOS")); simpl.
  - by apply IH.
  - destruct (has_get _ _ Hc) as [v Hv]. unfold donde. rewrite Hv in *.
    cbn [mbind py_bind]. by apply IH.
Qed.

(** X18.  When the eight filters of the population page return, the frame
    behind the monthly chart and the monthly table is computed too, and
    the filtered frame of the KPIs and the other tables is that frame
    narrowed by the selected month and the selected sub-region: the
    monthly views take neither of the two into account. *)
Theorem df_filtered_acota_el_historico s df F :
  df_filtered s df = Ret F ->
  exists G,
    df_chart_data_all_months s df = Ret G
    /\ F = acotar "MES" (selected_mes s)
             (acotar "SUBREGIÓN" (selected_subregion s) G).
Proof.
  unfold df_filtered. intros H.
  destruct (filtro_widget false "ANO" _ df) as [d1|] eqn:E1; [|done].
  cbn [mbind py_bind] in H.
  destruct (filtro_widget true "MES" _ d1) as [d2|] eqn:E2; [|done].
  cbn [mbind py_bind] in H.
  destruct (filtro_widget false "REGIMEN" _ d2) as [d3|] eqn:E3; [|done].
  cbn [mbind py_bind] in H.
  destruct (filtro_widget false "REGIÓN" _ d3) as [d4|] eqn:E4; [|done].
  cbn [mbind py_bind] in H.
  destruct (filtro_widget false "REGIONAL" _ d4) as [d5|] eqn:E5; [|done].
  cbn [mbind py_bind] in H.
  destruct (filtro_widget false "SUBREGIÓN" _ d5) as [d6|] eqn:E6; [|done].
  cbn [mbind py_bind] in H.
  destruct (filtro_widget false "DEPARTAMENTO" _ d6) as [d7|] eqn:E7; [|done].
  cbn [mbind py_bind] in H.
  apply filtro_widget_acotar in E1 as [C1 ->], E2 as [C2 ->], E3 as [C3 ->],
    E4 as [C4 ->], E5 as [C5 ->], E6 as [C6 ->], E7 as [C7 ->],
    H as [C8 ->].
  rewrite ?has_acotar in *.
  unfold df_chart_data_all_months.
  rewrite (filtro_estado_acotar _ _ _ C1). cbn [mbind py_bind].
  rewrite filtro_estado_acotar by (by rewrite has_acotar).
  cbn [mbind py_bind].
  rewrite filtros_activos_acotar.
  2: { repeat constructor; cbn [fst]; by rewrite !has_acotar. }
  eexists. split; [reflexivity|].
  unfold geo_filters_active. cbn [fold_left fst snd].
  set (a1 := acotar "ANO" (selected_ano s)).
  set (a2 := acotar "MES" (selected_mes s)).
  set (a3 := acotar "REGIMEN" (selected_regimen s)).
  set (a4 := acotar "REGIÓN" (selected_region s)).
  set (a5 := acotar "REGIONAL" (selected_regional s)).
  set (a6 := acotar "SUBREGIÓN" (selected_subregion s)).
  set (a7 := acotar "DEPARTAMENTO" (selected_departamento s)).
  set (a8 := acotar "MUNICIPIO" (selected_municipio s)).
  assert (forall d, acotar "SUBREGIÓN" (CStr "TODOS") d = d) as Hid by done.
  rewrite Hid.
  (* the month and the sub-region move to the outside *)
  transitivity (a2 (a8 (a7 (a6 (a5 (a4 (a3 (a1 df)))))))).
  { unfold a2, a3, a4, a5, a6, a7, a8.
    rewrite (acotar_comm "REGIMEN" _ "MES").
    rewrite (acotar_comm "REGIÓN" _ "MES").
    rewrite (acotar_comm "REGIONAL" _ "MES").
    rewrite (acotar_comm "SUBREGIÓN" _ "MES").
    rewrite (acotar_comm "DEPARTAMENTO" _ "MES").
    rewrite (acotar_comm "MUNICIPIO" _ "MES"). reflexivity. }
  f_equal. unfold a6, a7, a8.
  rewrite (acotar_comm "DEPARTAMENTO" _ "SUBREGIÓN").
  rewrite (acotar_comm "MUNICIPIO" _ "SUBREGIÓN"). reflexivity.
Qed.



End FiltrosPoblacion.

(** ** The composition by régimen *)

Section ComposicionPorRegimen.

Import Poblacion.

Implicit Types (df : DataFrame) (ks : Series) (qs qb : list Q) (k : cell).

(** The rational that a finite value holds. *)
Definition valor (x : num) : Q := match x with Fin q => q | _ => 0%Q end.







End ComposicionPorRegimen.

(** A loaded population frame: two months of 2025 in two sub-regions. *)
Definition ej_poblacion_cargada : DataFrame :=
  [("ANO", [CStr "2025"; CStr "2025"; CStr "2025"]);
   ("MES", [CStr "ENERO"; CStr "FEBRERO"; CStr "ENERO"]);
   ("REGIMEN", [CStr "CONTRIBUTIVO"; CStr "CONTRIBUTIVO"; CStr "SUBSIDIADO"]);
   ("REGIÓN", [CStr "CARIBE"; CStr "CARIBE"; CStr "CARIBE"]);
   ("REGIONAL", [CStr "NORTE"; CStr "NORTE"; CStr "NORTE"]);
   ("SUBREGIÓN", [CStr "A"; CStr "A"; CStr "B"]);
   ("DEPARTAMENTO", [CStr "ATLANTICO"; CStr "ATLANTICO"; CStr "BOLIVAR"]);
   ("MUNICIPIO", [CStr "X"; CStr "X"; CStr "Y"]);
   ("PRESUPUESTO", [CInt 100; CInt 100; CInt 50]);
   ("POBLACION_BDUA", [CInt 30; CInt 50; CInt 20]);
   ("POBLACION PAIS", [CInt 300; CInt 300; CInt 200])].

Definition ej_seleccion_poblacion : Poblacion.seleccion :=
  {| Poblacion.selected_ano := CStr "2025";
     Poblacion.selected_mes := CStr "ENERO";
     Poblacion.selected_regimen := CStr "TODOS";
     Poblacion.selected_region := CStr "TODOS";
     Poblacion.selected_regional := CStr "TODOS";
     Poblacion.selected_subregion := CStr "A";
     Poblacion.selected_departamento := CStr "TODOS";
     Poblacion.selected_municipio := CStr "TODOS" |}.

(** The filtered frame keeps the row of ENERO in sub-region A. *)
Definition ej_poblacion_filtrada : DataFrame :=
  [("ANO", [CStr "2025"]);
   ("MES", [CStr "ENERO"]);
   ("REGIMEN", [CStr "CONTRIBUTIVO"]);
   ("REGIÓN", [CStr "CARIBE"]);
   ("REGIONAL", [CStr "NORTE"]);
   ("SUBREGIÓN", [CStr "A"]);
   ("DEPARTAMENTO", [CStr "ATLANTICO"]);
   ("MUNICIPIO", [CStr "X"]);
   ("PRESUPUESTO", [CInt 100]);
   ("POBLACION_BDUA", [CInt 30]);
   ("POBLACION PAIS", [CInt 300])].

(** The frame of the monthly views keeps the three rows. *)
Example ej_historico :
  Poblacion.df_chart_data_all_months ej_seleccion_poblacion
    ej_poblacion_cargada
  = Ret ej_poblacion_cargada.
Proof. vm_compute. reflexivity. Qed.

Lemma df_filtered_acota_el_historico_ejemplo :
  exists G,
    Poblacion.df_chart_data_all_months ej_seleccion_poblacion
      ej_poblacion_cargada = Ret G
    /\ ej_poblacion_filtrada
       = acotar "MES" (CStr "ENERO") (acotar "SUBREGIÓN" (CStr "A") G).
Proof.
  exact (df_filtered_acota_el_historico ej_seleccion_poblacion
           ej_poblacion_cargada ej_poblacion_filtrada eq_refl).
Defined.


(** ** The two views of the income page *)

Section VistasDeIngreso.

Import Ingreso.

Variable float_str : Q -> string.

Implicit Types (d : DataFrame) (col a b : string) (valor x y : cell)
  (s : seleccion) (v : Series).

Lemma set_filter_rows c v m d :
  DF.set c (DF.mask_filter m v) (DF.filter_rows m d)
  = DF.filter_rows m (DF.set c v d).
Proof.
  unfold DF.set. rewrite has_filter_rows. destruct (DF.has c d).
  - unfold DF.filter_rows. rewrite !map_map. apply map_ext. intros p. simpl.
    by destruct (String.eqb p.1 c).
  - unfold DF.filter_rows. by rewrite map_app.
Qed.

Lemma set_set_comm a b va vb d :
  a <> b -> DF.has a d = true -> DF.has b d = true ->
  DF.set a va (DF.set b vb d) = DF.set b vb (DF.set a va d).
Proof.
  intros Hne Ha Hb. unfold DF.set at 1 3.
  rewrite !has_set_mono by done. unfold DF.set. rewrite Ha, Hb.
  rewrite !map_map. apply map_ext. intros p.
  assert (String.eqb a b = false) as Eab by (by apply String.eqb_neq).
  assert (String.eqb b a = false) as Eba by (by apply String.eqb_neq).
  destruct (String.eqb p.1 b) eqn:E1, (String.eqb p.1 a) eqn:E2; simpl;
    rewrite ?E1, ?E2, ?String.eqb_refl, ?Eab, ?Eba; try done.
  apply String.eqb_eq in E1, E2. congruence.
Qed.

(** The filter when it applies, with the test on the values as they were
    before they are put in normal form. *)
Definition prueba valor (c : cell) : bool :=
  cell_is (Str.strip (Str.upper (astype_str float_str valor)))
          (normal float_str c).

Lemma filtrar_activo col valor d v :
  DF.get col d = Ret v -> valor <> CStr "Todos" ->
  filtrar float_str col valor d
  = DF.filter_rows (map (prueba valor) v)
      (DF.set col (map (normal float_str) v) d).
Proof.
  intros Hv Hne. unfold filtrar. rewrite (get_has _ _ _ Hv). simpl.
  rewrite bool_decide_eq_false_2 by done. rewrite Hv. cbv zeta.
  by rewrite map_map.
Qed.

Lemma filtrar_inactivo col valor d :
  DF.has col d = false \/ valor = CStr "Todos" ->
  filtrar float_str col valor d = d.
Proof.
  intros H. unfold filtrar. destruct H as [-> | ->]; [done|].
  rewrite bool_decide_eq_true_2 by done. by rewrite orb_true_r.
Qed.

Lemma has_filtrar c col valor d :
  DF.has c (filtrar float_str col valor d) = DF.has c d.
Proof. unfold DF.has. by rewrite columns_filtrar. Qed.

(** Filters on two different columns can be applied in either order. *)
Lemma filtrar_comm a x b y d :
  a <> b ->
  filtrar float_str a x (filtrar float_str b y d)
  = filtrar float_str b y (filtrar float_str a x d).
Proof.
  intros Hne.
  destruct (decide (x = CStr "Todos")) as [Hx|Hx].
  { rewrite !(filtrar_inactivo a x) by auto. done. }
  destruct (decide (y = CStr "Todos")) as [Hy|Hy].
  { rewrite !(filtrar_inactivo b y) by auto. done. }
  destruct (DF.has a d) eqn:Ha.
  2: { rewrite !(filtrar_inactivo a x); [done|by left|].
       left. by rewrite has_filtrar. }
  destruct (DF.has b d) eqn:Hb.
  2: { rewrite !(filtrar_inactivo b y); [done| |by left].
       left. by rewrite has_filtrar. }
  destruct (has_get _ _ Ha) as [va Hva], (has_get _ _ Hb) as [vb Hvb].
  rewrite (filtrar_activo b y d vb Hvb Hy), (filtrar_activo a x d va Hva Hx).
  set (na := map (normal float_str) va). set (nb := map (normal float_str) vb).
  set (ma := map (prueba x) va). set (mb := map (prueba y) vb).
  rewrite (filtrar_activo a x _ (DF.mask_filter mb va));
    [|by rewrite get_filter_rows, get_set_ne, Hva|done].
  rewrite (filtrar_activo b y _ (DF.mask_filter ma vb));
    [|by rewrite get_filter_rows, get_set_ne, Hvb|done].
  rewrite <- !(mask_filter_map (normal float_str)). fold na nb.
  rewrite !set_filter_rows.
  rewrite (set_set_comm a b na nb d Hne Ha Hb).
  rewrite !filter_rows_twice. apply map_ext. intros p. f_equal.
  unfold ma, mb. apply mask_filter_comm.
Qed.

Lemma filtrar_varios_comm a x fs d :
  Forall (fun f => a <> f.1) fs ->
  filtrar float_str a x (filtrar_varios float_str fs d)
  = filtrar_varios float_str fs (filtrar float_str a x d).
Proof.
  intros H. unfold filtrar_varios. revert d.
  induction H as [|f fs Hf _ IH]; intros d; [done|].
  cbn [fold_left]. rewrite IH. f_equal. by apply filtrar_comm.
Qed.

(** X21.  On the income page the frame of the KPIs and of the detail
    tables is the frame of the trend chart narrowed by the selected month:
    the two differ by the month filter alone, at whatever place of the
    chain it is applied. *)
Theorem vista_kpis_es_tendencia_del_mes s d :
  vista_kpis float_str s d
  = filtrar float_str "MES" (selected_mes s) (vista_tendencia float_str s d).
Proof.
  rewrite vista_kpis_eq, vista_tendencia_eq.
  rewrite filtrar_varios_comm.
  2: { unfold geo_filters. repeat constructor; discriminate. }
  f_equal. by apply filtrar_comm.
Qed.

End VistasDeIngreso.

(** ** The monthly chart of the income page *)

Section GraficoMensual.

Import Ingreso.

Variable float_str : Q -> string.

Implicit Types (df : DataFrame) (ks : Series) (r : barra) (qp qe : list Q).





End GraficoMensual.


(** The chart of the example: the three months that are known, in the
    order of the calendar. *)
Example ej_meses_grafico :
  map Ingreso.b_mes
      (match Ingreso.df_chart float_str_ejemplos ej_meses with
       | Ret bars => bars
       | Raise _ => []
       end)
  = [CStr "ENE"; CStr "MAR"; CStr "DIC"].
Proof. vm_compute. reflexivity. Qed.

(** ** The rows of the territorial join that find their code *)

Section UnionConCoincidencia.

Import Ingreso.

Variable float_str : Q -> string.

Implicit Types (df : DataFrame) (c : string) (v u gk rk lk : Series)
  (k : cell).






End UnionConCoincidencia.

(** A reference that lists the code 5001 twice. *)
Definition ej_geo_repetido : DataFrame :=
  [("DANE", [CInt 5001; CStr "05001"; CInt 8001]);
   ("MUNICIPIO", [CStr "MEDELLIN"; CStr "OTRO"; CStr "BARRANQUILLA"]);
   ("REGIONAL", [CNone; CStr "CENTRO"; CStr "CARIBE"])].


(** In the example, the null REGIONAL of that first row becomes "N/A"; the
    REGIONAL of the second row with the code is not used. *)
Example ej_union_repetido :
  exists res,
    Ingreso.merge_con_geo float_str_ejemplos ej_ingreso ej_geo_repetido
    = Ret res
    /\ DF.get "MUNICIPIO" res = Ret [CStr "MEDELLIN"; CStr "N/A"]
    /\ DF.get "REGIONAL" res = Ret [CStr "N/A"; CStr "N/A"].
Proof. eexists. split; [vm_compute; reflexivity|]. by vm_compute. Qed.

(** ** The monthly chart of the population page *)

Section GraficoPoblacion.

Import Poblacion.

Implicit Types (df : DataFrame) (ks : Series) (r : barra) (qp qb : list Q)
  (k : cell).

(** The order of two months that [MONTH_ORDER] knows. *)
Definition mes_antes (x y : cell) : Prop :=
  exists i j, mes_order x = Some i /\ mes_order y = Some j /\ (i <= j)%nat.

Lemma Sorted_fmap {A B} (f : A -> B) (R : B -> B -> Prop) (l : list A) :
  Sorted (fun x y => R (f x) (f y)) l -> Sorted R (map f l).
Proof.
  induction 1 as [|x l _ IH Hhd]; simpl; constructor; [done|].
  destruct Hhd; simpl; by constructor.
Qed.

Lemma Sorted_impl_Forall {A} (P : A -> Prop) (R S : A -> A -> Prop)
    (l : list A) :
  (forall x y, P x -> P y -> R x y -> S x y) ->
  Forall P l -> Sorted R l -> Sorted S l.
Proof.
  intros HRS HP Hs. induction Hs as [|x l _ IH Hhd]; [constructor|].
  apply Forall_cons in HP as [Hx HP]. constructor; [by apply IH|].
  destruct Hhd as [|y l' Hxy]; constructor.
  apply Forall_cons in HP as [Hy _]. by apply HRS.
Qed.

(** A bar of the chart: finite sums, a month that [MONTH_ORDER] knows,
    and the ratio of the two sums, 0 when the budget is 0. *)
Definition barra_poblacion_valida r : Prop :=
  exists p b : Q,
    b_presupuesto r = Fin p /\ b_bdua r = Fin b
    /\ is_Some (mes_order (b_mes r))
    /\ b_porcentaje r = Fin (if Qeq_bool p 0 then 0 else b / p * 100).

(** X24.  When the population page draws the monthly chart for finite
    amounts, the chart has at least one month; every month is one that
    [MONTH_ORDER] knows and occurs once; the months are in the order of
    [MONTH_ORDER]; and every ratio is finite: the quotient of the two
    sums, or 0 for a budget of 0. *)
Theorem df_chart_poblacion df qp qb bars :
  numeric "PRESUPUESTO" df = Ret (map Fin qp) ->
  numeric "POBLACION_BDUA" df = Ret (map Fin qb) ->
  df_chart df = Ret (Some bars) ->
  bars <> []
  /\ Forall barra_poblacion_valida bars
  /\ NoDup (map b_mes bars)
  /\ Sorted mes_antes (map b_mes bars).
Proof.
  intros Hp Hb. unfold df_chart.
  destruct (DF.empty df); [done|].
  destruct (DF.get "MES" df) as [ks|] eqn:Hk; [|done].
  cbn [mbind py_bind]. rewrite Hp, Hb. cbn [mbind py_bind].
  set (rows0 := map _ (GroupBy.keys ks)).
  set (known := List.filter _ rows0).
  set (rows := Sort.sort_by mes_order_leb known).
  destruct (Nat.eqb (length rows) 0) eqn:Elen; [done|].
  intros [= <-].
  assert (forall t, t ∈ rows ->
            t ∈ rows0 /\ is_Some (mes_order t.1.1)) as Hrows.
  { intros t Ht. unfold rows in Ht. rewrite sort_by_elem in Ht.
    apply list_elem_of_In, filter_In in Ht as [Ht Hs].
    apply bool_decide_eq_true in Hs. by apply list_elem_of_In in Ht. }
  assert (map b_mes (map (fun t : cell * num * num =>
                            Barra t.1.1 t.1.2 t.2
                              (razon_inversion t.2 t.1.2)
                              (if negb (Num.isnan (razon_inversion t.2 t.1.2))
                                  && ge0 (razon_inversion t.2 t.1.2)
                               then Ingreso.fmt_pct1
                                      (razon_inversion t.2 t.1.2)
                               else "")) rows)
          = map (fun t => t.1.1) rows) as Emes.
  { rewrite map_map. done. }
  split; [|split; [|split]].
  - apply Nat.eqb_neq in Elen. by destruct rows.
  - apply Forall_forall. intros r Hr.
    apply list_elem_of_fmap in Hr as [t [-> Ht]].
    destruct (Hrows t Ht) as [Ht0 Hs].
    apply list_elem_of_fmap in Ht0 as [k [-> _]]. cbn in *.
    destruct (group_sum_Fin ks qp k) as (p & Ep & _).
    destruct (group_sum_Fin ks qb k) as (b & Eb & _).
    exists p, b. rewrite Ep, Eb. repeat split; try done.
    unfold razon_inversion, Num.ne0. simpl.
    by destruct (Qeq_bool p 0).
  - rewrite Emes. unfold rows. rewrite sort_by_perm. unfold known.
    assert (forall l, NoDup l ->
              NoDup (map (fun t : cell * num * num => t.1.1)
                       (List.filter
                          (fun t : cell * num * num =>
                             bool_decide (is_Some (mes_order t.1.1)))
                          (map (fun k => (k, GroupBy.sum ks (map Fin qp) k,
                                          GroupBy.sum ks (map Fin qb) k)) l))))
      as Hgen.
    { induction 1 as [|k l Hk' _ IH]; simpl; [constructor|].
      destruct (bool_decide _); [|done]. simpl. constructor; [|done].
      intros Hin. apply list_elem_of_fmap in Hin as [t [Et Ht]].
      apply list_elem_of_In, filter_In in Ht as [Ht _].
      apply list_elem_of_In, list_elem_of_fmap in Ht as [k' [-> Hk'']].
      simpl in Et. by subst. }
    apply Hgen, keys_nodup.
  - rewrite Emes. apply Sorted_fmap.
    apply (Sorted_impl_Forall
             (fun t : cell * num * num => is_Some (mes_order t.1.1))
             (fun x y => mes_order_leb x y = true)).
    + intros x y [i Hi] [j Hj] H. unfold mes_order_leb in H.
      rewrite Hi, Hj in H. apply Nat.leb_le in H. by exists i, j.
    + apply Forall_forall. intros t Ht. by apply Hrows.
    + apply (sort_by_sorted _
               (fun t : cell * num * num => is_Some (mes_order t.1.1))).
      * intros x y [i Hi] [j Hj]. unfold mes_order_leb. rewrite Hi, Hj.
        intros H. apply Nat.leb_le. apply Nat.leb_gt in H. lia.
      * apply Forall_forall. intros t Ht.
        apply list_elem_of_In, filter_In in Ht as [_ Hs].
        by apply bool_decide_eq_true in Hs.
Qed.

End GraficoPoblacion.

Lemma df_chart_poblacion_ejemplo :
  exists bars,
    Poblacion.df_chart ej_poblacion_cargada = Ret (Some bars)
    /\ bars <> []
    /\ Forall barra_poblacion_valida bars
    /\ NoDup (map Poblacion.b_mes bars)
    /\ Sorted mes_antes (map Poblacion.b_mes bars).
Proof.
  eexists. split; [vm_compute; reflexivity|].
  apply (df_chart_poblacion ej_poblacion_cargada
           [100; 100; 50]%Q [30; 50; 20]%Q).
  - reflexivity.
  - reflexivity.
  - vm_compute. reflexivity.
Defined.
